(** * Duck Machine DM2022: instruction codec, ALU, register file, CPU and
    assembler

    A shallow embedding of
      - instruction_set/instr_format.py  (OpCode, CondFlag, Instruction, decode)
      - cpu/register.py                  (Register, ZeroRegister)
      - cpu/cpu.py                       (ALU, CPU)
      - cpu/duck_machine.py              (load)
      - asm/assembler_phase2.py          (to_flag, instruction_from_dict,
                                          assemble)
      - asm/assembler_phase1.py          (resolve, transform)
    The regular expressions of the assembler and the built-ins [int] and
    [str.rstrip] are parameters of the sections that use them.
    Python integers are unbounded, so every machine value is a [Z]; a Python
    exception is a [Raise] in the [result] monad below. *)

From Stdlib Require Import ZArith Lia Bool DecimalString.
From stdpp Require Import base list strings gmap.

Local Open Scope Z_scope.

(** ** Exceptions *)

(** The Python exceptions the modelled code can raise. *)
Inductive PyError : Type :=
  | ValueError          (* Enum lookup of a value that names no member *)
  | IndexError          (* list subscript out of range *)
  | ZeroDivisionError   (* x // 0 *)
  | OutOfRange.         (* memory access outside [0, size) *)

(** The specification calls the failure of a decode [InvalidEncoding]; in the
    code it is the [ValueError] raised by [OpCode(...)] or [CondFlag(...)]. *)
Definition InvalidEncoding : PyError := ValueError.

Inductive result (A : Type) : Type :=
  | Ok (a : A)
  | Raise (e : PyError).
Arguments Ok {A} a.
Arguments Raise {A} e.

Definition bind {A B : Type} (m : result A) (k : A -> result B) : result B :=
  match m with
  | Ok a => k a
  | Raise e => Raise e
  end.

Declare Scope result_scope.
Delimit Scope result_scope with result.
Notation "'let*' x := m 'in' k" :=
  (bind m (fun x => k))
  (at level 10, x pattern, m at level 100, k at level 200)
  : result_scope.
Local Open Scope result_scope.

(** ** Bit fields *)

Module BitField.

(** Modelled from the spec: instruction_set/bitfield.py is not among the
    sources.  "Immutable descriptor defined by (low bit, high bit),
    0-indexed, inclusive"; [BitField(26, 30)] is the field of bits 26..30. *)
Record t : Type := BitField { from_bit : Z; to_bit : Z }.

(** Modelled from the spec: the number of bits of the field. *)
Definition width (f : t) : Z := to_bit f - from_bit f + 1.

(** Modelled from the spec: the field's mask, a run of [width] one bits. *)
Definition mask (f : t) : Z := Z.ones (width f).

(** Modelled from the spec: instruction_set/bitfield.py is not among the
    sources.  "[extract(word)] returns the unsigned integer found in bits
    [low,high] of [word], right-shifted to start at bit 0." *)
Definition extract (f : t) (word : Z) : Z :=
  Z.land (Z.shiftr word (from_bit f)) (mask f).

(** Modelled from the spec: instruction_set/bitfield.py is not among the
    sources.  "[extract_signed(word)] additionally interprets the top bit of
    the field as a sign bit and sign-extends (two's-complement) when set." *)
Definition extract_signed (f : t) (word : Z) : Z :=
  let unsigned := extract f word in
  if Z.testbit unsigned (width f - 1)
  then unsigned - 2 ^ width f
  else unsigned.

(** Modelled from the spec: instruction_set/bitfield.py is not among the
    sources.  "[insert(value, word)] masks [value] to the field's bit width
    (silently truncating) and returns [word] with that field's bits
    replaced, all other bits preserved"; the masked value is OR-ed into
    position. *)
Definition insert (f : t) (value word : Z) : Z :=
  Z.lor (Z.land word (Z.lnot (Z.shiftl (mask f) (from_bit f))))
        (Z.shiftl (Z.land value (mask f)) (from_bit f)).

(** A descriptor as the spec requires it: 0 <= low <= high. *)
Definition valid (f : t) : Prop := 0 <= from_bit f <= to_bit f.

(** Two fields that share no bit. *)
Definition disjoint (f g : t) : Prop :=
  to_bit f < from_bit g \/ to_bit g < from_bit f.

End BitField.

Import BitField(BitField).

(** ** instr_format.py *)

Definition reserved : BitField.t := BitField 31 31.
Definition instr_field : BitField.t := BitField 26 30.
Definition cond_field : BitField.t := BitField 22 25.
Definition reg_target_field : BitField.t := BitField 18 21.
Definition reg_src1_field : BitField.t := BitField 14 17.
Definition reg_src2_field : BitField.t := BitField 10 13.
Definition offset_field : BitField.t := BitField 0 9.

Inductive OpCode : Type :=
  | HALT | LOAD | STORE | ADD | SUB | MUL | DIV.

Module OpCode.

(** [member.value] *)
Definition value (op : OpCode) : Z :=
  match op with
  | HALT => 0
  | LOAD => 1
  | STORE => 2
  | ADD => 3
  | SUB => 5
  | MUL => 6
  | DIV => 7
  end.

(** [OpCode(v)] for an integer [v]: the member whose value is [v], and a
    [ValueError] when there is none. *)
Definition of_int (v : Z) : result OpCode :=
  match v with
  | 0 => Ok HALT
  | 1 => Ok LOAD
  | 2 => Ok STORE
  | 3 => Ok ADD
  | 5 => Ok SUB
  | 6 => Ok MUL
  | 7 => Ok DIV
  | _ => Raise ValueError
  end.

(** The numbers that name a member. *)
Definition legal (v : Z) : Prop := exists op, value op = v.

End OpCode.

(** A [CondFlag] is an [enum.Flag]: an integer whose bits 0..3 are the flags
    M, Z, P and V.  Every combination of the four is a value of the type. *)
Definition CondFlag : Type := Z.

Module CondFlag.

Definition M : CondFlag := 1.
Definition Z : CondFlag := 2.
Definition P : CondFlag := 4.
Definition V : CondFlag := 8.
Definition NEVER : CondFlag := 0.
Definition ALWAYS : CondFlag := Z.lor (Z.lor (Z.lor M Z) P) V.

(** [flag.value] *)
Definition value (c : CondFlag) : BinNums.Z := c.

(** The numbers that are a combination of M, Z, P and V. *)
Definition legal (v : BinNums.Z) : Prop := 0 <= v <= 15.

(** [CondFlag(v)] for an integer [v], as [enum.Flag] looks it up: a value
    in 0..15 is that combination of flags, a negative value down to -16 is
    the complement of the flags of [~v] (the same bits read in two's
    complement), and anything else is a [ValueError]. *)
Definition of_int (v : BinNums.Z) : result CondFlag :=
  if (-16 <=? v) && (v <=? 15) then Ok (v mod 16) else Raise ValueError.

(** [a & b] *)
Definition and (a b : CondFlag) : CondFlag := Z.land a b.

(** Truth value of a flag: any bit set. *)
Definition truthy (c : CondFlag) : bool := negb (c =? 0).

End CondFlag.

Record Instruction : Type := mkInstruction {
  op : OpCode;
  cond : CondFlag;
  reg_target : Z;
  reg_src1 : Z;
  reg_src2 : Z;
  offset : Z
}.

(** [Instruction.encode] *)
Definition encode (self : Instruction) : Z :=
  let word := 0 in
  let word := BitField.insert instr_field (OpCode.value (op self)) word in
  let word := BitField.insert cond_field (CondFlag.value (cond self)) word in
  let word := BitField.insert reg_target_field (reg_target self) word in
  let word := BitField.insert reg_src1_field (reg_src1 self) word in
  let word := BitField.insert reg_src2_field (reg_src2 self) word in
  let word := BitField.insert offset_field (offset self) word in
  word.

(** [decode]: every field, the unsigned ones too, is read with
    [extract_signed].  The closing [OpCode(op)] and [CondFlag(cond)] are
    applied to members and return them unchanged. *)
Definition decode (word : Z) : result Instruction :=
  let* op := OpCode.of_int (BitField.extract_signed instr_field word) in
  let* cond := CondFlag.of_int (BitField.extract_signed cond_field word) in
  let reg_target := BitField.extract_signed reg_target_field word in
  let reg_src1 := BitField.extract_signed reg_src1_field word in
  let reg_src2 := BitField.extract_signed reg_src2_field word in
  let offset := BitField.extract_signed offset_field word in
  Ok (mkInstruction op cond reg_target reg_src1 reg_src2 offset).

(** ** register.py *)

(** The class [Register] and its subclass [ZeroRegister]; both hold the
    field [_value]. *)
Inductive Register : Type :=
  | MkRegister (_value : Z)
  | MkZeroRegister (_value : Z).

Module Register.

(** [Register()] and [ZeroRegister()]: [__init__] sets [_value] to 0. *)
Definition new : Register := MkRegister 0.
Definition new_zero : Register := MkZeroRegister 0.

Definition get (self : Register) : Z :=
  match self with
  | MkRegister v => v
  | MkZeroRegister v => v
  end.

(** [ZeroRegister.put] overrides [Register.put] with [pass]. *)
Definition put (self : Register) (value : Z) : Register :=
  match self with
  | MkRegister _ => MkRegister value
  | MkZeroRegister v => MkZeroRegister v
  end.

End Register.

(** ** Python lists *)

(** [l[i]] on a list of length [n]: a negative [i] counts from the end, and
    an index outside [-n, n) is an [IndexError]. *)
Definition subscript (n : nat) (i : Z) : result nat :=
  let j := if i <? 0 then i + Z.of_nat n else i in
  if (0 <=? j) && (j <? Z.of_nat n) then Ok (Z.to_nat j) else Raise IndexError.

Definition getitem {A : Type} (l : list A) (i : Z) : result A :=
  let* k := subscript (length l) i in
  match l !! k with
  | Some x => Ok x
  | None => Raise IndexError
  end.

(** [registers[i].get()] *)
Definition reg_get (registers : list Register) (i : Z) : result Z :=
  let* r := getitem registers i in
  Ok (Register.get r).

(** [registers[i].put(value)]: the register object in the list is changed
    in place. *)
Definition reg_put (registers : list Register) (i : Z) (value : Z)
  : result (list Register) :=
  let* k := subscript (length registers) i in
  match registers !! k with
  | Some r => Ok (<[k := Register.put r value]> registers)
  | None => Raise IndexError
  end.

(** The register file as [CPU.__init__] builds it and every step keeps it:
    sixteen registers, the first a [ZeroRegister] holding 0 and the others
    plain [Register]s. *)
Definition plain (r : Register) : bool :=
  match r with
  | MkRegister _ => true
  | MkZeroRegister _ => false
  end.

Definition register_file_ok (registers : list Register) : bool :=
  match registers with
  | MkZeroRegister 0 :: rest => (length rest =? 15)%nat && forallb plain rest
  | _ => false
  end.

(** ** cpu.py: the ALU *)

Module ALU.

(** [ALU_OPS[op](x, y)]; [x // y] is floor division and raises
    [ZeroDivisionError] when [y] is 0. *)
Definition ALU_OPS (op : OpCode) (x y : Z) : result Z :=
  match op with
  | ADD => Ok (x + y)
  | SUB => Ok (x - y)
  | MUL => Ok (x * y)
  | DIV => if y =? 0 then Raise ZeroDivisionError else Ok (x / y)
  | LOAD => Ok (x + y)
  | STORE => Ok (x + y)
  | HALT => Ok 0
  end.

(** [ALU.exec]: the bare [except] turns any exception into [(0, V)].
    The last test of the chain, [op_result > 0], is the only case left
    for an integer that is neither zero nor negative. *)
Definition exec (op : OpCode) (in1 in2 : Z) : Z * CondFlag :=
  match ALU_OPS op in1 in2 with
  | Raise _ => (0, CondFlag.V)
  | Ok op_result =>
      if op_result =? 0 then (op_result, CondFlag.Z)
      else if op_result <? 0 then (op_result, CondFlag.M)
      else (op_result, CondFlag.P)
  end.

End ALU.

(** The arithmetic class of opcodes; the others are the memory class
    (LOAD, STORE) and the control class (HALT). *)
Definition arithmetic (op : OpCode) : bool :=
  match op with
  | ADD | SUB | MUL | DIV => true
  | HALT | LOAD | STORE => false
  end.

(** The flag of a result by its sign: negative M, zero Z, positive P. *)
Definition sign_flag (r : Z) : CondFlag :=
  if r <? 0 then CondFlag.M else if r =? 0 then CondFlag.Z else CondFlag.P.

(** [q] is the floor of the rational [a / b]: the largest integer not above
    it. *)
Definition floor_of (a b q : Z) : Prop :=
  (0 < b -> q * b <= a < (q + 1) * b) /\
  (b < 0 -> (q + 1) * b < a <= q * b).

(** ** Memory *)

(** The two methods of the memory connection that the CPU calls
    (cpu/memory.py is not among the sources, so the CPU is modelled over any
    memory that offers them).  Both can raise, and a [get] hands back the
    memory as well: reading a memory-mapped input port consumes input. *)
Class MemoryBus (M : Type) : Type := {
  mem_get : M -> Z -> result (Z * M);
  mem_put : M -> Z -> Z -> result M
}.

(** Modelled from the spec: the class [Memory] of cpu/memory.py is not among
    the sources.  "Fixed-size addressable array of integer words, index
    range [0, size). Ordinary addresses behave as plain storage.
    Out-of-range access is a fatal error." *)
Record Memory : Type := mkMemory { cells : list Z }.

(** Modelled from the spec: an address is in range when it lies in
    [0, size). *)
Definition in_range (m : Memory) (addr : Z) : bool :=
  (0 <=? addr) && (addr <? Z.of_nat (length (cells m))).

(** Modelled from the spec: [Memory.get(addr)], the word stored at [addr];
    the memory itself is not changed by a read. *)
Definition Memory_get (m : Memory) (addr : Z) : result (Z * Memory) :=
  if in_range m addr then
    match cells m !! Z.to_nat addr with
    | Some word => Ok (word, m)
    | None => Raise OutOfRange
    end
  else Raise OutOfRange.

(** Modelled from the spec: [Memory.put(addr, word)]. *)
Definition Memory_put (m : Memory) (addr word : Z) : result Memory :=
  if in_range m addr
  then Ok (mkMemory (<[Z.to_nat addr := word]> (cells m)))
  else Raise OutOfRange.

#[export] Instance Memory_bus : MemoryBus Memory :=
  {| mem_get := Memory_get; mem_put := Memory_put |}.

(** ** cpu.py: the CPU *)

Section CPU.

Context {M : Type} `{MemoryBus M}.

(** The fields of a [CPU] object.  [self.pc] is not a field of its own
    here: it is the very object [self.registers[15]], and the list is
    never rebound. *)
Record CPU : Type := mkCPU {
  memory : M;
  registers : list Register;
  condition : CondFlag;
  halted : bool
}.

(** [CPU.__init__] *)
Definition CPU_init (memory : M) : CPU :=
  {| memory := memory;
     registers :=
       [Register.new_zero; Register.new; Register.new; Register.new;
        Register.new; Register.new; Register.new; Register.new;
        Register.new; Register.new; Register.new; Register.new;
        Register.new; Register.new; Register.new; Register.new];
     condition := CondFlag.ALWAYS;
     halted := false |}.

(** [self.pc.get()] and [self.pc.put(v)] *)
Definition pc_get (registers : list Register) : result Z :=
  reg_get registers 15.
Definition pc_put (registers : list Register) (v : Z)
  : result (list Register) :=
  reg_put registers 15 v.

(** [CPU.step], over the decoder it calls.  [notify_all] hands the event to
    the listeners and leaves the CPU as it is. *)
Definition step_with (decode : Z -> result Instruction) (self : CPU)
  : result CPU :=
  (* 1) Fetch *)
  let* instr_addr := pc_get (registers self) in
  let* (instr_word, memory) := mem_get (memory self) instr_addr in
  (* 2) Decode *)
  let* instr := decode instr_word in
  (* 3) Execute *)
  let instr_predicate := CondFlag.and (condition self) (cond instr) in
  if CondFlag.truthy instr_predicate then
    let* left_op := reg_get (registers self) (reg_src1 instr) in
    let* src2 := reg_get (registers self) (reg_src2 instr) in
    let right_op := src2 + offset instr in
    let result := ALU.exec (op instr) left_op right_op in
    let* pc := pc_get (registers self) in
    let* registers := pc_put (registers self) (pc + 1) in
    match op instr with
    | STORE =>
        let addr := fst result in
        let* value := reg_get registers (reg_target instr) in
        let* memory := mem_put memory addr value in
        Ok (mkCPU memory registers (condition self) (halted self))
    | LOAD =>
        let addr := fst result in
        let* (location_val, memory) := mem_get memory addr in
        let* registers := reg_put registers (reg_target instr) location_val in
        Ok (mkCPU memory registers (condition self) (halted self))
    | HALT =>
        Ok (mkCPU memory registers (condition self) true)
    | _ =>
        let* registers := reg_put registers (reg_target instr) (fst result) in
        Ok (mkCPU memory registers (snd result) (halted self))
    end
  else
    let* pc := pc_get (registers self) in
    let* registers := pc_put (registers self) (pc + 1) in
    Ok (mkCPU memory registers (condition self) (halted self)).

Definition step : CPU -> result CPU := step_with decode.

(** [CPU.run]: the loop runs until [halted]; [fuel] bounds the number of
    steps, and [None] is a run that has not halted within it. *)
Fixpoint run_loop (fuel : nat) (self : CPU) : result (option CPU) :=
  if halted self then Ok (Some self)
  else
    match fuel with
    | O => Ok None
    | S fuel =>
        let* self := step self in
        run_loop fuel self
    end.

Definition run (fuel : nat) (self : CPU) (from_addr : Z)
  : result (option CPU) :=
  let* registers := reg_put (registers self) 15 from_addr in
  run_loop fuel (mkCPU (memory self) registers (condition self) false).

(** The first two stages of [step] on their own: the instruction that a
    step fetches and decodes, with the memory as the fetch leaves it. *)
Definition fetch (self : CPU) : result (Instruction * M) :=
  let* instr_addr := pc_get (registers self) in
  let* (instr_word, memory) := mem_get (memory self) instr_addr in
  let* instr := decode instr_word in
  Ok (instr, memory).

(** The states a CPU object can be in: built by [__init__], then changed by
    [step], by [run], by a [put] on one of its registers, or by whoever
    shares its memory. *)
Inductive reachable : CPU -> Prop :=
  | reachable_init (memory : M) :
      reachable (CPU_init memory)
  | reachable_step (s s' : CPU) :
      reachable s -> step s = Ok s' -> reachable s'
  | reachable_run (fuel : nat) (s s' : CPU) (from_addr : Z) :
      reachable s -> run fuel s from_addr = Ok (Some s') -> reachable s'
  | reachable_put (s : CPU) (i value : Z) (registers' : list Register) :
      reachable s -> reg_put (registers s) i value = Ok registers' ->
      reachable (mkCPU (memory s) registers' (condition s) (halted s))
  | reachable_memory (s : CPU) (memory' : M) :
      reachable s ->
      reachable (mkCPU memory' (registers s) (condition s) (halted s)).

End CPU.

Arguments CPU M : clear implicits.

(** ** The specification's reading of the code *)

(** The decoder as the specification words it: "extract each field with the
    field-appropriate signedness - opcode, condition, target, src1, src2 are
    unsigned; offset is signed". *)
Definition decode_unsigned (word : Z) : result Instruction :=
  let* op := OpCode.of_int (BitField.extract instr_field word) in
  let* cond := CondFlag.of_int (BitField.extract cond_field word) in
  let reg_target := BitField.extract reg_target_field word in
  let reg_src1 := BitField.extract reg_src1_field word in
  let reg_src2 := BitField.extract reg_src2_field word in
  let offset := BitField.extract_signed offset_field word in
  Ok (mkInstruction op cond reg_target reg_src1 reg_src2 offset).

(** A 4-bit register number read as a two's-complement value. *)
Definition signed4 (r : Z) : Z := if 8 <=? r then r - 16 else r.

(** An instruction whose fields are within their legal ranges. *)
Definition legal_instruction (i : Instruction) : Prop :=
  CondFlag.legal (cond i) /\
  0 <= reg_target i <= 15 /\ 0 <= reg_src1 i <= 15 /\ 0 <= reg_src2 i <= 15 /\
  -512 <= offset i <= 511.

(** ** Example machines *)

(** A CPU fresh from [__init__] on a memory that holds [program]. *)
Definition machine (program : list Z) : CPU Memory :=
  CPU_init (mkMemory program).

(** [ADD/NEVER r1,r0,r0[5]] *)
Definition skipped_add : Instruction :=
  mkInstruction ADD CondFlag.NEVER 1 0 0 5.

(** [ADD r15,r15,r15[5]], a jump relative to the program counter *)
Definition jump : Instruction :=
  mkInstruction ADD CondFlag.ALWAYS 15 15 15 5.

(** [jump] as [decode] returns it *)
Definition jump_decoded : Instruction :=
  mkInstruction ADD CondFlag.ALWAYS (-1) (-1) (-1) 5.

(** [DIV r1,r2,r0[0]] *)
Definition div_zero : Instruction :=
  mkInstruction DIV CondFlag.ALWAYS 1 2 0 0.

(** [ADD r0,r0,r0[5]] *)
Definition add_to_zero : Instruction :=
  mkInstruction ADD CondFlag.ALWAYS 0 0 0 5.

(** [ADD r15,r0,r15[-2]], the loop-back of the specification's scenario *)
Definition loop_back : Instruction :=
  mkInstruction ADD CondFlag.ALWAYS 15 0 15 (-2).

(** [LOAD r8,r0,r9[0]] *)
Definition load_r8 : Instruction :=
  mkInstruction LOAD CondFlag.ALWAYS 8 0 9 0.

Definition skipping_machine : CPU Memory := machine [encode skipped_add].
Definition jumping_machine : CPU Memory := machine [encode jump].
Definition dividing_machine : CPU Memory := machine [encode div_zero].
Definition adding_machine : CPU Memory := machine [encode add_to_zero].

(** ** Encoding of arbitrary field values *)

(** The number that a field of [n] bits gives back, read signed, when [v]
    was inserted into it: [v] truncated to [n] bits and sign-extended. *)
Definition signed_field (n v : Z) : Z :=
  let u := v mod 2 ^ n in
  if 2 ^ (n - 1) <=? u then u - 2 ^ n else u.

(** An instruction as [decode] returns it once [encode] has truncated its
    register numbers and its offset to their fields. *)
Definition truncated (i : Instruction) : Instruction :=
  mkInstruction (op i) (cond i)
    (signed_field 4 (reg_target i)) (signed_field 4 (reg_src1 i))
    (signed_field 4 (reg_src2 i)) (signed_field 10 (offset i)).

(** [ADD r15,r0,r15[-600]]: an offset that does not fit its ten bits *)
Definition far_jump : Instruction :=
  mkInstruction ADD CondFlag.ALWAYS 15 0 15 (-600).

(** ** Auxiliary notions for the CPU *)

(** The values the condition register takes: ALWAYS as [__init__] sets it,
    or one of the four flags that the ALU returns. *)
Definition condition_ok (c : CondFlag) : bool :=
  (c =? CondFlag.ALWAYS) || (c =? CondFlag.M) || (c =? CondFlag.Z) ||
  (c =? CondFlag.P) || (c =? CondFlag.V).

(** [HALT] with the default predicate, and the memory word 0, which is
    [HALT/NEVER r0,r0,r0[0]]. *)
Definition halt : Instruction := mkInstruction HALT CondFlag.ALWAYS 0 0 0 0.
Definition halt_never : Instruction := mkInstruction HALT CondFlag.NEVER 0 0 0 0.

(** [LOAD r1,r0,r15[2]] and [STORE r1,r0,r15[1]], both relative to the
    program counter *)
Definition load_relative : Instruction :=
  mkInstruction LOAD CondFlag.ALWAYS 1 0 15 2.
Definition store_relative : Instruction :=
  mkInstruction STORE CondFlag.ALWAYS 1 0 15 1.
Definition loading_machine : CPU Memory :=
  machine [encode load_relative; 0; 42].
Definition storing_machine : CPU Memory :=
  machine [encode store_relative; 7].
Definition halting_machine : CPU Memory := machine [encode halt].
Definition blank_machine : CPU Memory := machine [0; 0].

(** A memory whose cells all hold 0. *)
Definition blank (m : Memory) : bool := forallb (Z.eqb 0) (cells m).

(** The number of cells of a memory from [addr] on: none when [addr] lies
    outside the memory. *)
Definition cells_from (m : Memory) (addr : Z) : nat :=
  if addr <? 0 then 0%nat
  else Z.to_nat (Z.of_nat (length (cells m)) - addr).

(** ** instr_format.py: names of flags, opcodes and registers *)

(** The members of [CondFlag] with their names, in the order of their
    definition.  This is the order in which [for i in CondFlag] visits them;
    up to Python 3.10 the iteration includes NEVER and ALWAYS, and the tests
    of the repository, which expect [str(CondFlag.ALWAYS)] to be "ALWAYS",
    rely on it. *)
Definition CondFlag_members : list (string * CondFlag) :=
  [("M", CondFlag.M); ("Z", CondFlag.Z); ("P", CondFlag.P); ("V", CondFlag.V);
   ("NEVER", CondFlag.NEVER); ("ALWAYS", CondFlag.ALWAYS)].

(** [CondFlag.__str__].  There is one flag object for each value, so the
    identity tests [i is self] and [masked is i] compare values. *)
Definition CondFlag_str (self : CondFlag) : string :=
  match List.find (fun i => snd i =? self) CondFlag_members with
  | Some i => fst i
  | None =>
      let bits :=
        List.filter
          (fun i =>
             let masked := CondFlag.and self (snd i) in
             CondFlag.truthy masked && (masked =? snd i))
          CondFlag_members in
      String.concat "" (map fst bits)
  end.

(** The names of the opcodes: [member.name]. *)
Definition OpCode_name (op : OpCode) : string :=
  match op with
  | HALT => "HALT"
  | LOAD => "LOAD"
  | STORE => "STORE"
  | ADD => "ADD"
  | SUB => "SUB"
  | MUL => "MUL"
  | DIV => "DIV"
  end.

Definition OpCode_members : list OpCode := [HALT; LOAD; STORE; ADD; SUB; MUL; DIV].

(** [NAMED_REGS] *)
Definition NAMED_REGS : gmap string Z :=
  list_to_map
    [("r0", 0); ("zero", 0);
     ("r1", 1); ("r2", 2); ("r3", 3); ("r4", 4); ("r5", 5); ("r6", 6);
     ("r7", 7); ("r8", 8);
     ("r9", 9); ("r10", 10); ("r11", 11); ("r12", 12); ("r13", 13);
     ("r14", 14);
     ("r15", 15); ("pc", 15)].

(** ** assembler_phase2.py *)

(** The exceptions that the assembler's functions raise and its loop
    catches. *)
Inductive AsmException : Type :=
  | KeyError (key : option string)   (* a missing dict key or member name *)
  | SyntaxError                      (* raised by [parse_line] *)
  | TypeError                        (* [None] where a string is needed *)
  | AttributeError                   (* a method called on [None] *)
  | IntError.                        (* the ValueError of [int(...)] *)

Inductive asm_result (A : Type) : Type :=
  | Good (a : A)
  | Bad (e : AsmException).
Arguments Good {A} a.
Arguments Bad {A} e.

Definition asm_bind {A B : Type} (m : asm_result A) (k : A -> asm_result B)
  : asm_result B :=
  match m with
  | Good a => k a
  | Bad e => Bad e
  end.

Notation "'try*' x := m 'in' k" :=
  (asm_bind m (fun x => k))
  (at level 10, x pattern, m at level 100, k at level 200)
  : result_scope.

(** [CondFlag[name]]: the member of that name, a [KeyError] otherwise. *)
Definition CondFlag_getitem (name : string) : asm_result CondFlag :=
  match List.find (fun i => String.eqb (fst i) name) CondFlag_members with
  | Some i => Good (snd i)
  | None => Bad (KeyError (Some name))
  end.

(** [OpCode[name]] *)
Definition OpCode_getitem (name : string) : asm_result OpCode :=
  match List.find (fun o => String.eqb (OpCode_name o) name) OpCode_members with
  | Some o => Good o
  | None => Bad (KeyError (Some name))
  end.

(** The loop of [to_flag]: each character of [m] names a flag, which is
    or-ed into [composite]. *)
Fixpoint to_flag_loop (m : string) (composite : CondFlag)
  : asm_result CondFlag :=
  match m with
  | EmptyString => Good composite
  | String bitname rest =>
      try* flag := CondFlag_getitem (String bitname EmptyString) in
      to_flag_loop rest (Z.lor composite flag)
  end.

(** [to_flag] *)
Definition to_flag (m : string) : asm_result CondFlag :=
  if existsb (String.eqb m) (map fst CondFlag_members)
  then CondFlag_getitem m
  else to_flag_loop m CondFlag.NEVER.

(** The letters of the four flags, and whether the one-letter name [name]
    occurs in a string. *)
Definition flag_letter (c : Ascii.ascii) : bool :=
  existsb (String.eqb (String c EmptyString)) ["M"; "Z"; "P"; "V"].

Fixpoint occurs (name : string) (m : string) : bool :=
  match m with
  | EmptyString => false
  | String c rest => String.eqb (String c EmptyString) name || occurs name rest
  end.

Fixpoint letters_only (m : string) : bool :=
  match m with
  | EmptyString => true
  | String c rest => flag_letter c && letters_only rest
  end.

(** [AsmSrcKind] of assembler_phase2.py *)
Inductive AsmSrcKind : Type :=
  | COMMENT
  | FULL
  | DATA.

(** The dict that [parse_line] returns: the named groups of the match, each
    a string or [None], and under the key "kind" the kind of the line. *)
Record Fields : Type := mkFields {
  kind : AsmSrcKind;
  groups : gmap string (option string)
}.

(** [d[key]] on such a dict *)
Definition dict_getitem (d : gmap string (option string)) (key : string)
  : asm_result (option string) :=
  match d !! key with
  | Some v => Good v
  | None => Bad (KeyError (Some key))
  end.

(** [NAMED_REGS[name]]; the name may be [None] when it comes from a dict. *)
Definition NAMED_REGS_getitem (name : option string) : asm_result Z :=
  match name with
  | Some n =>
      match NAMED_REGS !! n with
      | Some r => Good r
      | None => Bad (KeyError (Some n))
      end
  | None => Bad (KeyError None)
  end.

Definition ERROR_LIMIT : nat := 5.

Definition INSTR_DEFAULTS : list (string * string) :=
  [("predicate", "ALWAYS"); ("offset", "0")].

(** [fill_defaults]: the dict is changed in place. *)
Definition fill_defaults (fields : gmap string (option string))
  : asm_result (gmap string (option string)) :=
  fold_left
    (fun acc kv =>
       try* fields := acc in
       try* current := dict_getitem fields (fst kv) in
       match current with
       | None => Good (<[fst kv := Some (snd kv)]> fields)
       | Some _ => Good fields
       end)
    INSTR_DEFAULTS (Good fields).

(** What [assemble] hands back: the object code, or nothing when it gave up
    with [sys.exit(1)]. *)
Inductive Assembled : Type :=
  | ObjectCode (instructions : list Z)
  | Abandoned.

Section Assembler.

(** The built-in [int(text, base)]: the number that a literal denotes, or an
    error for a malformed one.  Not code of the repository; a parameter. *)
Variable py_int : string -> Z -> asm_result Z.

(** [parse_line] matches a line against regular expressions with Python's
    [re]; the assembler is modelled over any function that returns the
    fields of a line or raises [SyntaxError]. *)
Variable parse_line : string -> asm_result Fields.

(** [value_parse] *)
Definition value_parse (int_literal : option string) : asm_result Z :=
  match int_literal with
  | None => Bad AttributeError
  | Some literal =>
      if String.prefix "0x" literal
      then py_int literal 16
      else py_int literal 10
  end.

(** [instruction_from_dict].  [OpCode[None]] is a [KeyError];
    [to_flag(None)] and [int(None)] are [TypeError]s. *)
Definition instruction_from_dict (d : gmap string (option string))
  : asm_result Instruction :=
  try* opcode_name := dict_getitem d "opcode" in
  try* opcode :=
    match opcode_name with
    | Some n => OpCode_getitem n
    | None => Bad (KeyError None)
    end in
  try* predicate := dict_getitem d "predicate" in
  try* pred :=
    match predicate with
    | Some m => to_flag m
    | None => Bad TypeError
    end in
  try* target_name := dict_getitem d "target" in
  try* target := NAMED_REGS_getitem target_name in
  try* src1_name := dict_getitem d "src1" in
  try* src1 := NAMED_REGS_getitem src1_name in
  try* src2_name := dict_getitem d "src2" in
  try* src2 := NAMED_REGS_getitem src2_name in
  try* offset_text := dict_getitem d "offset" in
  try* offset :=
    match offset_text with
    | Some text => py_int text 10
    | None => Bad TypeError
    end in
  Good (mkInstruction opcode pred target src1 src2 offset).

(** The body of the [try] in [assemble]: the word that a line adds to the
    object code, if it adds one. *)
Definition assemble_line (line : string) : asm_result (option Z) :=
  try* fields := parse_line line in
  match kind fields with
  | FULL =>
      try* filled := fill_defaults (groups fields) in
      try* instr := instruction_from_dict filled in
      let word := encode instr in
      Good (Some word)
  | DATA =>
      try* literal := dict_getitem (groups fields) "value" in
      try* word := value_parse literal in
      Good (Some word)
  | COMMENT => Good None
  end.

(** The loop of [assemble].  Each of the three [except] clauses counts the
    error and prints a message; the messages are left out. *)
Fixpoint assemble_loop (lines : list string) (error_count : nat)
    (instructions : list Z) : Assembled :=
  match lines with
  | [] => ObjectCode instructions
  | line :: rest =>
      let '(error_count, instructions) :=
        match assemble_line line with
        | Good (Some word) => (error_count, instructions ++ [word])
        | Good None => (error_count, instructions)
        | Bad _ => (S error_count, instructions)
        end in
      if (ERROR_LIMIT <? error_count)%nat then Abandoned
      else assemble_loop rest error_count instructions
  end.

(** [assemble] *)
Definition assemble (lines : list string) : Assembled :=
  assemble_loop lines 0 [].

(** The lines of a source that raise, and the words of those that do not. *)
Definition failing (line : string) : bool :=
  match assemble_line line with
  | Bad _ => true
  | Good _ => false
  end.

Definition words_of (line : string) : list Z :=
  match assemble_line line with
  | Good (Some word) => [word]
  | _ => []
  end.

End Assembler.

(** ** duck_machine.py: the loader *)

Section Loader.

Context {M : Type} `{MemoryBus M}.

(** The built-in [int(line)] on a line of the object file: the number the
    line denotes, or [ValueError].  Not code of the repository; a
    parameter. *)
Variable int_of_line : string -> result Z.

(** The loop of [load]: one word for each line, at consecutive addresses. *)
Fixpoint load_loop (file : list string) (addr : Z) (memory : M) : result M :=
  match file with
  | [] => Ok memory
  | line :: rest =>
      let* word := int_of_line line in
      let* memory := mem_put memory addr word in
      load_loop rest (addr + 1) memory
  end.

(** [load]; the memory object is changed in place. *)
Definition load (file : list string) (memory : M) : result M :=
  load_loop file 0 memory.

(** The numbers of all the lines of an object file, when all are numbers. *)
Fixpoint words_of_file (file : list string) : result (list Z) :=
  match file with
  | [] => Ok []
  | line :: rest =>
      let* word := int_of_line line in
      let* words := words_of_file rest in
      Ok (word :: words)
  end.

End Loader.

(** ** More example machines and sources *)

(** [ADD r15,r0,r15[-2]] as [decode] returns it *)
Definition loop_back_decoded : Instruction :=
  mkInstruction ADD CondFlag.ALWAYS (-1) 0 (-1) (-2).
Definition looping_machine : CPU Memory := machine [encode loop_back].

(** [LOAD r1,r0,r15[2]] and [STORE r1,r0,r15[1]] as [decode] returns them *)
Definition load_relative_decoded : Instruction :=
  mkInstruction LOAD CondFlag.ALWAYS 1 0 (-1) 2.
Definition store_relative_decoded : Instruction :=
  mkInstruction STORE CondFlag.ALWAYS 1 0 (-1) 1.

(** [STORE r15,r0,r15[1]], which stores the program counter, and its
    decoded form *)
Definition store_pc : Instruction :=
  mkInstruction STORE CondFlag.ALWAYS 15 0 15 1.
Definition store_pc_decoded : Instruction :=
  mkInstruction STORE CondFlag.ALWAYS (-1) 0 (-1) 1.
Definition pc_storing_machine : CPU Memory := machine [encode store_pc; 7].

(** The fields of the source line [ADD/P pc,zero,r15[600]]. *)
Definition example_fields : gmap string (option string) :=
  list_to_map
    [("label", None); ("opcode", Some "ADD"); ("predicate", Some "P");
     ("target", Some "pc"); ("src1", Some "zero"); ("src2", Some "r15");
     ("offset", Some "600"); ("comment", None)].

(** An [int] for the examples: it reads the literals that they use. *)
Definition example_int (text : string) (base : Z) : asm_result Z :=
  if String.eqb text "600" then Good 600
  else if String.eqb text "0" then Good 0
  else Bad IntError.

Definition example_int_of_line (line : string) : result Z :=
  if String.eqb line "7" then Ok 7
  else if String.eqb line "0" then Ok 0
  else Raise ValueError.

(** ** assembler_phase1.py *)

(** [str(n)] and the text that an f-string gives for a field, which may be
    [None]. *)
Definition str_int (n : Z) : string :=
  DecimalString.NilZero.string_of_int (Z.to_int n).

Definition fmt (v : option string) : string :=
  match v with
  | Some text => text
  | None => "None"
  end.

Module Phase1.

(** [AsmSrcKind] of assembler_phase1.py *)
Inductive AsmSrcKind : Type :=
  | COMMENT
  | FULL
  | DATA
  | MEMOP
  | JUMP.

Record Fields : Type := mkFields {
  kind : AsmSrcKind;
  groups : gmap string (option string)
}.

(** [fields["kind"] != AsmSrcKind.COMMENT] *)
Definition not_comment (k : AsmSrcKind) : bool :=
  match k with
  | COMMENT => false
  | _ => true
  end.

(** [fix_optional_fields]: the dict is changed in place. *)
Definition fix_optional_fields (fields : gmap string (option string))
  : asm_result (gmap string (option string)) :=
  try* label := dict_getitem fields "label" in
  let fields :=
    match label with
    | None => <["label" := Some "    "]> fields
    | Some text => <["label" := Some (text +:+ ":")]> fields
    end in
  try* predicate := dict_getitem fields "predicate" in
  let fields :=
    match predicate with
    | None => <["predicate" := Some "    "]> fields
    | Some text => <["predicate" := Some ("/" +:+ text)]> fields
    end in
  try* comment := dict_getitem fields "comment" in
  let fields :=
    match comment with
    | None => <["comment" := Some "    "]> fields
    | Some text => <["comment" := Some text]> fields
    end in
  Good fields.

(** The three f-strings that make the resolved line. *)
Definition resolved_text (f : gmap string (option string))
    (pc_relative : Z) (ref : string) : asm_result string :=
  try* label := dict_getitem f "label" in
  try* opcode := dict_getitem f "opcode" in
  try* predicate := dict_getitem f "predicate" in
  try* target := dict_getitem f "target" in
  try* comment := dict_getitem f "comment" in
  Good ((fmt label +:+ "   " +:+ fmt opcode +:+ fmt predicate +:+ " ") +:+
        (" " +:+ fmt target +:+ ",r0,r15[" +:+ str_int pc_relative +:+ "] #" +:+
         ref +:+ " ") +:+
        (" " +:+ fmt comment)).

(** What [transform] hands back: the lines, or nothing when it gave up with
    [sys.exit(1)]. *)
Inductive Transformed : Type :=
  | Lines (transformed : list string)
  | Abandoned.

Section Phase1.

Variable py_int : string -> Z -> asm_result Z.

(** [parse_line] of this phase, with its five patterns; a parameter as in
    phase 2. *)
Variable parse_line : string -> asm_result Fields.

(** The built-in [str.rstrip()]; a parameter. *)
Variable rstrip : string -> string.

(** The body of the [try] in [resolve]: the table and the address after a
    line. *)
Definition resolve_line (line : string) (labels : gmap string Z) (address : Z)
  : asm_result (gmap string Z * Z) :=
  try* fields := parse_line line in
  try* label := dict_getitem (groups fields) "label" in
  let labels :=
    match label with
    | Some name =>
        if String.eqb name "" then labels else <[name := address]> labels
    | None => labels
    end in
  let address := if not_comment (kind fields) then address + 1 else address in
  Good (labels, address).

(** The loop of [resolve]; an exception in the body is ignored. *)
Fixpoint resolve_loop (lines : list string) (labels : gmap string Z)
    (address : Z) : gmap string Z :=
  match lines with
  | [] => labels
  | l :: rest =>
      let line := rstrip l in
      match resolve_line line labels address with
      | Good (labels, address) => resolve_loop rest labels address
      | Bad _ => resolve_loop rest labels address
      end
  end.

(** [resolve] *)
Definition resolve (lines : list string) : gmap string Z :=
  resolve_loop lines ∅ 0.

(** The branch of [transform] for a MEMOP or a JUMP line. *)
Definition resolve_reference (labels : gmap string Z) (address : Z)
    (fields : Fields) : asm_result string :=
  try* ref := dict_getitem (groups fields) "labelref" in
  try* mem_addr :=
    match ref with
    | Some name =>
        match labels !! name with
        | Some a => Good a
        | None => Bad (KeyError (Some name))
        end
    | None => Bad (KeyError None)
    end in
  let pc_relative := mem_addr - address in
  try* f := fix_optional_fields (groups fields) in
  resolved_text f pc_relative (fmt ref).

(** The body of the [try] in [transform]: the line to emit and the address
    after it. *)
Definition transform_line (labels : gmap string Z) (address : Z)
    (line : string) : asm_result (string * Z) :=
  try* fields := parse_line line in
  try* emitted :=
    match kind fields with
    | FULL => Good line
    | DATA =>
        try* literal := dict_getitem (groups fields) "value" in
        try* _ := value_parse py_int literal in
        Good line
    | MEMOP => resolve_reference labels address fields
    | JUMP => resolve_reference labels address fields
    | COMMENT => Good line
    end in
  let address := if not_comment (kind fields) then address + 1 else address in
  Good (emitted, address).

(** The loop of [transform]; the messages of the [except] clauses are left
    out. *)
Fixpoint transform_loop (labels : gmap string Z) (lines : list string)
    (error_count : nat) (address : Z) (transformed : list string)
  : Transformed :=
  match lines with
  | [] => Lines transformed
  | l :: rest =>
      let line := rstrip l in
      let '(error_count, address, transformed) :=
        match transform_line labels address line with
        | Good (emitted, address) =>
            (error_count, address, transformed ++ [emitted])
        | Bad _ => (S error_count, address, transformed)
        end in
      if (ERROR_LIMIT <? error_count)%nat then Abandoned
      else transform_loop labels rest error_count address transformed
  end.

(** [transform] *)
Definition transform (lines : list string) : Transformed :=
  transform_loop (resolve lines) lines 0 0 [].

(** A line that takes a memory cell as [resolve] counts them: it parses,
    its fields have a label entry, and it is no comment. *)
Definition takes_cell (l : string) : bool :=
  match parse_line (rstrip l) with
  | Good fields =>
      match dict_getitem (groups fields) "label" with
      | Good _ => not_comment (kind fields)
      | Bad _ => false
      end
  | Bad _ => false
  end.

(** A line that defines the label [name]. *)
Definition defines (name : string) (l : string) : bool :=
  match parse_line (rstrip l) with
  | Good fields =>
      match dict_getitem (groups fields) "label" with
      | Good (Some n) => String.eqb n name && negb (String.eqb n "")
      | _ => false
      end
  | Bad _ => false
  end.

End Phase1.

End Phase1.

Section Phase1Notions.

Variable py_int : string -> Z -> asm_result Z.
Variable parse_line : string -> asm_result Phase1.Fields.
Variable rstrip : string -> string.

(** A line that [transform] counts as taking a memory cell: it parses and
    is no comment. *)
Definition is_instruction (l : string) : bool :=
  match parse_line (rstrip l) with
  | Good fields => Phase1.not_comment (Phase1.kind fields)
  | Bad _ => false
  end.

(** A line on which the body of [transform]'s loop raises. *)
Definition transform_fails (labels : gmap string Z) (l : string) : bool :=
  match Phase1.transform_line py_int parse_line labels 0 (rstrip l) with
  | Good _ => false
  | Bad _ => true
  end.

(** The number of lines among [lines] that satisfy [p], as an address. *)
Definition count_lines (p : string -> bool) (lines : list string) : Z :=
  Z.of_nat (length (List.filter p lines)).

End Phase1Notions.

(** A [parse_line] of phase 1 for the examples: the fields of the three
    lines of the source
<<
    again: STORE r1,x
    HALT r0,r0,r0
    x: DATA 0
>>
    as the patterns capture them, and a [SyntaxError] for any other line. *)
Definition example_parse_line (line : string) : asm_result Phase1.Fields :=
  if String.eqb line "again: STORE r1,x" then
    Good (Phase1.mkFields Phase1.MEMOP
            (list_to_map
               [("label", Some "again"); ("opcode", Some "STORE");
                ("predicate", None); ("target", Some "r1");
                ("labelref", Some "x"); ("comment", None)]))
  else if String.eqb line "HALT r0,r0,r0" then
    Good (Phase1.mkFields Phase1.FULL
            (list_to_map
               [("label", None); ("opcode", Some "HALT"); ("predicate", None);
                ("target", Some "r0"); ("src1", Some "r0"); ("src2", Some "r0");
                ("offset", None); ("comment", None)]))
  else if String.eqb line "x: DATA 0" then
    Good (Phase1.mkFields Phase1.DATA
            (list_to_map
               [("label", Some "x"); ("opcode", Some "DATA");
                ("value", Some "0"); ("comment", None)]))
  else Bad SyntaxError.

(** An [rstrip] for the examples, whose lines end in no white space. *)
Definition example_rstrip (line : string) : string := line.

Definition example_source : list string :=
  ["again: STORE r1,x"; "HALT r0,r0,r0"; "x: DATA 0"].

(** The codec is reasoned about through its lemmas, never by unfolding the
    shifts on a symbolic word. *)
Arguments BitField.extract : simpl never.
Arguments BitField.extract_signed : simpl never.
Arguments BitField.insert : simpl never.
Arguments encode : simpl never.
Arguments decode : simpl never.
Arguments decode_unsigned : simpl never.

(** * Properties *)

(** ** Bit-field algebra *)

Section BitFieldFacts.

Import BitField.

Lemma width_pos (f : t) : valid f -> 0 < width f.
Proof. unfold valid, width. lia. Qed.

Lemma extract_testbit (f : t) (w i : Z) :
  valid f -> 0 <= i ->
  Z.testbit (extract f w) i = Z.testbit w (i + from_bit f) && (i <? width f).
Proof.
  intros Hf Hi. pose proof (width_pos f Hf).
  unfold extract, mask.
  rewrite Z.land_spec, Z.shiftr_spec, Z.testbit_ones_nonneg by lia.
  reflexivity.
Qed.

Lemma insert_testbit (f : t) (v w i : Z) :
  valid f -> 0 <= i ->
  Z.testbit (insert f v w) i =
    if (from_bit f <=? i) && (i <=? to_bit f)
    then Z.testbit v (i - from_bit f)
    else Z.testbit w i.
Proof.
  intros Hf Hi. pose proof (width_pos f Hf) as Hw.
  unfold valid, width in *.
  unfold insert, mask, width.
  rewrite Z.lor_spec, !Z.land_spec, Z.lnot_spec, !Z.shiftl_spec by lia.
  rewrite Z.land_spec.
  destruct (Z.leb_spec (from_bit f) i); simpl.
  - rewrite !Z.testbit_ones_nonneg by lia.
    destruct (Z.leb_spec i (to_bit f)).
    + replace (i - from_bit f <? to_bit f - from_bit f + 1) with true
        by (symmetry; apply Z.ltb_lt; lia).
      simpl. rewrite andb_false_r, andb_true_r. reflexivity.
    + replace (i - from_bit f <? to_bit f - from_bit f + 1) with false
        by (symmetry; apply Z.ltb_ge; lia).
      simpl. rewrite andb_true_r, andb_false_r, orb_false_r. reflexivity.
  - rewrite !(Z.testbit_neg_r _ (i - from_bit f)) by lia.
    simpl. rewrite andb_true_r, orb_false_r. reflexivity.
Qed.

(** Insert then extract on the same field gives the masked value. *)
Lemma extract_insert_same (f : t) (v w : Z) :
  valid f -> extract f (insert f v w) = Z.land v (mask f).
Proof.
  intros Hf. pose proof (width_pos f Hf) as Hw.
  apply Z.bits_inj'; intros i Hi.
  rewrite extract_testbit, insert_testbit by (assumption || unfold valid in *; lia).
  unfold mask. rewrite Z.land_spec, Z.testbit_ones_nonneg by lia.
  unfold valid, width in *.
  destruct (Z.ltb_spec i (to_bit f - from_bit f + 1)).
  - replace ((from_bit f <=? i + from_bit f) && (i + from_bit f <=? to_bit f))
      with true by (symmetry; apply andb_true_iff; split; apply Z.leb_le; lia).
    rewrite !andb_true_r. f_equal. lia.
  - rewrite !andb_false_r. reflexivity.
Qed.

(** A field does not bleed into the bits of a disjoint one. *)
Lemma extract_insert_other (f g : t) (v w : Z) :
  valid f -> valid g -> disjoint f g ->
  extract f (insert g v w) = extract f w.
Proof.
  intros Hf Hg Hd. pose proof (width_pos f Hf) as Hw.
  apply Z.bits_inj'; intros i Hi.
  rewrite !extract_testbit by assumption.
  unfold valid, disjoint, width in *.
  destruct (Z.ltb_spec i (to_bit f - from_bit f + 1)).
  - rewrite insert_testbit by (unfold valid; lia).
    replace ((from_bit g <=? i + from_bit f) && (i + from_bit f <=? to_bit g))
      with false; [reflexivity|].
    symmetry. apply andb_false_iff.
    rewrite !Z.leb_gt. lia.
  - rewrite !andb_false_r. reflexivity.
Qed.

Lemma extract_bounds (f : t) (w : Z) :
  valid f -> 0 <= extract f w < 2 ^ width f.
Proof.
  intros Hf. pose proof (width_pos f Hf).
  unfold extract, mask. rewrite Z.land_ones by lia.
  apply Z.mod_pos_bound. apply Z.pow_pos_nonneg; lia.
Qed.

Lemma mask_small (f : t) (v : Z) :
  valid f -> 0 <= v < 2 ^ width f -> Z.land v (mask f) = v.
Proof.
  intros Hf Hv. pose proof (width_pos f Hf).
  unfold mask. rewrite Z.land_ones by lia. apply Z.mod_small. assumption.
Qed.

(** The top bit of a value that fits the field is set exactly from half
    of the field's range on. *)
Lemma top_bit (n u : Z) :
  0 < n -> 0 <= u < 2 ^ n -> Z.testbit u (n - 1) = (2 ^ (n - 1) <=? u).
Proof.
  intros Hn Hu.
  assert (Hp : 2 ^ n = 2 * 2 ^ (n - 1)).
  { replace n with (Z.succ (n - 1)) at 1 by lia. apply Z.pow_succ_r. lia. }
  assert (0 < 2 ^ (n - 1)) by (apply Z.pow_pos_nonneg; lia).
  destruct (Z.leb_spec (2 ^ (n - 1)) u).
  - apply Z.testbit_true; [lia|].
    assert (Hq : u / 2 ^ (n - 1) = 1)
      by (symmetry; apply Z.div_unique with (r := u - 2 ^ (n - 1)); lia).
    rewrite Hq. reflexivity.
  - apply Z.testbit_false; [lia|].
    rewrite Z.div_small by lia. reflexivity.
Qed.

Lemma extract_signed_eq (f : t) (w : Z) :
  valid f ->
  extract_signed f w =
    if 2 ^ (width f - 1) <=? extract f w
    then extract f w - 2 ^ width f
    else extract f w.
Proof.
  intros Hf. unfold extract_signed.
  rewrite top_bit; [reflexivity | apply width_pos; assumption |].
  apply extract_bounds. assumption.
Qed.

End BitFieldFacts.

(** ** The instruction codec *)

Section Codec.

Import BitField.

Lemma fields_valid :
  valid instr_field /\ valid cond_field /\ valid reg_target_field /\
  valid reg_src1_field /\ valid reg_src2_field /\ valid offset_field.
Proof. unfold valid; simpl; lia. Qed.

Lemma opcode_of_value (o : OpCode) : OpCode.of_int (OpCode.value o) = Ok o.
Proof. destruct o; reflexivity. Qed.

Lemma opcode_of_int_cases (v : Z) :
  (exists o, OpCode.of_int v = Ok o /\ OpCode.value o = v) \/
  OpCode.of_int v = Raise ValueError.
Proof.
  destruct v as [|p|p]; [left; exists HALT; split; reflexivity | | right; reflexivity].
  destruct p as [[[?|?|]|[?|?|]|]|[[?|?|]|[?|?|]|]|]; simpl;
    solve [right; reflexivity | left; eexists; split; reflexivity].
Qed.

Lemma opcode_of_int_Ok (v : Z) (o : OpCode) :
  OpCode.of_int v = Ok o -> OpCode.value o = v.
Proof.
  intros Ho. destruct (opcode_of_int_cases v) as [(o' & Ho' & Hv)|Hr].
  - congruence.
  - congruence.
Qed.

Lemma opcode_illegal (v : Z) :
  ~ OpCode.legal v -> OpCode.of_int v = Raise ValueError.
Proof.
  intros Hv. destruct (opcode_of_int_cases v) as [(o & _ & Ho)|Hr].
  - exfalso. apply Hv. exists o. assumption.
  - assumption.
Qed.

(** The 5-bit opcode field: the signed reading names the same member as
    the unsigned one, or neither names any. *)
Lemma opcode_signed_unsigned (w : Z) :
  OpCode.of_int (extract_signed instr_field w) =
  OpCode.of_int (extract instr_field w).
Proof.
  destruct fields_valid as (Hv & _).
  rewrite extract_signed_eq by assumption.
  pose proof (extract_bounds instr_field w Hv) as Hb.
  change (width instr_field) with 5 in *.
  change (2 ^ (5 - 1)) with 16. change (2 ^ 5) with 32 in *.
  destruct (Z.leb_spec 16 (extract instr_field w)); [|reflexivity].
  rewrite (opcode_illegal (extract instr_field w)).
  - apply opcode_illegal. intros [o Ho]. destruct o; simpl in Ho; lia.
  - intros [o Ho]. destruct o; simpl in Ho; lia.
Qed.

(** The 4-bit condition field: [CondFlag(...)] undoes the sign extension. *)
Lemma cond_signed_unsigned (w : Z) :
  CondFlag.of_int (extract_signed cond_field w) = Ok (extract cond_field w).
Proof.
  destruct fields_valid as (_ & Hv & _).
  rewrite extract_signed_eq by assumption.
  pose proof (extract_bounds cond_field w Hv) as Hb.
  change (width cond_field) with 4 in *.
  change (2 ^ (4 - 1)) with 8. change (2 ^ 4) with 16 in *.
  unfold CondFlag.of_int.
  destruct (Z.leb_spec 8 (extract cond_field w)).
  - replace ((-16 <=? extract cond_field w - 16) && (extract cond_field w - 16 <=? 15))
      with true by (symmetry; apply andb_true_iff; split; apply Z.leb_le; lia).
    f_equal. symmetry. apply Z.mod_unique with (q := -1); lia.
  - replace ((-16 <=? extract cond_field w) && (extract cond_field w <=? 15))
      with true by (symmetry; apply andb_true_iff; split; apply Z.leb_le; lia).
    f_equal. apply Z.mod_small. lia.
Qed.

Lemma cond_unsigned (w : Z) :
  CondFlag.of_int (extract cond_field w) = Ok (extract cond_field w).
Proof.
  destruct fields_valid as (_ & Hv & _).
  pose proof (extract_bounds cond_field w Hv) as Hb.
  change (2 ^ width cond_field) with 16 in Hb.
  unfold CondFlag.of_int.
  replace ((-16 <=? extract cond_field w) && (extract cond_field w <=? 15))
    with true by (symmetry; apply andb_true_iff; split; apply Z.leb_le; lia).
  f_equal. apply Z.mod_small. lia.
Qed.

Lemma register_signed (f : t) (w : Z) :
  valid f -> width f = 4 -> extract_signed f w = signed4 (extract f w).
Proof.
  intros Hv Hw. rewrite extract_signed_eq by assumption.
  rewrite Hw. reflexivity.
Qed.

(** What [decode] returns, in terms of the unsigned content of the fields. *)
Lemma decode_eq (w : Z) :
  decode w =
    let* op := OpCode.of_int (extract instr_field w) in
    Ok (mkInstruction op (extract cond_field w)
          (signed4 (extract reg_target_field w))
          (signed4 (extract reg_src1_field w))
          (signed4 (extract reg_src2_field w))
          (extract_signed offset_field w)).
Proof.
  destruct fields_valid as (_ & _ & Ht & H1 & H2 & _).
  unfold decode.
  rewrite opcode_signed_unsigned, cond_signed_unsigned.
  rewrite !register_signed by (assumption || reflexivity).
  reflexivity.
Qed.

Lemma decode_unsigned_eq (w : Z) :
  decode_unsigned w =
    let* op := OpCode.of_int (extract instr_field w) in
    Ok (mkInstruction op (extract cond_field w)
          (extract reg_target_field w)
          (extract reg_src1_field w)
          (extract reg_src2_field w)
          (extract_signed offset_field w)).
Proof. unfold decode_unsigned. rewrite cond_unsigned. reflexivity. Qed.

Lemma fields_disjoint :
  disjoint instr_field cond_field /\ disjoint instr_field reg_target_field /\
  disjoint instr_field reg_src1_field /\ disjoint instr_field reg_src2_field /\
  disjoint instr_field offset_field /\
  disjoint cond_field reg_target_field /\ disjoint cond_field reg_src1_field /\
  disjoint cond_field reg_src2_field /\ disjoint cond_field offset_field /\
  disjoint reg_target_field reg_src1_field /\
  disjoint reg_target_field reg_src2_field /\
  disjoint reg_target_field offset_field /\
  disjoint reg_src1_field reg_src2_field /\ disjoint reg_src1_field offset_field /\
  disjoint reg_src2_field offset_field.
Proof. unfold disjoint; simpl; lia. Qed.

Lemma disjoint_sym (f g : t) : disjoint f g -> disjoint g f.
Proof. unfold disjoint. tauto. Qed.

Create HintDb fields discriminated.
Hint Resolve disjoint_sym : fields.

(** The unsigned content of each field of an encoded instruction. *)
Lemma extract_encode (i : Instruction) :
  extract instr_field (encode i) = Z.land (OpCode.value (op i)) (mask instr_field) /\
  extract cond_field (encode i) = Z.land (cond i) (mask cond_field) /\
  extract reg_target_field (encode i) = Z.land (reg_target i) (mask reg_target_field) /\
  extract reg_src1_field (encode i) = Z.land (reg_src1 i) (mask reg_src1_field) /\
  extract reg_src2_field (encode i) = Z.land (reg_src2 i) (mask reg_src2_field) /\
  extract offset_field (encode i) = Z.land (offset i) (mask offset_field).
Proof.
  destruct fields_valid as (Vi & Vc & Vt & V1 & V2 & Vo).
  destruct fields_disjoint as
    (D1 & D2 & D3 & D4 & D5 & D6 & D7 & D8 & D9 & D10 & D11 & D12 & D13 & D14 & D15).
  unfold encode, CondFlag.value.
  repeat split;
    repeat first
      [ rewrite extract_insert_same by assumption
      | rewrite extract_insert_other by auto with fields ];
    reflexivity.
Qed.

Lemma offset_signed (v : Z) :
  -512 <= v <= 511 ->
  (if 512 <=? v mod 1024 then v mod 1024 - 1024 else v mod 1024) = v.
Proof.
  intros Hv. destruct (Z.neg_nonneg_cases v) as [Hn|Hn].
  - assert (Hm : v mod 1024 = v + 1024)
      by (symmetry; apply Z.mod_unique with (q := -1); lia).
    rewrite Hm. destruct (Z.leb_spec 512 (v + 1024)); lia.
  - rewrite Z.mod_small by lia. destruct (Z.leb_spec 512 v); lia.
Qed.

(** Decoding an encoded instruction with legal fields gives back its
    opcode, predicate and offset; each register number comes back read as
    a signed 4-bit value. *)
Lemma decode_encode (i : Instruction) :
  legal_instruction i ->
  decode (encode i) =
    Ok (mkInstruction (op i) (cond i)
          (signed4 (reg_target i)) (signed4 (reg_src1 i))
          (signed4 (reg_src2 i)) (offset i)).
Proof.
  intros (Hc & Ht & H1 & H2 & Ho). unfold CondFlag.legal in Hc.
  destruct fields_valid as (Vi & Vc & Vt & V1 & V2 & Vo).
  destruct (extract_encode i) as (Ei & Ec & Et & E1 & E2 & Eo).
  rewrite decode_eq, extract_signed_eq by assumption.
  rewrite Ei, Ec, Et, E1, E2, Eo.
  rewrite (mask_small instr_field)
    by (assumption || (change (2 ^ width instr_field) with 32; destruct (op i); simpl; lia)).
  rewrite (mask_small cond_field)
    by (assumption || (change (2 ^ width cond_field) with 16; lia)).
  rewrite (mask_small reg_target_field)
    by (assumption || (change (2 ^ width reg_target_field) with 16; lia)).
  rewrite (mask_small reg_src1_field)
    by (assumption || (change (2 ^ width reg_src1_field) with 16; lia)).
  rewrite (mask_small reg_src2_field)
    by (assumption || (change (2 ^ width reg_src2_field) with 16; lia)).
  rewrite opcode_of_value. unfold bind.
  unfold mask. change (width offset_field) with 10.
  rewrite Z.land_ones by lia.
  change (2 ^ (10 - 1)) with 512. change (2 ^ 10) with 1024.
  rewrite offset_signed by assumption.
  reflexivity.
Qed.

(** A register number below 8 is its own signed reading, so such an
    instruction does come back field for field. *)
Lemma decode_encode_low_registers (i : Instruction) :
  legal_instruction i ->
  reg_target i <= 7 -> reg_src1 i <= 7 -> reg_src2 i <= 7 ->
  decode (encode i) = Ok i.
Proof.
  intros Hl Ht H1 H2. rewrite decode_encode by assumption.
  destruct Hl as (_ & Lt & L1 & L2 & _).
  unfold signed4.
  destruct (Z.leb_spec 8 (reg_target i)); [lia|].
  destruct (Z.leb_spec 8 (reg_src1 i)); [lia|].
  destruct (Z.leb_spec 8 (reg_src2 i)); [lia|].
  destruct i; reflexivity.
Qed.

(** Every register number that [decode] returns lies in -8..7: it is the
    signed reading of the field. *)
Lemma decode_registers (w : Z) (i : Instruction) :
  decode w = Ok i ->
  reg_target i = signed4 (extract reg_target_field w) /\
  reg_src1 i = signed4 (extract reg_src1_field w) /\
  reg_src2 i = signed4 (extract reg_src2_field w) /\
  cond i = extract cond_field w /\
  OpCode.value (op i) = extract instr_field w.
Proof.
  rewrite decode_eq. intros Hd.
  destruct (OpCode.of_int (extract instr_field w)) as [o|e] eqn:Eo;
    simpl in Hd; [|discriminate].
  injection Hd as <-. simpl.
  repeat split. apply opcode_of_int_Ok. assumption.
Qed.

(** C9: a word whose opcode field holds a number that names no [OpCode]
    (4, the reserved gap, or anything from 8 to 31), or whose condition
    field holds a number that is no [CondFlag], fails to decode with
    [InvalidEncoding]; no [Instruction] is returned. *)
Theorem decode_illegal_field (w : Z) :
  ~ OpCode.legal (extract instr_field w) \/
  ~ CondFlag.legal (extract cond_field w) ->
  decode w = Raise InvalidEncoding.
Proof.
  intros [Ho | Hc].
  - rewrite decode_eq, (opcode_illegal _ Ho). reflexivity.
  - exfalso. apply Hc.
    destruct fields_valid as (_ & Vc & _).
    pose proof (extract_bounds cond_field w Vc) as Hb.
    change (2 ^ width cond_field) with 16 in Hb.
    unfold CondFlag.legal. lia.
Qed.

(** Every number a 4-bit field can hold is a [CondFlag], so a decode fails
    exactly when the opcode field names no member. *)
Lemma decode_Ok_iff (w : Z) :
  (exists i, decode w = Ok i) <-> OpCode.legal (extract instr_field w).
Proof.
  rewrite decode_eq. split.
  - intros [i Hi].
    destruct (OpCode.of_int (extract instr_field w)) as [o|e] eqn:Eo;
      [|discriminate].
    exists o. apply opcode_of_int_Ok. assumption.
  - intros [o Ho]. rewrite <- Ho, opcode_of_value. cbn [bind]. eauto.
Qed.

(** C1: at [ADD r15,r0,r15[-2]], whose fields are all within their legal
    ranges, decoding the encoding does not give the instruction back: the
    register numbers 15 return as -1. *)
Theorem decode_encode_loop_back :
  legal_instruction loop_back /\
  decode (encode loop_back) =
    Ok (mkInstruction ADD CondFlag.ALWAYS (-1) 0 (-1) (-2)) /\
  decode (encode loop_back) <> Ok loop_back.
Proof.
  split; [|split].
  - unfold legal_instruction, CondFlag.legal, loop_back. change CondFlag.ALWAYS with 15. cbn. lia.
  - vm_compute. reflexivity.
  - vm_compute. discriminate.
Qed.

(** C6: at the word 132129792, which is [LOAD r8,r0,r9[0]], [decode] returns
    the target register -8 and the second source register -7: the register
    fields are read signed, and the numbers lie outside 0..15. *)
Theorem decode_reads_registers_signed :
  encode load_r8 = 132129792 /\
  extract reg_target_field 132129792 = 8 /\
  extract reg_src2_field 132129792 = 9 /\
  decode 132129792 = Ok (mkInstruction LOAD CondFlag.ALWAYS (-8) 0 (-7) 0).
Proof. repeat split; vm_compute; reflexivity. Qed.

End Codec.

(** ** The ALU *)

Section ALUFacts.

Lemma exec_sign_flag (op : OpCode) (in1 in2 r : Z) :
  ALU.ALU_OPS op in1 in2 = Ok r -> ALU.exec op in1 in2 = (r, sign_flag r).
Proof.
  intros Hr. unfold ALU.exec, sign_flag. rewrite Hr.
  destruct (Z.eqb_spec r 0) as [->|Hz]; [reflexivity|].
  destruct (Z.ltb_spec r 0); reflexivity.
Qed.

Lemma exec_div_zero (n : Z) : ALU.exec DIV n 0 = (0, CondFlag.V).
Proof. reflexivity. Qed.

Lemma exec_div (a b : Z) :
  b <> 0 -> ALU.exec DIV a b = (a / b, sign_flag (a / b)).
Proof.
  intros Hb. apply exec_sign_flag. simpl.
  destruct (Z.eqb_spec b 0); [contradiction | reflexivity].
Qed.

Lemma div_is_floor (a b : Z) : b <> 0 -> floor_of a b (a / b).
Proof.
  intros Hb. unfold floor_of. split; intros Hs.
  - pose proof (Z.div_mod a b Hb) as Hd.
    pose proof (Z.mod_pos_bound a b Hs). lia.
  - pose proof (Z.div_mod a b Hb) as Hd.
    pose proof (Z.mod_neg_bound a b Hs). lia.
Qed.

(** The floor of a quotient is unique, so [floor_of] pins the result. *)
Lemma floor_of_unique (a b q q' : Z) :
  b <> 0 -> floor_of a b q -> floor_of a b q' -> q = q'.
Proof.
  unfold floor_of. intros Hb [Hp Hn] [Hp' Hn'].
  destruct (Z.lt_trichotomy b 0) as [Hlt|[Heq|Hgt]]; [|contradiction|].
  - specialize (Hn Hlt). specialize (Hn' Hlt). nia.
  - specialize (Hp Hgt). specialize (Hp' Hgt). nia.
Qed.

(** C5: DIV is floor division: for a divisor other than zero the ALU
    returns the floor of the quotient, rounded toward negative infinity,
    with the flag of its sign; so 12 by -3 is -4 with M, and -7 by 2 is -4,
    where truncation toward zero would give -3. *)
Theorem div_is_floor_division :
  (forall a b : Z,
     b <> 0 ->
     exists q, ALU.exec DIV a b = (q, sign_flag q) /\ floor_of a b q) /\
  ALU.exec DIV 12 (-3) = (-4, CondFlag.M) /\
  ALU.exec DIV (-7) 2 = (-4, CondFlag.M) /\
  Z.quot (-7) 2 = -3.
Proof.
  split; [|repeat split].
  intros a b Hb. exists (a / b). split.
  - apply exec_div. assumption.
  - apply div_is_floor. assumption.
Qed.

End ALUFacts.

(** ** Registers and Python subscripts *)

Section RegisterFacts.

Lemma put_zero_register (values : list Z) (v : Z) :
  fold_left Register.put values (MkZeroRegister v) = MkZeroRegister v.
Proof. induction values as [|x xs IH]; simpl; [reflexivity | exact IH]. Qed.

Lemma subscript_Ok (n : nat) (i : Z) (k : nat) :
  subscript n i = Ok k ->
  (k < n)%nat /\ (Z.of_nat k = i \/ Z.of_nat k = i + Z.of_nat n).
Proof.
  unfold subscript.
  destruct (Z.ltb_spec i 0);
    match goal with
    | |- context [(0 <=? ?j) && (?j <? ?m)] =>
        destruct (Z.leb_spec 0 j); destruct (Z.ltb_spec j m); simpl
    end; try discriminate; intros [= <-]; lia.
Qed.

Lemma subscript_nonneg (n : nat) (i : Z) :
  0 <= i < Z.of_nat n -> subscript n i = Ok (Z.to_nat i).
Proof.
  intros Hi. unfold subscript.
  destruct (Z.ltb_spec i 0); [lia|].
  destruct (Z.leb_spec 0 i); [|lia].
  destruct (Z.ltb_spec i (Z.of_nat n)); [|lia].
  reflexivity.
Qed.

Lemma subscript_neg (n : nat) (i : Z) :
  - Z.of_nat n <= i < 0 -> subscript n i = Ok (Z.to_nat (i + Z.of_nat n)).
Proof.
  intros Hi. unfold subscript.
  destruct (Z.ltb_spec i 0); [|lia].
  destruct (Z.leb_spec 0 (i + Z.of_nat n)); [|lia].
  destruct (Z.ltb_spec (i + Z.of_nat n) (Z.of_nat n)); [|lia].
  reflexivity.
Qed.

(** On sixteen registers the signed reading of a register number selects
    the register that the number itself selects. *)
Lemma subscript_signed4 (r : Z) :
  0 <= r <= 15 -> subscript 16 (signed4 r) = Ok (Z.to_nat r).
Proof.
  intros Hr. unfold signed4. destruct (Z.leb_spec 8 r).
  - rewrite subscript_neg by (simpl; lia). f_equal. simpl. lia.
  - apply subscript_nonneg. simpl. lia.
Qed.

Lemma subscript_unsigned4 (r : Z) :
  0 <= r <= 15 -> subscript 16 r = Ok (Z.to_nat r).
Proof. intros Hr. apply subscript_nonneg. simpl. lia. Qed.

Lemma reg_get_subscript (l : list Register) (i j : Z) :
  subscript (length l) i = subscript (length l) j ->
  reg_get l i = reg_get l j.
Proof. intros E. unfold reg_get, getitem. rewrite E. reflexivity. Qed.

Lemma reg_put_subscript (l : list Register) (i j v : Z) :
  subscript (length l) i = subscript (length l) j ->
  reg_put l i v = reg_put l j v.
Proof. intros E. unfold reg_put. rewrite E. reflexivity. Qed.

Lemma reg_get_at (l : list Register) (i : Z) (k : nat) (r : Register) :
  subscript (length l) i = Ok k -> l !! k = Some r ->
  reg_get l i = Ok (Register.get r).
Proof.
  intros Hk Hr. unfold reg_get, getitem. rewrite Hk. simpl. rewrite Hr.
  reflexivity.
Qed.

Lemma reg_put_at (l : list Register) (i v : Z) (k : nat) (r : Register) :
  subscript (length l) i = Ok k -> l !! k = Some r ->
  reg_put l i v = Ok (<[k := Register.put r v]> l).
Proof.
  intros Hk Hr. unfold reg_put. rewrite Hk. simpl. rewrite Hr. reflexivity.
Qed.

Lemma reg_put_Ok (l l' : list Register) (i v : Z) :
  reg_put l i v = Ok l' ->
  exists k r, subscript (length l) i = Ok k /\ l !! k = Some r /\
              l' = <[k := Register.put r v]> l.
Proof.
  unfold reg_put. intros Hp.
  destruct (subscript (length l) i) as [k|e] eqn:Ek; simpl in Hp; [|discriminate].
  destruct (l !! k) as [r|] eqn:Er; [|discriminate].
  injection Hp as <-. eauto.
Qed.

Lemma reg_put_length (l l' : list Register) (i v : Z) :
  reg_put l i v = Ok l' -> length l' = length l.
Proof.
  intros Hp. apply reg_put_Ok in Hp as (k & r & _ & _ & ->).
  apply length_insert.
Qed.

(** *** The shape of the register file *)

Lemma forallb_insert {A : Type} (f : A -> bool) (l : list A) (k : nat) (x : A) :
  forallb f l = true -> f x = true -> forallb f (<[k := x]> l) = true.
Proof.
  revert k. induction l as [|y ys IH]; intros k Hl Hx; [exact Hl|].
  simpl in Hl. apply andb_true_iff in Hl as [Hy Hys].
  destruct k as [|k]; simpl.
  - rewrite Hx. exact Hys.
  - rewrite Hy. apply IH; assumption.
Qed.

Lemma forallb_lookup {A : Type} (f : A -> bool) (l : list A) (k : nat) (x : A) :
  forallb f l = true -> l !! k = Some x -> f x = true.
Proof.
  revert k. induction l as [|y ys IH]; intros k Hl Hx; [discriminate|].
  simpl in Hl. apply andb_true_iff in Hl as [Hy Hys].
  destruct k as [|k]; simpl in Hx.
  - injection Hx as <-. exact Hy.
  - eapply IH; eassumption.
Qed.

Lemma register_file_ok_inv (l : list Register) :
  register_file_ok l = true ->
  exists rest, l = MkZeroRegister 0 :: rest /\ length rest = 15%nat /\
               forallb plain rest = true.
Proof.
  unfold register_file_ok.
  destruct l as [|[v|v] rest]; try discriminate.
  destruct v; try discriminate.
  intros Hl. apply andb_true_iff in Hl as [Hn Hp].
  apply Nat.eqb_eq in Hn. eauto.
Qed.

Lemma register_file_length (l : list Register) :
  register_file_ok l = true -> length l = 16%nat.
Proof.
  intros Hl. apply register_file_ok_inv in Hl as (rest & -> & Hn & _).
  simpl. rewrite Hn. reflexivity.
Qed.

Lemma register_file_zero (l : list Register) :
  register_file_ok l = true -> l !! 0%nat = Some (MkZeroRegister 0).
Proof.
  intros Hl. apply register_file_ok_inv in Hl as (rest & -> & _). reflexivity.
Qed.

Lemma register_file_plain (l : list Register) (k : nat) :
  register_file_ok l = true -> (0 < k < 16)%nat ->
  exists v, l !! k = Some (MkRegister v).
Proof.
  intros Hl Hk. apply register_file_ok_inv in Hl as (rest & -> & Hn & Hp).
  destruct k as [|k]; [lia|]. simpl.
  destruct (rest !! k) as [r|] eqn:Er.
  - pose proof (forallb_lookup _ _ _ _ Hp Er) as Hr.
    destruct r; [eauto | discriminate].
  - apply lookup_ge_None in Er. lia.
Qed.

(** A [put] on any register keeps the shape of the register file. *)
Lemma reg_put_ok (l l' : list Register) (i v : Z) :
  register_file_ok l = true -> reg_put l i v = Ok l' ->
  register_file_ok l' = true.
Proof.
  intros Hl Hp. apply reg_put_Ok in Hp as (k & r & Hk & Hr & ->).
  apply register_file_ok_inv in Hl as (rest & -> & Hn & Hpl).
  destruct k as [|k]; simpl in *.
  - injection Hr as <-. simpl. rewrite Hn, Hpl. reflexivity.
  - rewrite length_insert, Hn. simpl.
    apply forallb_insert; [assumption|].
    pose proof (forallb_lookup _ _ _ _ Hpl Hr) as Hq.
    destruct r; [reflexivity | discriminate].
Qed.

(** Every subscript in -16..15 reads and writes on a well-shaped file. *)
Lemma reg_get_total (l : list Register) (i : Z) :
  length l = 16%nat -> -16 <= i <= 15 -> exists v, reg_get l i = Ok v.
Proof.
  intros Hn Hi.
  assert (exists k, subscript (length l) i = Ok k) as [k Hk].
  { rewrite Hn. destruct (Z.neg_nonneg_cases i).
    - eexists. apply subscript_neg. simpl. lia.
    - eexists. apply subscript_nonneg. simpl. lia. }
  pose proof (subscript_Ok _ _ _ Hk) as [Hlt _].
  destruct (lookup_lt_is_Some_2 l k Hlt) as [r Hr].
  exists (Register.get r). eapply reg_get_at; eassumption.
Qed.

Lemma reg_put_total (l : list Register) (i v : Z) :
  length l = 16%nat -> -16 <= i <= 15 -> exists l', reg_put l i v = Ok l'.
Proof.
  intros Hn Hi.
  assert (exists k, subscript (length l) i = Ok k) as [k Hk].
  { rewrite Hn. destruct (Z.neg_nonneg_cases i).
    - eexists. apply subscript_neg. simpl. lia.
    - eexists. apply subscript_nonneg. simpl. lia. }
  pose proof (subscript_Ok _ _ _ Hk) as [Hlt _].
  destruct (lookup_lt_is_Some_2 l k Hlt) as [r Hr].
  eexists. eapply reg_put_at; eassumption.
Qed.

Lemma zero_register_reads_0 (l : list Register) :
  register_file_ok l = true -> reg_get l 0 = Ok 0.
Proof.
  intros Hl.
  rewrite (reg_get_at l 0 0%nat (MkZeroRegister 0)); [reflexivity| |].
  - rewrite (register_file_length l Hl). reflexivity.
  - apply register_file_zero. assumption.
Qed.

(** The program counter of a well-shaped file: reading and writing it. *)
Lemma pc_get_plain (l : list Register) (pc : Z) :
  register_file_ok l = true -> reg_get l 15 = Ok pc ->
  l !! 15%nat = Some (MkRegister pc).
Proof.
  intros Hl Hg.
  destruct (register_file_plain l 15 Hl ltac:(lia)) as [v Hv].
  rewrite (reg_get_at l 15 15%nat (MkRegister v)) in Hg; [| |assumption].
  - injection Hg as <-. assumption.
  - rewrite (register_file_length l Hl). reflexivity.
Qed.

Lemma pc_put_plain (l : list Register) (v : Z) :
  register_file_ok l = true ->
  reg_put l 15 v = Ok (<[15%nat := MkRegister v]> l).
Proof.
  intros Hl.
  destruct (register_file_plain l 15 Hl ltac:(lia)) as [v0 Hv].
  rewrite (reg_put_at l 15 v 15%nat (MkRegister v0)); [reflexivity| |assumption].
  rewrite (register_file_length l Hl). reflexivity.
Qed.

End RegisterFacts.

(** ** The CPU *)

Section DecodedRegisters.

Import BitField.

Lemma register_field_bounds (w : Z) :
  0 <= extract reg_target_field w <= 15 /\
  0 <= extract reg_src1_field w <= 15 /\
  0 <= extract reg_src2_field w <= 15.
Proof.
  destruct fields_valid as (_ & _ & Vt & V1 & V2 & _).
  pose proof (extract_bounds reg_target_field w Vt) as Bt.
  pose proof (extract_bounds reg_src1_field w V1) as B1.
  pose proof (extract_bounds reg_src2_field w V2) as B2.
  change (2 ^ width reg_target_field) with 16 in Bt.
  change (2 ^ width reg_src1_field) with 16 in B1.
  change (2 ^ width reg_src2_field) with 16 in B2.
  lia.
Qed.

Lemma signed4_range (r : Z) : 0 <= r <= 15 -> -8 <= signed4 r <= 7.
Proof. intros Hr. unfold signed4. destruct (Z.leb_spec 8 r); lia. Qed.

Lemma decode_register_range (w : Z) (i : Instruction) :
  decode w = Ok i ->
  -8 <= reg_target i <= 7 /\ -8 <= reg_src1 i <= 7 /\ -8 <= reg_src2 i <= 7.
Proof.
  intros Hd. apply decode_registers in Hd as (-> & -> & -> & _).
  destruct (register_field_bounds w) as (Bt & B1 & B2).
  auto using signed4_range.
Qed.

(** The register of the file that each decoded register number selects is
    the one the field of the word names. *)
Lemma decode_selects (w : Z) (i : Instruction) :
  decode w = Ok i ->
  subscript 16 (reg_target i) = Ok (Z.to_nat (extract reg_target_field w)) /\
  subscript 16 (reg_src1 i) = Ok (Z.to_nat (extract reg_src1_field w)) /\
  subscript 16 (reg_src2 i) = Ok (Z.to_nat (extract reg_src2_field w)).
Proof.
  intros Hd. apply decode_registers in Hd as (-> & -> & -> & _).
  destruct (register_field_bounds w) as (Bt & B1 & B2).
  auto using subscript_signed4.
Qed.

Lemma reg_get_signed4 (l : list Register) (r : Z) :
  length l = 16%nat -> 0 <= r <= 15 -> reg_get l (signed4 r) = reg_get l r.
Proof.
  intros Hl Hr. apply reg_get_subscript.
  rewrite Hl, subscript_signed4, subscript_unsigned4 by assumption.
  reflexivity.
Qed.

Lemma reg_put_signed4 (l : list Register) (r v : Z) :
  length l = 16%nat -> 0 <= r <= 15 -> reg_put l (signed4 r) v = reg_put l r v.
Proof.
  intros Hl Hr. apply reg_put_subscript.
  rewrite Hl, subscript_signed4, subscript_unsigned4 by assumption.
  reflexivity.
Qed.

End DecodedRegisters.

Section CPUFacts.

Context {M : Type} `{MemoryBus M}.

Lemma fetch_Ok (s : CPU M) (i : Instruction) (m1 : M) :
  fetch s = Ok (i, m1) ->
  exists pc w, pc_get (registers s) = Ok pc /\
               mem_get (memory s) pc = Ok (w, m1) /\ decode w = Ok i.
Proof.
  unfold fetch. intros Hf.
  destruct (pc_get (registers s)) as [pc|e] eqn:Epc; cbn [bind] in Hf; [|discriminate].
  destruct (mem_get (memory s) pc) as [[w m]|e] eqn:Em; cbn [bind] in Hf; [|discriminate].
  destruct (decode w) as [i'|e] eqn:Ed; cbn [bind] in Hf; [|discriminate].
  injection Hf as <- <-. eauto.
Qed.

(** A step whose predicate is not satisfied. *)
Lemma step_unsatisfied (s : CPU M) (i : Instruction) (m1 : M) :
  register_file_ok (registers s) = true ->
  fetch s = Ok (i, m1) ->
  CondFlag.truthy (CondFlag.and (condition s) (cond i)) = false ->
  exists pc, pc_get (registers s) = Ok pc /\
    step s = Ok (mkCPU m1 (<[15%nat := MkRegister (pc + 1)]> (registers s))
                   (condition s) (halted s)).
Proof.
  intros Hok Hf Hp.
  apply fetch_Ok in Hf as (pc & w & Hpc & Hm & Hd).
  exists pc. split; [assumption|].
  unfold step, step_with.
  rewrite Hpc. cbn [bind]. rewrite Hm. cbn [bind]. rewrite Hd. cbn [bind].
  rewrite Hp. cbn [bind].
  unfold pc_put. rewrite pc_put_plain by assumption. reflexivity.
Qed.

(** C3: when [condition & predicate] is zero, and so whenever the
    predicate is NEVER, a step does nothing but advance the program
    counter: the memory is the one the instruction fetch left (no operand
    is read or written through the bus), every register but register 15
    is as it was, and so are the condition register and [halted]; the
    result does not depend on the ALU. *)
Theorem step_predicate_not_satisfied (s : CPU M) (i : Instruction) (m1 : M) :
  register_file_ok (registers s) = true ->
  fetch s = Ok (i, m1) ->
  CondFlag.and (condition s) (cond i) = CondFlag.NEVER \/
  cond i = CondFlag.NEVER ->
  exists pc s',
    pc_get (registers s) = Ok pc /\
    step s = Ok s' /\
    memory s' = m1 /\
    condition s' = condition s /\
    halted s' = halted s /\
    pc_get (registers s') = Ok (pc + 1) /\
    length (registers s') = length (registers s) /\
    forall k, k <> 15%nat -> registers s' !! k = registers s !! k.
Proof.
  intros Hok Hf Hp.
  assert (Hz : CondFlag.truthy (CondFlag.and (condition s) (cond i)) = false).
  { destruct Hp as [-> | ->]; [reflexivity|].
    unfold CondFlag.and, CondFlag.NEVER. rewrite Z.land_0_r. reflexivity. }
  destruct (step_unsatisfied s i m1 Hok Hf Hz) as (pc & Hpc & Hs).
  exists pc. eexists. split; [assumption|]. split; [exact Hs|].
  cbn [memory registers condition halted].
  repeat split.
  - unfold pc_get.
    rewrite (reg_get_at _ 15 15%nat (MkRegister (pc + 1))); [reflexivity| |].
    + rewrite length_insert, (register_file_length _ Hok). reflexivity.
    + apply list_lookup_insert_eq. rewrite (register_file_length _ Hok). lia.
  - apply length_insert.
  - intros k Hk. apply list_lookup_insert_ne. congruence.
Qed.

(** *** Steps that execute their instruction *)

Lemma pc_after_increment (l : list Register) (v : Z) :
  register_file_ok l = true ->
  register_file_ok (<[15%nat := MkRegister v]> l) = true.
Proof.
  intros Hl. eapply reg_put_ok; [exact Hl|]. apply pc_put_plain. assumption.
Qed.

(** What is left of [step] once the instruction is fetched, its predicate
    holds and its operands are read. *)
Lemma step_satisfied (s : CPU M) (i : Instruction) (m1 : M) (pc left src2 : Z) :
  register_file_ok (registers s) = true ->
  fetch s = Ok (i, m1) ->
  CondFlag.truthy (CondFlag.and (condition s) (cond i)) = true ->
  pc_get (registers s) = Ok pc ->
  reg_get (registers s) (reg_src1 i) = Ok left ->
  reg_get (registers s) (reg_src2 i) = Ok src2 ->
  step s =
    let result := ALU.exec (op i) left (src2 + offset i) in
    let registers := <[15%nat := MkRegister (pc + 1)]> (registers s) in
    match op i with
    | STORE =>
        let* value := reg_get registers (reg_target i) in
        let* memory := mem_put m1 (fst result) value in
        Ok (mkCPU memory registers (condition s) (halted s))
    | LOAD =>
        let* (location_val, memory) := mem_get m1 (fst result) in
        let* registers := reg_put registers (reg_target i) location_val in
        Ok (mkCPU memory registers (condition s) (halted s))
    | HALT =>
        Ok (mkCPU m1 registers (condition s) true)
    | _ =>
        let* registers := reg_put registers (reg_target i) (fst result) in
        Ok (mkCPU m1 registers (snd result) (halted s))
    end.
Proof.
  intros Hok Hf Hp Hpc Hl Hr.
  apply fetch_Ok in Hf as (pc' & w & Hpc' & Hm & Hd).
  assert (pc' = pc) as -> by congruence.
  unfold step, step_with.
  rewrite Hpc. cbn [bind]. rewrite Hm. cbn [bind]. rewrite Hd. cbn [bind].
  rewrite Hp, Hl. cbn [bind]. rewrite Hr. cbn [bind].
  unfold pc_put. rewrite pc_put_plain by assumption. cbn [bind].
  reflexivity.
Qed.

(** The operands of a fetched instruction can always be read. *)
Lemma operands_total (s : CPU M) (i : Instruction) (m1 : M) :
  register_file_ok (registers s) = true ->
  fetch s = Ok (i, m1) ->
  exists pc left src2,
    pc_get (registers s) = Ok pc /\
    reg_get (registers s) (reg_src1 i) = Ok left /\
    reg_get (registers s) (reg_src2 i) = Ok src2.
Proof.
  intros Hok Hf.
  apply fetch_Ok in Hf as (pc & w & Hpc & Hm & Hd).
  pose proof (decode_register_range w i Hd) as (_ & R1 & R2).
  pose proof (register_file_length _ Hok) as Hlen.
  destruct (reg_get_total (registers s) (reg_src1 i) Hlen ltac:(lia)) as [l Hl].
  destruct (reg_get_total (registers s) (reg_src2 i) Hlen ltac:(lia)) as [r Hr].
  eauto 7.
Qed.

(** An arithmetic instruction that executes: the program counter is
    advanced, then the ALU result goes to the target register and the ALU
    flag to the condition register. *)
Lemma step_arithmetic (s : CPU M) (i : Instruction) (m1 : M) (pc left src2 : Z) :
  register_file_ok (registers s) = true ->
  fetch s = Ok (i, m1) ->
  CondFlag.truthy (CondFlag.and (condition s) (cond i)) = true ->
  arithmetic (op i) = true ->
  pc_get (registers s) = Ok pc ->
  reg_get (registers s) (reg_src1 i) = Ok left ->
  reg_get (registers s) (reg_src2 i) = Ok src2 ->
  exists registers',
    reg_put (<[15%nat := MkRegister (pc + 1)]> (registers s)) (reg_target i)
            (fst (ALU.exec (op i) left (src2 + offset i))) = Ok registers' /\
    step s = Ok (mkCPU m1 registers'
                   (snd (ALU.exec (op i) left (src2 + offset i))) (halted s)).
Proof.
  intros Hok Hf Hp Ha Hpc Hl Hr.
  rewrite (step_satisfied s i m1 pc left src2) by assumption.
  apply fetch_Ok in Hf as (pc' & w & _ & _ & Hd).
  pose proof (decode_register_range w i Hd) as (Rt & _ & _).
  pose proof (pc_after_increment _ (pc + 1) Hok) as Hok1.
  pose proof (register_file_length _ Hok1) as Hlen1.
  destruct (reg_put_total _ (reg_target i)
              (fst (ALU.exec (op i) left (src2 + offset i))) Hlen1 ltac:(lia))
    as [regs' Hput].
  exists regs'. split; [assumption|].
  cbv zeta. destruct (op i); try discriminate Ha; rewrite Hput; reflexivity.
Qed.

(** The program counter after a result is put into the target register of
    a register file whose register 15 has just been set. *)
Lemma pc_after_commit (l l' : list Register) (i pcv v : Z) (k : nat) :
  register_file_ok l = true ->
  subscript 16 i = Ok k ->
  reg_put (<[15%nat := MkRegister pcv]> l) i v = Ok l' ->
  (k = 15%nat -> pc_get l' = Ok v) /\
  (k <> 15%nat -> pc_get l' = Ok pcv).
Proof.
  intros Hok Hk Hput.
  pose proof (pc_after_increment _ pcv Hok) as Hok1.
  pose proof (register_file_length _ Hok) as Hlen.
  pose proof (register_file_length _ Hok1) as Hlen1.
  apply reg_put_Ok in Hput as (k' & r & Hk' & Hr' & ->).
  rewrite Hlen1 in Hk'. assert (k' = k) as -> by congruence.
  assert (Hs15 : forall l0 : list Register, length l0 = 16%nat ->
                   subscript (length l0) 15 = Ok 15%nat)
    by (intros l0 ->; reflexivity).
  split.
  - intros ->.
    rewrite list_lookup_insert_eq in Hr' by lia. injection Hr' as <-.
    unfold pc_get.
    rewrite (reg_get_at _ 15 15%nat (MkRegister v)); [reflexivity | |].
    + apply Hs15. rewrite !length_insert. assumption.
    + apply list_lookup_insert_eq. rewrite length_insert. lia.
  - intros Hne.
    unfold pc_get.
    rewrite (reg_get_at _ 15 15%nat (MkRegister pcv)); [reflexivity | |].
    + apply Hs15. rewrite !length_insert. assumption.
    + rewrite list_lookup_insert_ne by assumption.
      apply list_lookup_insert_eq. lia.
Qed.

(** What the target register reads once register 15 has been set: the new
    program counter when the target is register 15, and what it held
    otherwise. *)
Lemma target_after_increment (l : list Register) (i pcv value : Z) (k : nat) :
  register_file_ok l = true ->
  subscript 16 i = Ok k ->
  reg_get l i = Ok value ->
  reg_get (<[15%nat := MkRegister pcv]> l) i =
    Ok (if (k =? 15)%nat then pcv else value).
Proof.
  intros Hok Hk Hg.
  pose proof (register_file_length _ Hok) as Hlen.
  destruct (subscript_Ok _ _ _ Hk) as [Hlt _].
  destruct (Nat.eqb_spec k 15) as [-> | Hne].
  - rewrite (reg_get_at _ i 15%nat (MkRegister pcv)); [reflexivity | |].
    + rewrite length_insert, Hlen. assumption.
    + apply list_lookup_insert_eq. lia.
  - destruct (lookup_lt_is_Some_2 l k ltac:(lia)) as [r Hr].
    rewrite (reg_get_at l i k r) in Hg by (rewrite ?Hlen; assumption).
    rewrite (reg_get_at _ i k r).
    + assumption.
    + rewrite length_insert, Hlen. assumption.
    + rewrite list_lookup_insert_ne by congruence. assumption.
Qed.

(** C2: with the predicate satisfied, register 15 is incremented before
    the result of the opcode is committed, whatever the opcode.  The
    operands [left] and [src2] are read from the registers as they stand
    before the step (so a source operand that is the program counter is the
    address of the instruction itself), and [k] is the register that the
    target selects.
    - An arithmetic instruction: when the target is register 15 the program
      counter ends as the ALU result, and when it is another register the
      program counter ends one past the instruction.
    - A LOAD: when the target is register 15 the program counter ends as
      the word loaded, otherwise one past the instruction.
    - A STORE: the value written to memory is read after the increment, so
      a STORE of register 15 writes the address one past the instruction;
      the program counter ends one past the instruction.
    - A HALT: the program counter ends one past the instruction. *)
Theorem step_commits_after_pc_increment
    (s : CPU M) (i : Instruction) (m1 : M) (pc left src2 : Z) (k : nat) :
  register_file_ok (registers s) = true ->
  fetch s = Ok (i, m1) ->
  CondFlag.truthy (CondFlag.and (condition s) (cond i)) = true ->
  pc_get (registers s) = Ok pc ->
  reg_get (registers s) (reg_src1 i) = Ok left ->
  reg_get (registers s) (reg_src2 i) = Ok src2 ->
  subscript 16 (reg_target i) = Ok k ->
  (arithmetic (op i) = true ->
   exists s',
     step s = Ok s' /\
     (k = 15%nat ->
      pc_get (registers s') = Ok (fst (ALU.exec (op i) left (src2 + offset i)))) /\
     (k <> 15%nat -> pc_get (registers s') = Ok (pc + 1))) /\
  (op i = LOAD ->
   forall (word : Z) (m2 : M),
     mem_get m1 (fst (ALU.exec LOAD left (src2 + offset i))) = Ok (word, m2) ->
     exists s',
       step s = Ok s' /\
       memory s' = m2 /\
       (k = 15%nat -> pc_get (registers s') = Ok word) /\
       (k <> 15%nat -> pc_get (registers s') = Ok (pc + 1))) /\
  (op i = STORE ->
   exists value,
     reg_get (registers s) (reg_target i) = Ok value /\
     step s =
       let* m2 := mem_put m1 (fst (ALU.exec STORE left (src2 + offset i)))
                    (if (k =? 15)%nat then pc + 1 else value) in
       Ok (mkCPU m2 (<[15%nat := MkRegister (pc + 1)]> (registers s))
             (condition s) (halted s))) /\
  (op i = HALT ->
   step s = Ok (mkCPU m1 (<[15%nat := MkRegister (pc + 1)]> (registers s))
                  (condition s) true)).
Proof.
  intros Hok Hf Hp Hpc Hl Hr Hk.
  pose proof (step_satisfied s i m1 pc left src2 Hok Hf Hp Hpc Hl Hr) as Hs.
  cbv zeta in Hs.
  pose proof (pc_after_increment _ (pc + 1) Hok) as Hok1.
  pose proof (register_file_length _ Hok) as Hlen.
  pose proof (register_file_length _ Hok1) as Hlen1.
  destruct (subscript_Ok _ _ _ Hk) as [Hlt Hki].
  split; [|split; [|split]].
  - intros Ha.
    destruct (step_arithmetic s i m1 pc left src2 Hok Hf Hp Ha Hpc Hl Hr)
      as (regs' & Hput & Hstep).
    eexists. split; [exact Hstep|]. cbn [registers].
    exact (pc_after_commit _ _ _ _ _ _ Hok Hk Hput).
  - intros Hop word m2 Hm. rewrite Hop in Hs. rewrite Hm in Hs.
    cbn [bind] in Hs.
    destruct (reg_put_total (<[15%nat := MkRegister (pc + 1)]> (registers s))
                (reg_target i) word Hlen1 ltac:(lia)) as [regs' Hput].
    rewrite Hput in Hs. cbn [bind] in Hs.
    eexists. split; [exact Hs|]. cbn [registers memory].
    split; [reflexivity|].
    exact (pc_after_commit _ _ _ _ _ _ Hok Hk Hput).
  - intros Hop. rewrite Hop in Hs.
    destruct (reg_get_total (registers s) (reg_target i) Hlen ltac:(lia))
      as [value Hv].
    exists value. split; [assumption|].
    rewrite (target_after_increment _ _ (pc + 1) value k Hok Hk Hv) in Hs.
    cbn [bind] in Hs. exact Hs.
  - intros Hop. rewrite Hop in Hs. exact Hs.
Qed.

(** A STORE whose target is register 15 writes the incremented program
    counter to memory: the increment comes before the commit. *)
Lemma step_store_of_pc
    (s : CPU M) (i : Instruction) (m1 m2 : M) (pc left src2 : Z) :
  register_file_ok (registers s) = true ->
  fetch s = Ok (i, m1) ->
  CondFlag.truthy (CondFlag.and (condition s) (cond i)) = true ->
  op i = STORE ->
  pc_get (registers s) = Ok pc ->
  reg_get (registers s) (reg_src1 i) = Ok left ->
  reg_get (registers s) (reg_src2 i) = Ok src2 ->
  subscript 16 (reg_target i) = Ok 15%nat ->
  mem_put m1 (left + (src2 + offset i)) (pc + 1) = Ok m2 ->
  step s = Ok (mkCPU m2 (<[15%nat := MkRegister (pc + 1)]> (registers s))
                 (condition s) (halted s)).
Proof.
  intros Hok Hf Hp Hop Hpc Hl Hr Hk Hput.
  rewrite (step_satisfied s i m1 pc left src2) by assumption.
  cbv zeta. rewrite Hop.
  rewrite (reg_get_at _ (reg_target i) 15%nat (MkRegister (pc + 1))).
  - cbn [bind Register.get].
    rewrite (exec_sign_flag STORE left (src2 + offset i) (left + (src2 + offset i)))
      by reflexivity.
    cbn [fst]. rewrite Hput. reflexivity.
  - rewrite length_insert, (register_file_length _ Hok). assumption.
  - apply list_lookup_insert_eq. rewrite (register_file_length _ Hok). lia.
Qed.

(** *** Every successful step, read backwards *)

Lemma step_Ok_inv (s s' : CPU M) (i : Instruction) (m1 : M) :
  fetch s = Ok (i, m1) -> step s = Ok s' ->
  exists pc regs1,
    pc_get (registers s) = Ok pc /\
    pc_put (registers s) (pc + 1) = Ok regs1 /\
    if CondFlag.truthy (CondFlag.and (condition s) (cond i)) then
      exists left src2,
        reg_get (registers s) (reg_src1 i) = Ok left /\
        reg_get (registers s) (reg_src2 i) = Ok src2 /\
        let result := ALU.exec (op i) left (src2 + offset i) in
        match op i with
        | STORE =>
            exists value m2,
              reg_get regs1 (reg_target i) = Ok value /\
              mem_put m1 (fst result) value = Ok m2 /\
              s' = mkCPU m2 regs1 (condition s) (halted s)
        | LOAD =>
            exists value m2 regs2,
              mem_get m1 (fst result) = Ok (value, m2) /\
              reg_put regs1 (reg_target i) value = Ok regs2 /\
              s' = mkCPU m2 regs2 (condition s) (halted s)
        | HALT => s' = mkCPU m1 regs1 (condition s) true
        | _ =>
            exists regs2,
              reg_put regs1 (reg_target i) (fst result) = Ok regs2 /\
              s' = mkCPU m1 regs2 (snd result) (halted s)
        end
    else s' = mkCPU m1 regs1 (condition s) (halted s).
Proof.
  intros Hf Hs.
  apply fetch_Ok in Hf as (pc & w & Hpc & Hm & Hd).
  unfold step, step_with in Hs.
  rewrite Hpc in Hs. cbn [bind] in Hs. rewrite Hm in Hs. cbn [bind] in Hs.
  rewrite Hd in Hs. cbn [bind] in Hs.
  exists pc.
  destruct (CondFlag.truthy (CondFlag.and (condition s) (cond i))).
  - destruct (reg_get (registers s) (reg_src1 i)) as [left|e] eqn:El;
      cbn [bind] in Hs; [|discriminate].
    destruct (reg_get (registers s) (reg_src2 i)) as [src2|e] eqn:Er;
      cbn [bind] in Hs; [|discriminate].
    destruct (pc_put (registers s) (pc + 1)) as [regs1|e] eqn:Ep;
      cbn [bind] in Hs; [|discriminate].
    exists regs1. split; [assumption|]. split; [reflexivity|].
    exists left, src2. split; [reflexivity|]. split; [reflexivity|].
    cbv zeta.
    destruct (op i).
    + injection Hs as <-. reflexivity.
    + destruct (mem_get m1 _) as [[v m2]|e] eqn:Eg; cbn [bind] in Hs; [|discriminate].
      destruct (reg_put regs1 (reg_target i) v) as [regs2|e] eqn:Et;
        cbn [bind] in Hs; [|discriminate].
      injection Hs as <-. eauto 7.
    + destruct (reg_get regs1 (reg_target i)) as [v|e] eqn:Et;
        cbn [bind] in Hs; [|discriminate].
      destruct (mem_put m1 _ v) as [m2|e] eqn:Eg; cbn [bind] in Hs; [|discriminate].
      injection Hs as <-. eauto 7.
    + destruct (reg_put regs1 (reg_target i) _) as [regs2|e] eqn:Et;
        cbn [bind] in Hs; [|discriminate].
      injection Hs as <-. eauto.
    + destruct (reg_put regs1 (reg_target i) _) as [regs2|e] eqn:Et;
        cbn [bind] in Hs; [|discriminate].
      injection Hs as <-. eauto.
    + destruct (reg_put regs1 (reg_target i) _) as [regs2|e] eqn:Et;
        cbn [bind] in Hs; [|discriminate].
      injection Hs as <-. eauto.
    + destruct (reg_put regs1 (reg_target i) _) as [regs2|e] eqn:Et;
        cbn [bind] in Hs; [|discriminate].
      injection Hs as <-. eauto.
  - destruct (pc_put (registers s) (pc + 1)) as [regs1|e] eqn:Ep;
      cbn [bind] in Hs; [|discriminate].
    exists regs1. split; [assumption|]. split; [reflexivity|].
    injection Hs as <-. reflexivity.
Qed.

(** A successful step has fetched an instruction. *)
Lemma step_Ok_fetch (s s' : CPU M) :
  step s = Ok s' -> exists i m1, fetch s = Ok (i, m1).
Proof.
  unfold step, step_with, fetch. intros Hs.
  destruct (pc_get (registers s)) as [pc|e]; cbn [bind] in *; [|discriminate].
  destruct (mem_get (memory s) pc) as [[w m1]|e]; cbn [bind] in *; [|discriminate].
  destruct (decode w) as [i|e]; cbn [bind] in *; [|discriminate].
  eauto.
Qed.

(** C7: the condition register changes only when an arithmetic
    instruction (ADD, SUB, MUL, DIV) executes with its predicate satisfied,
    and then it becomes the flag the ALU derived; a LOAD, a STORE or a HALT
    leaves it exactly as it was, executed or not. *)
Theorem condition_written_only_by_arithmetic
    (s s' : CPU M) (i : Instruction) (m1 : M) :
  fetch s = Ok (i, m1) ->
  step s = Ok s' ->
  (condition s' <> condition s ->
   arithmetic (op i) = true /\
   CondFlag.truthy (CondFlag.and (condition s) (cond i)) = true) /\
  (op i = LOAD \/ op i = STORE \/ op i = HALT -> condition s' = condition s) /\
  (arithmetic (op i) = true ->
   CondFlag.truthy (CondFlag.and (condition s) (cond i)) = true ->
   exists left src2,
     reg_get (registers s) (reg_src1 i) = Ok left /\
     reg_get (registers s) (reg_src2 i) = Ok src2 /\
     condition s' = snd (ALU.exec (op i) left (src2 + offset i))).
Proof.
  intros Hf Hs.
  destruct (step_Ok_inv s s' i m1 Hf Hs) as (pc & regs1 & _ & _ & Hcase).
  destruct (CondFlag.truthy (CondFlag.and (condition s) (cond i))).
  - destruct Hcase as (left & src2 & Hl & Hr & Hop). cbv zeta in Hop.
    assert (Hcond : condition s' =
              if arithmetic (op i)
              then snd (ALU.exec (op i) left (src2 + offset i))
              else condition s).
    { destruct (op i); cbn [arithmetic].
      - subst s'. reflexivity.
      - destruct Hop as (v & m2 & regs2 & _ & _ & ->). reflexivity.
      - destruct Hop as (v & m2 & _ & _ & ->). reflexivity.
      - destruct Hop as (regs2 & _ & ->). reflexivity.
      - destruct Hop as (regs2 & _ & ->). reflexivity.
      - destruct Hop as (regs2 & _ & ->). reflexivity.
      - destruct Hop as (regs2 & _ & ->). reflexivity. }
    split; [|split].
    + intros Hne. destruct (arithmetic (op i)); [split; reflexivity|].
      contradiction.
    + intros Hop'. rewrite Hcond.
      destruct Hop' as [-> | [-> | ->]]; reflexivity.
    + intros Ha _. rewrite Ha in Hcond. eauto.
  - subst s'. cbn [condition]. split; [|split].
    + intros Hne. contradiction.
    + reflexivity.
    + intros _ Ht. discriminate Ht.
Qed.

(** *** The register file of a reachable CPU *)

Lemma step_keeps_register_file (s s' : CPU M) :
  register_file_ok (registers s) = true -> step s = Ok s' ->
  register_file_ok (registers s') = true.
Proof.
  intros Hok Hs.
  destruct (step_Ok_fetch s s' Hs) as (i & m1 & Hf).
  destruct (step_Ok_inv s s' i m1 Hf Hs) as (pc & regs1 & _ & Hp & Hcase).
  pose proof (reg_put_ok _ _ _ _ Hok Hp) as Hok1.
  destruct (CondFlag.truthy (CondFlag.and (condition s) (cond i))).
  - destruct Hcase as (left & src2 & _ & _ & Hop). cbv zeta in Hop.
    destruct (op i).
    + subst s'. assumption.
    + destruct Hop as (v & m2 & regs2 & _ & Hput & ->).
      eapply reg_put_ok; eassumption.
    + destruct Hop as (v & m2 & _ & _ & ->). assumption.
    + destruct Hop as (regs2 & Hput & ->). eapply reg_put_ok; eassumption.
    + destruct Hop as (regs2 & Hput & ->). eapply reg_put_ok; eassumption.
    + destruct Hop as (regs2 & Hput & ->). eapply reg_put_ok; eassumption.
    + destruct Hop as (regs2 & Hput & ->). eapply reg_put_ok; eassumption.
  - subst s'. assumption.
Qed.

Lemma run_loop_keeps_register_file (fuel : nat) (s s' : CPU M) :
  register_file_ok (registers s) = true -> run_loop fuel s = Ok (Some s') ->
  register_file_ok (registers s') = true.
Proof.
  revert s. induction fuel as [|fuel IH]; intros s Hok Hr; simpl in Hr.
  - destruct (halted s); [|discriminate]. injection Hr as <-. assumption.
  - destruct (halted s); [injection Hr as <-; assumption|].
    destruct (step s) as [s1|e] eqn:Es; cbn [bind] in Hr; [|discriminate].
    apply (IH s1); [|assumption].
    eapply step_keeps_register_file; eassumption.
Qed.

Lemma reachable_register_file (s : CPU M) :
  reachable s -> register_file_ok (registers s) = true.
Proof.
  induction 1 as [m | s s' _ IH Hs | fuel s s' a _ IH Hr
                 | s i v regs' _ IH Hp | s m' _ IH].
  - reflexivity.
  - eapply step_keeps_register_file; eassumption.
  - unfold run in Hr.
    destruct (reg_put (registers s) 15 a) as [regs1|e] eqn:Ep;
      cbn [bind] in Hr; [|discriminate].
    eapply run_loop_keeps_register_file; [|exact Hr].
    cbn [registers]. eapply reg_put_ok; eassumption.
  - cbn [registers]. eapply reg_put_ok; eassumption.
  - assumption.
Qed.

(** C8: a [ZeroRegister] reads 0 after any sequence of [put]s, and so does
    register 0 of a CPU in every state it can reach - after any steps, runs
    and writes to any of its registers; a [put] on register 0 raises
    nothing and leaves the register file as it was. *)
Theorem zero_register_always_zero :
  (forall values : list Z,
     Register.get (fold_left Register.put values Register.new_zero) = 0) /\
  (forall s : CPU M, reachable s -> reg_get (registers s) 0 = Ok 0) /\
  (forall (s : CPU M) (value : Z),
     reachable s -> reg_put (registers s) 0 value = Ok (registers s)).
Proof.
  split; [|split].
  - intros values. unfold Register.new_zero.
    rewrite put_zero_register. reflexivity.
  - intros s Hs. apply zero_register_reads_0.
    apply reachable_register_file. assumption.
  - intros s value Hs. apply reachable_register_file in Hs.
    rewrite (reg_put_at _ 0 value 0%nat (MkZeroRegister 0)).
    + cbn [Register.put]. rewrite list_insert_id; [reflexivity|].
      apply register_file_zero. assumption.
    + rewrite (register_file_length _ Hs). reflexivity.
    + apply register_file_zero. assumption.
Qed.

(** *** Signed register numbers select as unsigned ones *)

Lemma step_with_unsigned (s : CPU M) :
  length (registers s) = 16%nat -> step s = step_with decode_unsigned s.
Proof.
  intros Hlen. unfold step, step_with.
  destruct (pc_get (registers s)) as [pc|e] eqn:Epc; cbn [bind]; [|reflexivity].
  destruct (mem_get (memory s) pc) as [[w m1]|e]; cbn [bind]; [|reflexivity].
  rewrite decode_eq, decode_unsigned_eq.
  destruct (OpCode.of_int (BitField.extract instr_field w)) as [o|e];
    cbn [bind]; [|reflexivity].
  cbn [op cond reg_target reg_src1 reg_src2 offset].
  destruct (register_field_bounds w) as (Bt & B1 & B2).
  rewrite !reg_get_signed4 by assumption.
  destruct (CondFlag.truthy _); [|reflexivity].
  destruct (reg_get (registers s) (BitField.extract reg_src1_field w)) as [left|e];
    cbn [bind]; [|reflexivity].
  destruct (reg_get (registers s) (BitField.extract reg_src2_field w)) as [src2|e];
    cbn [bind]; [|reflexivity].
  destruct (pc_put (registers s) (pc + 1)) as [regs1|e] eqn:Ep;
    cbn [bind]; [|reflexivity].
  assert (Hlen1 : length regs1 = 16%nat)
    by (rewrite (reg_put_length _ _ _ _ Ep); assumption).
  destruct o.
  - reflexivity.
  - destruct (mem_get m1 _) as [[v m2]|e]; cbn [bind]; [|reflexivity].
    rewrite reg_put_signed4 by assumption. reflexivity.
  - rewrite reg_get_signed4 by assumption. reflexivity.
  - rewrite reg_put_signed4 by assumption. reflexivity.
  - rewrite reg_put_signed4 by assumption. reflexivity.
  - rewrite reg_put_signed4 by assumption. reflexivity.
  - rewrite reg_put_signed4 by assumption. reflexivity.
Qed.


(** C4: dividing by zero in the ALU gives the result 0 with the flag V,
    whatever the dividend; nothing is raised, and the step that executes
    such a DIV completes: the machine goes on with V in the condition
    register, 0 sent to the target register, the memory as the fetch left
    it and [halted] unchanged. *)
Theorem div_by_zero_is_flagged :
  (forall n : Z, ALU.exec DIV n 0 = (0, CondFlag.V)) /\
  (forall (s : CPU M) (i : Instruction) (m1 : M) (pc left src2 : Z),
     register_file_ok (registers s) = true ->
     fetch s = Ok (i, m1) ->
     CondFlag.truthy (CondFlag.and (condition s) (cond i)) = true ->
     op i = DIV ->
     pc_get (registers s) = Ok pc ->
     reg_get (registers s) (reg_src1 i) = Ok left ->
     reg_get (registers s) (reg_src2 i) = Ok src2 ->
     src2 + offset i = 0 ->
     exists registers',
       reg_put (<[15%nat := MkRegister (pc + 1)]> (registers s))
               (reg_target i) 0 = Ok registers' /\
       step s = Ok (mkCPU m1 registers' CondFlag.V (halted s))).
Proof.
  split; [exact exec_div_zero|].
  intros s i m1 pc left src2 Hok Hf Hp Hop Hpc Hl Hr Hz.
  assert (Ha : arithmetic (op i) = true) by (rewrite Hop; reflexivity).
  destruct (step_arithmetic s i m1 pc left src2 Hok Hf Hp Ha Hpc Hl Hr)
    as (regs' & Hput & Hstep).
  rewrite Hop, Hz, exec_div_zero in Hput, Hstep.
  eauto.
Qed.

End CPUFacts.

(** ** The theorems at work on the example machines *)

Lemma div_is_floor_division_witness :
  2 <> 0 /\
  exists q, ALU.exec DIV (-7) 2 = (q, sign_flag q) /\ floor_of (-7) 2 q.
Proof.
  split; [lia|].
  apply (proj1 div_is_floor_division (-7) 2). lia.
Defined.

Lemma decode_illegal_field_witness :
  (~ OpCode.legal (BitField.extract instr_field 268435456) \/
   ~ CondFlag.legal (BitField.extract cond_field 268435456)) /\
  decode 268435456 = Raise InvalidEncoding.
Proof.
  assert (Hop : ~ OpCode.legal (BitField.extract instr_field 268435456)).
  { intros [o Ho]. destruct o; vm_compute in Ho; discriminate Ho. }
  split; [left; exact Hop|].
  apply (decode_illegal_field 268435456). left. exact Hop.
Defined.

Lemma step_predicate_not_satisfied_witness :
  exists pc s',
    pc_get (registers skipping_machine) = Ok pc /\
    step skipping_machine = Ok s' /\
    memory s' = memory skipping_machine /\
    condition s' = condition skipping_machine /\
    halted s' = halted skipping_machine /\
    pc_get (registers s') = Ok (pc + 1) /\
    length (registers s') = length (registers skipping_machine) /\
    forall k, k <> 15%nat ->
      registers s' !! k = registers skipping_machine !! k.
Proof.
  apply (step_predicate_not_satisfied skipping_machine skipped_add
           (memory skipping_machine)).
  - reflexivity.
  - vm_compute. reflexivity.
  - right. reflexivity.
Defined.

Lemma step_commits_after_pc_increment_witness :
  exists s',
    step jumping_machine = Ok s' /\
    (15%nat = 15%nat ->
     pc_get (registers s') =
       Ok (fst (ALU.exec (op jump_decoded) 0 (0 + offset jump_decoded)))) /\
    (15%nat <> 15%nat -> pc_get (registers s') = Ok (0 + 1)).
Proof.
  refine (proj1 (step_commits_after_pc_increment jumping_machine jump_decoded
                   (memory jumping_machine) 0 0 0 15 _ _ _ _ _ _ _) _).
  - reflexivity.
  - vm_compute. reflexivity.
  - reflexivity.
  - reflexivity.
  - reflexivity.
  - reflexivity.
  - reflexivity.
  - reflexivity.
Defined.

Lemma div_by_zero_is_flagged_witness :
  exists registers',
    reg_put (<[15%nat := MkRegister (0 + 1)]> (registers dividing_machine))
            (reg_target div_zero) 0 = Ok registers' /\
    step dividing_machine =
      Ok (mkCPU (memory dividing_machine) registers' CondFlag.V
            (halted dividing_machine)).
Proof.
  apply (proj2 div_by_zero_is_flagged dividing_machine div_zero
           (memory dividing_machine) 0 0 0).
  - reflexivity.
  - vm_compute. reflexivity.
  - reflexivity.
  - reflexivity.
  - reflexivity.
  - reflexivity.
  - reflexivity.
  - reflexivity.
Defined.

Lemma condition_written_only_by_arithmetic_witness :
  exists s',
    step adding_machine = Ok s' /\
    (condition s' <> condition adding_machine ->
     arithmetic (op add_to_zero) = true /\
     CondFlag.truthy
       (CondFlag.and (condition adding_machine) (cond add_to_zero)) = true) /\
    (op add_to_zero = LOAD \/ op add_to_zero = STORE \/ op add_to_zero = HALT ->
     condition s' = condition adding_machine) /\
    (arithmetic (op add_to_zero) = true ->
     CondFlag.truthy
       (CondFlag.and (condition adding_machine) (cond add_to_zero)) = true ->
     exists left src2,
       reg_get (registers adding_machine) (reg_src1 add_to_zero) = Ok left /\
       reg_get (registers adding_machine) (reg_src2 add_to_zero) = Ok src2 /\
       condition s' =
         snd (ALU.exec (op add_to_zero) left (src2 + offset add_to_zero))).
Proof.
  eexists. split.
  - lazy. reflexivity.
  - apply (condition_written_only_by_arithmetic adding_machine _ add_to_zero
             (memory adding_machine)).
    + vm_compute. reflexivity.
    + vm_compute. reflexivity.
Defined.

Lemma zero_register_always_zero_witness :
  exists s',
    step adding_machine = Ok s' /\ reg_get (registers s') 0 = Ok 0.
Proof.
  eexists. split.
  - lazy. reflexivity.
  - apply (proj1 (proj2 zero_register_always_zero)).
    apply (reachable_step adding_machine).
    + apply reachable_init.
    + vm_compute. reflexivity.
Defined.


(** * Further properties of the code *)

(** ** The codec on arbitrary words and field values *)

Section CodecWords.

Import BitField.

Lemma mask_nonneg (f : t) : valid f -> 0 <= mask f.
Proof.
  intros Hf. pose proof (width_pos f Hf).
  unfold mask. rewrite Z.ones_equiv.
  assert (0 < 2 ^ width f) by (apply Z.pow_pos_nonneg; lia). lia.
Qed.

Lemma insert_nonneg (f : t) (v w : Z) :
  valid f -> 0 <= w -> 0 <= insert f v w.
Proof.
  intros Hf Hw. unfold insert.
  apply Z.lor_nonneg. split.
  - apply Z.land_nonneg. left. assumption.
  - apply Z.shiftl_nonneg. apply Z.land_nonneg. right.
    apply mask_nonneg. assumption.
Qed.

(** Bit [n] of an encoded instruction is bit [n - low] of the value of the
    field that owns it, and bit 31 and above are clear. *)
Lemma encode_testbit (i : Instruction) (n : Z) :
  0 <= n ->
  Z.testbit (encode i) n =
    if (0 <=? n) && (n <=? 9) then Z.testbit (offset i) (n - 0)
    else if (10 <=? n) && (n <=? 13) then Z.testbit (reg_src2 i) (n - 10)
    else if (14 <=? n) && (n <=? 17) then Z.testbit (reg_src1 i) (n - 14)
    else if (18 <=? n) && (n <=? 21) then Z.testbit (reg_target i) (n - 18)
    else if (22 <=? n) && (n <=? 25) then Z.testbit (cond i) (n - 22)
    else if (26 <=? n) && (n <=? 30) then Z.testbit (OpCode.value (op i)) (n - 26)
    else false.
Proof.
  intros Hn.
  destruct fields_valid as (Vi & Vc & Vt & V1 & V2 & Vo).
  unfold encode, CondFlag.value.
  rewrite !insert_testbit by assumption.
  rewrite Z.testbit_0_l. reflexivity.
Qed.

Lemma mod_pow2_testbit (x m n : Z) :
  0 <= m -> 0 <= n ->
  Z.testbit (x mod 2 ^ m) n = if n <? m then Z.testbit x n else false.
Proof.
  intros Hm Hn. destruct (Z.ltb_spec n m).
  - apply Z.mod_pow2_bits_low. lia.
  - apply Z.mod_pow2_bits_high. lia.
Qed.

(** Whatever the values of its fields, an instruction encodes without
    error to a word of 31 bits: the result lies in 0 .. 2^31 - 1, so the
    reserved bit 31 is always clear. *)
Theorem encode_range (i : Instruction) : 0 <= encode i < 2 ^ 31.
Proof.
  destruct fields_valid as (Vi & Vc & Vt & V1 & V2 & Vo).
  assert (Hnn : 0 <= encode i).
  { unfold encode. repeat apply insert_nonneg; (assumption || lia). }
  assert (Hm : encode i = encode i mod 2 ^ 31).
  { apply Z.bits_inj'. intros n Hn.
    rewrite mod_pow2_testbit by lia.
    destruct (Z.ltb_spec n 31); [reflexivity|].
    rewrite encode_testbit by assumption.
    rewrite (proj2 (Z.leb_gt n 9)), (proj2 (Z.leb_gt n 13)),
      (proj2 (Z.leb_gt n 17)), (proj2 (Z.leb_gt n 21)),
      (proj2 (Z.leb_gt n 25)), (proj2 (Z.leb_gt n 30)) by lia.
    rewrite !andb_false_r. reflexivity. }
  rewrite Hm. apply Z.mod_pos_bound. reflexivity.
Qed.

End CodecWords.

Section CodecRoundTrips.

Import BitField.

Lemma sub_pow2_testbit (u m k : Z) :
  0 <= k < m -> Z.testbit (u - 2 ^ m) k = Z.testbit u k.
Proof.
  intros Hk.
  rewrite <- (Z.mod_pow2_bits_low (u - 2 ^ m) m k) by lia.
  rewrite <- (Z.mod_pow2_bits_low u m k) by lia.
  f_equal.
  replace (u - 2 ^ m) with (u + (-1) * 2 ^ m) by lia.
  apply Z.mod_add.
  assert (0 < 2 ^ m) by (apply Z.pow_pos_nonneg; lia). lia.
Qed.

Lemma signed4_testbit (u k : Z) :
  0 <= k < 4 -> Z.testbit (signed4 u) k = Z.testbit u k.
Proof.
  intros Hk. unfold signed4. destruct (8 <=? u); [|reflexivity].
  change 16 with (2 ^ 4). apply sub_pow2_testbit. assumption.
Qed.

Lemma extract_signed_testbit (f : t) (w k : Z) :
  valid f -> 0 <= k < width f ->
  Z.testbit (extract_signed f w) k = Z.testbit w (k + from_bit f).
Proof.
  intros Hf Hk. unfold extract_signed.
  destruct (Z.testbit (extract f w) (width f - 1)).
  - rewrite sub_pow2_testbit by assumption.
    rewrite extract_testbit by (assumption || lia).
    rewrite (proj2 (Z.ltb_lt k (width f))) by lia.
    apply andb_true_r.
  - rewrite extract_testbit by (assumption || lia).
    rewrite (proj2 (Z.ltb_lt k (width f))) by lia.
    apply andb_true_r.
Qed.

(** All six fields of a decoded instruction, in terms of the word. *)
Lemma decode_fields (w : Z) (i : Instruction) :
  decode w = Ok i ->
  OpCode.value (op i) = extract instr_field w /\
  cond i = extract cond_field w /\
  reg_target i = signed4 (extract reg_target_field w) /\
  reg_src1 i = signed4 (extract reg_src1_field w) /\
  reg_src2 i = signed4 (extract reg_src2_field w) /\
  offset i = extract_signed offset_field w.
Proof.
  intros Hd.
  pose proof (decode_registers w i Hd) as (Ht & H1 & H2 & Hc & Ho).
  rewrite decode_eq in Hd.
  destruct (OpCode.of_int (extract instr_field w)) as [o|e];
    cbn [bind] in Hd; [|discriminate].
  injection Hd as <-. cbn [offset]. repeat split; assumption.
Qed.

(** X1: encoding what [decode] returned gives the word back, up to the bits
    from 31 on, which [decode] never looks at: for every word that decodes,
    whether negative or wider than 32 bits, the re-encoded instruction is
    the word modulo 2^31. *)
Theorem encode_decode (w : Z) (i : Instruction) :
  decode w = Ok i -> encode i = w mod 2 ^ 31.
Proof.
  intros Hd.
  destruct (decode_fields w i Hd) as (Ho & Hc & Ht & H1 & H2 & Hf).
  destruct fields_valid as (Vi & Vc & Vt & V1 & V2 & Vo).
  apply Z.bits_inj'. intros n Hn.
  rewrite encode_testbit, mod_pow2_testbit by lia.
  rewrite Ho, Hc, Ht, H1, H2, Hf.
  destruct (Z.leb_spec 0 n); [|lia]. cbn [andb].
  destruct (Z.leb_spec n 9).
  { rewrite extract_signed_testbit by (assumption || (change (width offset_field) with 10; lia)).
    rewrite (proj2 (Z.ltb_lt n 31)) by lia.
    f_equal. cbn. lia. }
  destruct (Z.leb_spec 10 n); [|lia]. cbn [andb].
  destruct (Z.leb_spec n 13).
  { rewrite signed4_testbit by lia.
    rewrite extract_testbit by (assumption || lia).
    change (width reg_src2_field) with 4. change (from_bit reg_src2_field) with 10.
    rewrite (proj2 (Z.ltb_lt (n - 10) 4)), (proj2 (Z.ltb_lt n 31)) by lia.
    rewrite andb_true_r. f_equal. lia. }
  destruct (Z.leb_spec 14 n); [|lia]. cbn [andb].
  destruct (Z.leb_spec n 17).
  { rewrite signed4_testbit by lia.
    rewrite extract_testbit by (assumption || lia).
    change (width reg_src1_field) with 4. change (from_bit reg_src1_field) with 14.
    rewrite (proj2 (Z.ltb_lt (n - 14) 4)), (proj2 (Z.ltb_lt n 31)) by lia.
    rewrite andb_true_r. f_equal. lia. }
  destruct (Z.leb_spec 18 n); [|lia]. cbn [andb].
  destruct (Z.leb_spec n 21).
  { rewrite signed4_testbit by lia.
    rewrite extract_testbit by (assumption || lia).
    change (width reg_target_field) with 4. change (from_bit reg_target_field) with 18.
    rewrite (proj2 (Z.ltb_lt (n - 18) 4)), (proj2 (Z.ltb_lt n 31)) by lia.
    rewrite andb_true_r. f_equal. lia. }
  destruct (Z.leb_spec 22 n); [|lia]. cbn [andb].
  destruct (Z.leb_spec n 25).
  { rewrite extract_testbit by (assumption || lia).
    change (width cond_field) with 4. change (from_bit cond_field) with 22.
    rewrite (proj2 (Z.ltb_lt (n - 22) 4)), (proj2 (Z.ltb_lt n 31)) by lia.
    rewrite andb_true_r. f_equal. lia. }
  destruct (Z.leb_spec 26 n); [|lia]. cbn [andb].
  destruct (Z.leb_spec n 30).
  { rewrite extract_testbit by (assumption || lia).
    change (width instr_field) with 5. change (from_bit instr_field) with 26.
    rewrite (proj2 (Z.ltb_lt (n - 26) 5)), (proj2 (Z.ltb_lt n 31)) by lia.
    rewrite andb_true_r. f_equal. lia. }
  rewrite (proj2 (Z.ltb_ge n 31)) by lia. reflexivity.
Qed.

Lemma extract_mod_pow2 (f : t) (w m : Z) :
  valid f -> to_bit f < m -> extract f (w mod 2 ^ m) = extract f w.
Proof.
  intros Hf Hm. apply Z.bits_inj'. intros k Hk.
  rewrite !extract_testbit by assumption.
  unfold valid, width in *.
  destruct (Z.ltb_spec k (to_bit f - from_bit f + 1)).
  - rewrite Z.mod_pow2_bits_low by lia. reflexivity.
  - rewrite !andb_false_r. reflexivity.
Qed.

(** X2: [decode] reads only bits 0..30 of a word: a word and its remainder
    modulo 2^31 decode alike, to the same instruction or the same error;
    the reserved bit 31 and anything above it are ignored. *)
Theorem decode_low_bits (w : Z) : decode (w mod 2 ^ 31) = decode w.
Proof.
  destruct fields_valid as (Vi & Vc & Vt & V1 & V2 & Vo).
  rewrite !decode_eq, !(extract_signed_eq offset_field) by assumption.
  rewrite !extract_mod_pow2 by (assumption || (cbn; lia)).
  reflexivity.
Qed.

End CodecRoundTrips.

Section CodecTruncation.

Import BitField.

Lemma signed4_mod (v : Z) : signed4 (v mod 16) = signed_field 4 v.
Proof. reflexivity. Qed.

Lemma decode_encode_truncated (i : Instruction) :
  CondFlag.legal (cond i) -> decode (encode i) = Ok (truncated i).
Proof.
  intros Hc. unfold CondFlag.legal in Hc.
  destruct fields_valid as (Vi & Vc & Vt & V1 & V2 & Vo).
  destruct (extract_encode i) as (Ei & Ec & Et & E1 & E2 & Eo).
  rewrite decode_eq, extract_signed_eq by assumption.
  rewrite Ei, Ec, Et, E1, E2, Eo.
  rewrite (mask_small instr_field)
    by (assumption || (change (2 ^ width instr_field) with 32; destruct (op i); simpl; lia)).
  rewrite (mask_small cond_field)
    by (assumption || (change (2 ^ width cond_field) with 16; lia)).
  rewrite opcode_of_value. cbn [bind].
  unfold mask.
  change (width reg_target_field) with 4. change (width reg_src1_field) with 4.
  change (width reg_src2_field) with 4. change (width offset_field) with 10.
  rewrite !Z.land_ones by lia.
  change (2 ^ 4) with 16. rewrite !signed4_mod.
  reflexivity.
Qed.

(** X3: [encode] never rejects a value; it keeps the low bits that fit the
    field.  For any register numbers and any offset, decoding the encoding
    returns the opcode and the predicate unchanged, each register number
    cut to 4 bits and the offset cut to 10 bits, both read back signed: an
    offset of 512 comes back as -512, a register 16 as register 0. *)
Theorem decode_encode_truncates (i : Instruction) :
  CondFlag.legal (cond i) -> decode (encode i) = Ok (truncated i).
Proof. exact (decode_encode_truncated i). Qed.

(** X4: what [decode] can return: the predicate is a combination of the
    four flags (0..15), each register number lies in -8..7 and the offset in
    -512..511. *)
Theorem decode_ranges (w : Z) (i : Instruction) :
  decode w = Ok i ->
  CondFlag.legal (cond i) /\
  -8 <= reg_target i <= 7 /\ -8 <= reg_src1 i <= 7 /\ -8 <= reg_src2 i <= 7 /\
  -512 <= offset i <= 511.
Proof.
  intros Hd.
  pose proof (decode_register_range w i Hd) as (Rt & R1 & R2).
  destruct (decode_fields w i Hd) as (_ & Hc & _ & _ & _ & Ho).
  destruct fields_valid as (_ & Vc & _ & _ & _ & Vo).
  pose proof (extract_bounds cond_field w Vc) as Bc.
  pose proof (extract_bounds offset_field w Vo) as Bo.
  change (2 ^ width cond_field) with 16 in Bc.
  change (2 ^ width offset_field) with 1024 in Bo.
  rewrite extract_signed_eq in Ho by assumption.
  change (2 ^ (width offset_field - 1)) with 512 in Ho.
  change (2 ^ width offset_field) with 1024 in Ho.
  unfold CondFlag.legal. rewrite Hc.
  repeat split; try lia;
    rewrite Ho; destruct (Z.leb_spec 512 (extract offset_field w)); lia.
Qed.

Lemma signed4_inj (a b : Z) :
  0 <= a <= 15 -> 0 <= b <= 15 -> signed4 a = signed4 b -> a = b.
Proof.
  unfold signed4. intros Ha Hb.
  destruct (Z.leb_spec 8 a); destruct (Z.leb_spec 8 b); lia.
Qed.

(** X5: two instructions whose fields are within their legal ranges and
    that encode to the same word are the same instruction. *)
Theorem encode_injective (i j : Instruction) :
  legal_instruction i -> legal_instruction j ->
  encode i = encode j -> i = j.
Proof.
  intros Hi Hj He.
  pose proof (decode_encode i Hi) as Di.
  pose proof (decode_encode j Hj) as Dj.
  rewrite He, Dj in Di. injection Di as Eo Ec Et E1 E2 Ef.
  destruct Hi as (_ & It & I1 & I2 & _).
  destruct Hj as (_ & Jt & J1 & J2 & _).
  apply signed4_inj in Et; [|assumption..].
  apply signed4_inj in E1; [|assumption..].
  apply signed4_inj in E2; [|assumption..].
  destruct i, j; cbn in *. congruence.
Qed.

End CodecTruncation.

(** ** The codec theorems on example words *)

Lemma encode_decode_witness :
  decode (-2015353856) = Ok (mkInstruction LOAD CondFlag.ALWAYS (-8) 0 (-7) 0) /\
  encode (mkInstruction LOAD CondFlag.ALWAYS (-8) 0 (-7) 0) =
    (-2015353856) mod 2 ^ 31.
Proof.
  split; [vm_compute; reflexivity|].
  apply (encode_decode (-2015353856)). vm_compute. reflexivity.
Defined.

Lemma decode_encode_truncates_witness :
  CondFlag.legal (cond far_jump) /\
  decode (encode far_jump) = Ok (truncated far_jump).
Proof.
  assert (Hc : CondFlag.legal (cond far_jump))
    by (unfold CondFlag.legal; change (cond far_jump) with 15; lia).
  split; [exact Hc|].
  apply (decode_encode_truncates far_jump). exact Hc.
Defined.

Lemma decode_ranges_witness :
  CondFlag.legal (cond jump_decoded) /\
  -8 <= reg_target jump_decoded <= 7 /\ -8 <= reg_src1 jump_decoded <= 7 /\
  -8 <= reg_src2 jump_decoded <= 7 /\ -512 <= offset jump_decoded <= 511.
Proof.
  apply (decode_ranges (encode jump) jump_decoded). vm_compute. reflexivity.
Defined.

Lemma encode_injective_witness :
  legal_instruction jump /\ legal_instruction loop_back /\
  encode jump <> encode loop_back.
Proof.
  assert (Hj : legal_instruction jump).
  { unfold legal_instruction, CondFlag.legal, jump.
    change CondFlag.ALWAYS with 15. cbn. lia. }
  assert (Hl : legal_instruction loop_back).
  { unfold legal_instruction, CondFlag.legal, loop_back.
    change CondFlag.ALWAYS with 15. cbn. lia. }
  split; [exact Hj|]. split; [exact Hl|].
  intros He.
  pose proof (encode_injective jump loop_back Hj Hl He) as Heq.
  discriminate Heq.
Defined.

Lemma decode_encode_low_registers_witness :
  decode (encode div_zero) = Ok div_zero.
Proof.
  apply (decode_encode_low_registers div_zero).
  - unfold legal_instruction, CondFlag.legal, div_zero.
    change CondFlag.ALWAYS with 15. cbn. lia.
  - cbn. lia.
  - cbn. lia.
  - cbn. lia.
Defined.

(** ** The ALU on every operation *)

Section ALUTable.

Lemma OpCode_eq_dec_DIV (op : OpCode) : op = DIV \/ op <> DIV.
Proof. destruct op; (left; reflexivity) || (right; discriminate). Qed.

(** X6: the ALU reports the overflow flag V in exactly one case, a DIV whose
    divisor is zero; every other call returns the result of the operation
    with the flag of its sign, M, Z or P. *)
Theorem exec_overflow_iff (op : OpCode) (in1 in2 : Z) :
  (snd (ALU.exec op in1 in2) = CondFlag.V <-> op = DIV /\ in2 = 0) /\
  (~ (op = DIV /\ in2 = 0) ->
   exists r, ALU.ALU_OPS op in1 in2 = Ok r /\
             ALU.exec op in1 in2 = (r, sign_flag r)).
Proof.
  assert (Hsf : forall r, sign_flag r <> CondFlag.V).
  { intros r. unfold sign_flag.
    destruct (r <? 0); [discriminate|]. destruct (r =? 0); discriminate. }
  assert (Hok : ~ (op = DIV /\ in2 = 0) ->
                exists r, ALU.ALU_OPS op in1 in2 = Ok r).
  { intros Hn. destruct op; simpl; eauto.
    destruct (Z.eqb_spec in2 0); [exfalso; auto | eauto]. }
  split.
  - split.
    + intros Hv.
      destruct (OpCode_eq_dec_DIV op) as [->|Hop].
      * destruct (Z.eq_dec in2 0) as [->|Hz]; [auto|].
        exfalso. rewrite (exec_div in1 in2 Hz) in Hv. exact (Hsf _ Hv).
      * exfalso. destruct Hok as [r Hr]; [tauto|].
        rewrite (exec_sign_flag _ _ _ _ Hr) in Hv. exact (Hsf _ Hv).
    + intros [-> ->]. reflexivity.
  - intros Hn. destruct (Hok Hn) as [r Hr]. exists r. split; [assumption|].
    apply exec_sign_flag. assumption.
Qed.

(** X7: SUB compares its operands: the flag is M exactly when the left
    operand is below the right one, Z when they are equal and P when it is
    above; the result is their difference. *)
Theorem exec_sub_compares (a b : Z) :
  fst (ALU.exec SUB a b) = a - b /\
  (snd (ALU.exec SUB a b) = CondFlag.M <-> a < b) /\
  (snd (ALU.exec SUB a b) = CondFlag.Z <-> a = b) /\
  (snd (ALU.exec SUB a b) = CondFlag.P <-> b < a).
Proof.
  rewrite (exec_sign_flag SUB a b (a - b)) by reflexivity.
  cbn [fst snd]. unfold sign_flag.
  destruct (Z.ltb_spec (a - b) 0); [|destruct (Z.eqb_spec (a - b) 0)];
    (split; [reflexivity|]); repeat split; intros; try discriminate; lia.
Qed.

End ALUTable.

(** ** What a step changes and what it leaves alone *)

Section StepFrames.

Context {M : Type} `{MemoryBus M}.

Lemma subscript_15 (n k : nat) : subscript n 15 = Ok k -> k = 15%nat.
Proof.
  unfold subscript. cbn [Z.ltb Z.compare].
  destruct ((0 <=? 15) && (15 <? Z.of_nat n)); [|discriminate].
  intros [= <-]. reflexivity.
Qed.

(** The registers after a successful step: the program counter was put,
    and then at most the target register. *)
Lemma step_registers (s s' : CPU M) (i : Instruction) (m1 : M) :
  fetch s = Ok (i, m1) -> step s = Ok s' ->
  exists pc regs1,
    pc_get (registers s) = Ok pc /\
    reg_put (registers s) 15 (pc + 1) = Ok regs1 /\
    (registers s' = regs1 \/
     exists v, reg_put regs1 (reg_target i) v = Ok (registers s')).
Proof.
  intros Hf Hs.
  destruct (step_Ok_inv s s' i m1 Hf Hs) as (pc & regs1 & Hpc & Hp & Hcase).
  exists pc, regs1. split; [assumption|]. split; [exact Hp|].
  destruct (CondFlag.truthy (CondFlag.and (condition s) (cond i))).
  - destruct Hcase as (left & src2 & _ & _ & Hop). cbv zeta in Hop.
    destruct (op i).
    + subst s'. left. reflexivity.
    + destruct Hop as (v & m2 & regs2 & _ & Hput & ->). right. eauto.
    + destruct Hop as (v & m2 & _ & _ & ->). left. reflexivity.
    + destruct Hop as (regs2 & Hput & ->). right. eauto.
    + destruct Hop as (regs2 & Hput & ->). right. eauto.
    + destruct Hop as (regs2 & Hput & ->). right. eauto.
    + destruct Hop as (regs2 & Hput & ->). right. eauto.
  - subst s'. left. reflexivity.
Qed.

(** X8: a successful step keeps the number of registers and changes at most
    two of them: register 15 and the register that the target field
    selects.  Every other register holds what it held. *)
Theorem step_register_frame
    (s s' : CPU M) (i : Instruction) (m1 : M) (k : nat) :
  fetch s = Ok (i, m1) ->
  step s = Ok s' ->
  k <> 15%nat ->
  subscript (length (registers s)) (reg_target i) <> Ok k ->
  length (registers s') = length (registers s) /\
  registers s' !! k = registers s !! k.
Proof.
  intros Hf Hs Hk Ht.
  destruct (step_registers s s' i m1 Hf Hs) as (pc & regs1 & _ & Hp & Hcase).
  pose proof (reg_put_length _ _ _ _ Hp) as Hlen1.
  apply reg_put_Ok in Hp as (k0 & r0 & Hk0 & _ & ->).
  apply subscript_15 in Hk0 as ->.
  destruct Hcase as [-> | (v & Hput)].
  - split; [apply length_insert|]. apply list_lookup_insert_ne. congruence.
  - pose proof (reg_put_length _ _ _ _ Hput) as Hlen2.
    apply reg_put_Ok in Hput as (kt & rt & Hkt & _ & ->).
    split; [rewrite !length_insert; reflexivity|].
    rewrite Hlen1 in Hkt.
    rewrite list_lookup_insert_ne by congruence.
    apply list_lookup_insert_ne. congruence.
Qed.

(** X9: the memory after a successful step is the memory as the
    instruction fetch left it, unless the step executed a LOAD or a STORE:
    arithmetic instructions, HALT and every instruction whose predicate
    does not hold make no further access. *)
Theorem step_memory_frame (s s' : CPU M) (i : Instruction) (m1 : M) :
  fetch s = Ok (i, m1) ->
  step s = Ok s' ->
  CondFlag.truthy (CondFlag.and (condition s) (cond i)) = false \/
  (op i <> LOAD /\ op i <> STORE) ->
  memory s' = m1.
Proof.
  intros Hf Hs Hc.
  destruct (step_Ok_inv s s' i m1 Hf Hs) as (pc & regs1 & _ & _ & Hcase).
  destruct (CondFlag.truthy (CondFlag.and (condition s) (cond i))).
  - destruct Hc as [Hc | [Hl Hst]]; [discriminate|].
    destruct Hcase as (left & src2 & _ & _ & Hop). cbv zeta in Hop.
    destruct (op i); try contradiction.
    + subst s'. reflexivity.
    + destruct Hop as (regs2 & _ & ->). reflexivity.
    + destruct Hop as (regs2 & _ & ->). reflexivity.
    + destruct Hop as (regs2 & _ & ->). reflexivity.
    + destruct Hop as (regs2 & _ & ->). reflexivity.
  - subst s'. reflexivity.
Qed.

(** X10: [halted] is set by an executed HALT and by nothing else, and no
    step ever clears it: after a successful step it is true exactly when it
    was true before or the step executed a HALT. *)
Theorem step_halted (s s' : CPU M) (i : Instruction) (m1 : M) :
  fetch s = Ok (i, m1) ->
  step s = Ok s' ->
  halted s' =
    halted s ||
    (CondFlag.truthy (CondFlag.and (condition s) (cond i)) &&
     match op i with HALT => true | _ => false end).
Proof.
  intros Hf Hs.
  destruct (step_Ok_inv s s' i m1 Hf Hs) as (pc & regs1 & _ & _ & Hcase).
  destruct (CondFlag.truthy (CondFlag.and (condition s) (cond i))).
  - destruct Hcase as (left & src2 & _ & _ & Hop). cbv zeta in Hop.
    destruct (op i); cbn [andb].
    + subst s'. cbn [halted]. rewrite orb_true_r. reflexivity.
    + destruct Hop as (v & m2 & regs2 & _ & _ & ->).
      cbn [halted]. rewrite orb_false_r. reflexivity.
    + destruct Hop as (v & m2 & _ & _ & ->).
      cbn [halted]. rewrite orb_false_r. reflexivity.
    + destruct Hop as (regs2 & _ & ->). cbn [halted]. rewrite orb_false_r. reflexivity.
    + destruct Hop as (regs2 & _ & ->). cbn [halted]. rewrite orb_false_r. reflexivity.
    + destruct Hop as (regs2 & _ & ->). cbn [halted]. rewrite orb_false_r. reflexivity.
    + destruct Hop as (regs2 & _ & ->). cbn [halted]. rewrite orb_false_r. reflexivity.
  - subst s'. cbn [halted andb]. rewrite orb_false_r. reflexivity.
Qed.

End StepFrames.

(** ** The condition register and predication *)

Section Predication.

Context {M : Type} `{MemoryBus M}.

Lemma exec_condition_ok (o : OpCode) (a b : Z) :
  condition_ok (snd (ALU.exec o a b)) = true.
Proof.
  unfold ALU.exec.
  destruct (ALU.ALU_OPS o a b) as [r|e]; [|reflexivity].
  destruct (r =? 0); [reflexivity|]. destruct (r <? 0); reflexivity.
Qed.

Lemma step_keeps_condition_ok (s s' : CPU M) :
  condition_ok (condition s) = true -> step s = Ok s' ->
  condition_ok (condition s') = true.
Proof.
  intros Hc Hs.
  destruct (step_Ok_fetch s s' Hs) as (i & m1 & Hf).
  destruct (step_Ok_inv s s' i m1 Hf Hs) as (pc & regs1 & _ & _ & Hcase).
  destruct (CondFlag.truthy (CondFlag.and (condition s) (cond i))).
  - destruct Hcase as (left & src2 & _ & _ & Hop). cbv zeta in Hop.
    destruct (op i).
    + subst s'. assumption.
    + destruct Hop as (v & m2 & regs2 & _ & _ & ->). assumption.
    + destruct Hop as (v & m2 & _ & _ & ->). assumption.
    + destruct Hop as (regs2 & _ & ->). apply exec_condition_ok.
    + destruct Hop as (regs2 & _ & ->). apply exec_condition_ok.
    + destruct Hop as (regs2 & _ & ->). apply exec_condition_ok.
    + destruct Hop as (regs2 & _ & ->). apply exec_condition_ok.
  - subst s'. assumption.
Qed.

Lemma run_loop_keeps_condition_ok (fuel : nat) (s s' : CPU M) :
  condition_ok (condition s) = true -> run_loop fuel s = Ok (Some s') ->
  condition_ok (condition s') = true.
Proof.
  revert s. induction fuel as [|fuel IH]; intros s Hc Hr; simpl in Hr.
  - destruct (halted s); [|discriminate]. injection Hr as <-. assumption.
  - destruct (halted s); [injection Hr as <-; assumption|].
    destruct (step s) as [s1|e] eqn:Es; cbn [bind] in Hr; [|discriminate].
    apply (IH s1); [|assumption].
    eapply step_keeps_condition_ok; eassumption.
Qed.

Lemma reachable_condition_ok (s : CPU M) :
  reachable s -> condition_ok (condition s) = true.
Proof.
  induction 1 as [m | s s' _ IH Hs | fuel s s' a _ IH Hr
                 | s i v regs' _ IH Hp | s m' _ IH].
  - reflexivity.
  - eapply step_keeps_condition_ok; eassumption.
  - unfold run in Hr.
    destruct (reg_put (registers s) 15 a) as [regs1|e];
      cbn [bind] in Hr; [|discriminate].
    eapply run_loop_keeps_condition_ok; [|exact Hr]. exact IH.
  - exact IH.
  - exact IH.
Qed.

(** X11: the condition register of a CPU is never empty: in every state the
    CPU can reach it is ALWAYS, as [__init__] leaves it, or exactly one of
    the flags M, Z, P, V, as the ALU returned it. *)
Theorem reachable_condition (s : CPU M) :
  reachable s -> condition_ok (condition s) = true.
Proof. exact (reachable_condition_ok s). Qed.

Lemma condition_ok_always (c : CondFlag) :
  condition_ok c = true ->
  CondFlag.truthy (CondFlag.and c CondFlag.ALWAYS) = true.
Proof.
  unfold condition_ok. rewrite !orb_true_iff, !Z.eqb_eq.
  intros [[[[-> | ->] | ->] | ->] | ->]; reflexivity.
Qed.

(** X12: a HALT with the default predicate stops every reachable CPU: the
    step succeeds, sets [halted], advances the program counter by one and
    leaves the other registers, the condition register and the memory (as
    fetched) alone. *)
Theorem halt_always_halts (s : CPU M) (i : Instruction) (m1 : M) :
  reachable s ->
  fetch s = Ok (i, m1) ->
  op i = HALT ->
  cond i = CondFlag.ALWAYS ->
  exists pc,
    pc_get (registers s) = Ok pc /\
    step s = Ok (mkCPU m1 (<[15%nat := MkRegister (pc + 1)]> (registers s))
                   (condition s) true).
Proof.
  intros Hr Hf Hop Hc.
  assert (Hp : CondFlag.truthy (CondFlag.and (condition s) (cond i)) = true).
  { rewrite Hc. apply condition_ok_always. apply reachable_condition_ok.
    assumption. }
  pose proof (reachable_register_file s Hr) as Hok.
  destruct (operands_total s i m1 Hok Hf) as (pc & left & src2 & Hpc & Hl & Hs2).
  exists pc. split; [assumption|].
  rewrite (step_satisfied s i m1 pc left src2) by assumption.
  cbv zeta. rewrite Hop. reflexivity.
Qed.

(** The memory word 0 is [HALT/NEVER r0,r0,r0[0]], so a CPU that
    fetches it does not halt: the step only advances the program counter,
    whatever the condition register holds. *)
Theorem zero_word_is_skipped (s : CPU M) (pc : Z) (m1 : M) :
  register_file_ok (registers s) = true ->
  pc_get (registers s) = Ok pc ->
  mem_get (memory s) pc = Ok (0, m1) ->
  step s = Ok (mkCPU m1 (<[15%nat := MkRegister (pc + 1)]> (registers s))
                 (condition s) (halted s)).
Proof.
  intros Hok Hpc Hm.
  assert (Hf : fetch s = Ok (halt_never, m1)).
  { unfold fetch. rewrite Hpc. cbn [bind]. rewrite Hm. cbn [bind].
    reflexivity. }
  destruct (step_unsatisfied s halt_never m1 Hok Hf) as (pc' & Hpc' & Hs).
  - unfold CondFlag.and. cbn [cond halt_never].
    unfold CondFlag.NEVER. rewrite Z.land_0_r. reflexivity.
  - assert (pc' = pc) as -> by congruence. exact Hs.
Qed.

End Predication.

(** ** Addressing relative to the program counter *)

Section Relative.

Context {M : Type} `{MemoryBus M}.

Lemma reg_get_inv (l : list Register) (i v : Z) :
  reg_get l i = Ok v ->
  exists k r, subscript (length l) i = Ok k /\ l !! k = Some r /\
              Register.get r = v.
Proof.
  unfold reg_get, getitem. intros Hg.
  destruct (subscript (length l) i) as [k|e] eqn:Ek; cbn [bind] in Hg; [|discriminate].
  destruct (l !! k) as [r|] eqn:Er; cbn [bind] in Hg; [|discriminate].
  injection Hg as <-. eauto.
Qed.

Lemma reg_get_selects_zero (l : list Register) (j : Z) :
  register_file_ok l = true -> subscript 16 j = Ok 0%nat ->
  reg_get l j = Ok 0.
Proof.
  intros Hok Hj.
  rewrite (reg_get_at l j 0%nat (MkZeroRegister 0)); [reflexivity| |].
  - rewrite (register_file_length l Hok). assumption.
  - apply register_file_zero. assumption.
Qed.

Lemma reg_get_selects_pc (l : list Register) (j pc : Z) :
  register_file_ok l = true -> subscript 16 j = Ok 15%nat ->
  pc_get l = Ok pc -> reg_get l j = Ok pc.
Proof.
  intros Hok Hj Hpc.
  rewrite (reg_get_at l j 15%nat (MkRegister pc)); [reflexivity| |].
  - rewrite (register_file_length l Hok). assumption.
  - apply pc_get_plain; assumption.
Qed.

(** X13: a jump as the assembler writes it, [ADD r15,r0,r15[offset]], lands
    relative to its own address: fetched at [pc] it leaves the program
    counter at [pc + offset], not at [pc + 1 + offset].  It is an ADD like
    any other, so it also overwrites the condition register, with the flag
    of the sign of the address jumped to. *)
Theorem relative_jump_lands (s : CPU M) (i : Instruction) (m1 : M) (pc : Z) :
  register_file_ok (registers s) = true ->
  fetch s = Ok (i, m1) ->
  CondFlag.truthy (CondFlag.and (condition s) (cond i)) = true ->
  op i = ADD ->
  subscript 16 (reg_target i) = Ok 15%nat ->
  subscript 16 (reg_src1 i) = Ok 0%nat ->
  subscript 16 (reg_src2 i) = Ok 15%nat ->
  pc_get (registers s) = Ok pc ->
  step s =
    Ok (mkCPU m1 (<[15%nat := MkRegister (pc + offset i)]> (registers s))
          (sign_flag (pc + offset i)) (halted s)).
Proof.
  intros Hok Hf Hp Hop Ht H1 H2 Hpc.
  pose proof (reg_get_selects_zero _ _ Hok H1) as Hl.
  pose proof (reg_get_selects_pc _ _ _ Hok H2 Hpc) as Hr.
  rewrite (step_satisfied s i m1 pc 0 pc) by assumption.
  cbv zeta. rewrite Hop.
  rewrite (exec_sign_flag ADD 0 (pc + offset i) (pc + offset i))
    by (cbn [ALU.ALU_OPS]; f_equal; lia).
  cbn [fst snd].
  pose proof (register_file_length _ Hok) as Hlen.
  rewrite (reg_put_at _ (reg_target i) _ 15%nat (MkRegister (pc + 1))).
  - cbn [bind Register.put]. rewrite list_insert_insert_eq. reflexivity.
  - rewrite length_insert, Hlen. assumption.
  - apply list_lookup_insert_eq. lia.
Qed.

(** X14: a load as the assembler writes it, [LOAD rk,r0,r15[offset]], reads
    the cell [offset] away from its own address: fetched at [pc] it asks
    the memory for address [pc + offset] and puts the word into the target
    register, with the program counter then at [pc + 1]; the condition
    register and [halted] stay as they were. *)
Theorem relative_load_reads
    (s : CPU M) (i : Instruction) (m1 m2 : M) (pc word : Z) (k : nat) :
  register_file_ok (registers s) = true ->
  fetch s = Ok (i, m1) ->
  CondFlag.truthy (CondFlag.and (condition s) (cond i)) = true ->
  op i = LOAD ->
  subscript 16 (reg_target i) = Ok k ->
  (0 < k < 15)%nat ->
  subscript 16 (reg_src1 i) = Ok 0%nat ->
  subscript 16 (reg_src2 i) = Ok 15%nat ->
  pc_get (registers s) = Ok pc ->
  mem_get m1 (pc + offset i) = Ok (word, m2) ->
  step s =
    Ok (mkCPU m2
          (<[k := MkRegister word]>
             (<[15%nat := MkRegister (pc + 1)]> (registers s)))
          (condition s) (halted s)).
Proof.
  intros Hok Hf Hp Hop Ht Hk H1 H2 Hpc Hm.
  pose proof (reg_get_selects_zero _ _ Hok H1) as Hl.
  pose proof (reg_get_selects_pc _ _ _ Hok H2 Hpc) as Hr.
  rewrite (step_satisfied s i m1 pc 0 pc) by assumption.
  cbv zeta. rewrite Hop.
  rewrite (exec_sign_flag LOAD 0 (pc + offset i) (pc + offset i))
    by (cbn [ALU.ALU_OPS]; f_equal; lia).
  cbn [fst]. rewrite Hm. cbn [bind].
  pose proof (register_file_length _ Hok) as Hlen.
  destruct (register_file_plain _ k Hok ltac:(lia)) as [v0 Hv0].
  rewrite (reg_put_at _ (reg_target i) _ k (MkRegister v0)).
  - reflexivity.
  - rewrite length_insert, Hlen. assumption.
  - rewrite list_lookup_insert_ne by lia. assumption.
Qed.

(** A store as the assembler writes it, [STORE rk,r0,r15[offset]],
    writes the value of register [k] to the cell [offset] away from its own
    address, [pc + offset], and changes no register but the program
    counter. *)
Theorem relative_store_writes
    (s : CPU M) (i : Instruction) (m1 m2 : M) (pc value : Z) (k : nat) :
  register_file_ok (registers s) = true ->
  fetch s = Ok (i, m1) ->
  CondFlag.truthy (CondFlag.and (condition s) (cond i)) = true ->
  op i = STORE ->
  subscript 16 (reg_target i) = Ok k ->
  k <> 15%nat ->
  subscript 16 (reg_src1 i) = Ok 0%nat ->
  subscript 16 (reg_src2 i) = Ok 15%nat ->
  pc_get (registers s) = Ok pc ->
  reg_get (registers s) (reg_target i) = Ok value ->
  mem_put m1 (pc + offset i) value = Ok m2 ->
  step s =
    Ok (mkCPU m2 (<[15%nat := MkRegister (pc + 1)]> (registers s))
          (condition s) (halted s)).
Proof.
  intros Hok Hf Hp Hop Ht Hk H1 H2 Hpc Hv Hm.
  pose proof (reg_get_selects_zero _ _ Hok H1) as Hl.
  pose proof (reg_get_selects_pc _ _ _ Hok H2 Hpc) as Hr.
  rewrite (step_satisfied s i m1 pc 0 pc) by assumption.
  cbv zeta. rewrite Hop.
  rewrite (exec_sign_flag STORE 0 (pc + offset i) (pc + offset i))
    by (cbn [ALU.ALU_OPS]; f_equal; lia).
  cbn [fst].
  pose proof (register_file_length _ Hok) as Hlen.
  apply reg_get_inv in Hv as (k' & r & Hk' & Hr' & Hg).
  rewrite Hlen in Hk'. assert (k' = k) as -> by congruence.
  rewrite (reg_get_at _ (reg_target i) k r).
  - rewrite Hg. cbn [bind]. rewrite Hm. reflexivity.
  - rewrite length_insert, Hlen. assumption.
  - rewrite list_lookup_insert_ne by congruence. assumption.
Qed.

End Relative.

(** ** Running *)

Section Running.

Context {M : Type} `{MemoryBus M}.

Lemma run_loop_halted (fuel : nat) (s s' : CPU M) :
  run_loop fuel s = Ok (Some s') -> halted s' = true.
Proof.
  revert s. induction fuel as [|fuel IH]; intros s Hr; simpl in Hr.
  - destruct (halted s) eqn:Eh; [|discriminate]. injection Hr as <-. assumption.
  - destruct (halted s) eqn:Eh; [injection Hr as <-; assumption|].
    destruct (step s) as [s1|e]; cbn [bind] in Hr; [|discriminate].
    apply (IH s1). assumption.
Qed.

(** X15: [run] comes back only from a halted CPU: whenever the loop ends
    without an exception, [halted] is set in the state it leaves. *)
Theorem run_returns_halted (fuel : nat) (s s' : CPU M) (from_addr : Z) :
  run fuel s from_addr = Ok (Some s') -> halted s' = true.
Proof.
  unfold run. intros Hr.
  destruct (reg_put (registers s) 15 from_addr) as [regs|e];
    cbn [bind] in Hr; [|discriminate].
  eapply run_loop_halted. exact Hr.
Qed.

Lemma run_loop_more_fuel (fuel extra : nat) (s s' : CPU M) :
  run_loop fuel s = Ok (Some s') -> run_loop (fuel + extra) s = Ok (Some s').
Proof.
  revert s. induction fuel as [|fuel IH]; intros s Hr; simpl in Hr.
  - destruct (halted s) eqn:Eh; [|discriminate].
    destruct extra; simpl; rewrite Eh; assumption.
  - simpl. destruct (halted s) eqn:Eh; [assumption|].
    destruct (step s) as [s1|e]; cbn [bind] in *; [|discriminate].
    apply IH. assumption.
Qed.

(** X16: [run] restarts a CPU whatever [halted] held: it clears the flag
    and sets the program counter before the loop, so the instruction at
    [from_addr] is executed even on a CPU that had halted.  With a HALT
    there the run ends after that one step, halted, with the program
    counter one past [from_addr] and everything else as it was. *)
Theorem run_restarts (fuel : nat) (s : CPU M) (from_addr : Z) (m1 : M) :
  register_file_ok (registers s) = true ->
  condition_ok (condition s) = true ->
  mem_get (memory s) from_addr = Ok (encode halt, m1) ->
  run (S fuel) s from_addr =
    Ok (Some (mkCPU m1
                (<[15%nat := MkRegister (from_addr + 1)]> (registers s))
                (condition s) true)).
Proof.
  intros Hok Hc Hm.
  unfold run. rewrite pc_put_plain by assumption. cbn [bind].
  set (regs0 := <[15%nat := MkRegister from_addr]> (registers s)).
  assert (Hok0 : register_file_ok regs0 = true)
    by (apply pc_after_increment; assumption).
  assert (Hpc0 : pc_get regs0 = Ok from_addr).
  { unfold pc_get.
    rewrite (reg_get_at regs0 15 15%nat (MkRegister from_addr)); [reflexivity| |].
    - rewrite (register_file_length _ Hok0). reflexivity.
    - apply list_lookup_insert_eq. rewrite (register_file_length _ Hok). lia. }
  set (s0 := mkCPU (memory s) regs0 (condition s) false).
  assert (Hf : fetch s0 = Ok (halt, m1)).
  { unfold fetch. cbn [registers memory s0]. rewrite Hpc0. cbn [bind].
    rewrite Hm. cbn [bind]. reflexivity. }
  assert (Hs : step s0 =
               Ok (mkCPU m1 (<[15%nat := MkRegister (from_addr + 1)]> (registers s))
                     (condition s) true)).
  { rewrite (step_satisfied s0 halt m1 from_addr 0 0); try assumption.
    - cbv zeta. cbn [op halt registers condition s0]. unfold regs0.
      rewrite list_insert_insert_eq. reflexivity.
    - cbn [condition s0 cond halt]. apply condition_ok_always. assumption.
    - cbn [registers s0 reg_src1 halt]. apply zero_register_reads_0. assumption.
    - cbn [registers s0 reg_src2 halt]. apply zero_register_reads_0. assumption. }
  cbn [run_loop halted s0]. fold s0. rewrite Hs. cbn [bind].
  destruct fuel; reflexivity.
Qed.

End Running.

(** ** A plain memory behind the CPU *)

Section PlainMemory.

Lemma Memory_get_Ok (m m1 : Memory) (addr word : Z) :
  Memory_get m addr = Ok (word, m1) ->
  m1 = m /\ 0 <= addr /\ cells m !! Z.to_nat addr = Some word.
Proof.
  unfold Memory_get, in_range. intros Hg.
  destruct (Z.leb_spec 0 addr); cbn [andb] in Hg; [|discriminate].
  destruct (addr <? Z.of_nat (length (cells m))); [|discriminate].
  destruct (cells m !! Z.to_nat addr) as [x|] eqn:Ex; [|discriminate].
  injection Hg as <- <-. auto.
Qed.

Lemma Memory_put_Ok (m m2 : Memory) (addr word : Z) :
  Memory_put m addr word = Ok m2 ->
  cells m2 = <[Z.to_nat addr := word]> (cells m).
Proof.
  unfold Memory_put. destruct (in_range m addr); [|discriminate].
  intros [= <-]. reflexivity.
Qed.

(** X17: on a plain memory only an executed STORE writes: the memory keeps
    its size through every successful step, and it is unchanged unless the
    step executed a STORE, which then replaces exactly one cell. *)
Theorem step_plain_memory (s s' : CPU Memory) (i : Instruction) (m1 : Memory) :
  fetch s = Ok (i, m1) ->
  step s = Ok s' ->
  length (cells (memory s')) = length (cells (memory s)) /\
  (memory s' = memory s \/
   (op i = STORE /\
    CondFlag.truthy (CondFlag.and (condition s) (cond i)) = true /\
    exists addr value,
      cells (memory s') = <[Z.to_nat addr := value]> (cells (memory s)))).
Proof.
  intros Hf Hs.
  pose proof Hf as Hf'.
  apply fetch_Ok in Hf' as (pc & w & _ & Hm & _).
  apply Memory_get_Ok in Hm as (-> & _ & _).
  destruct (step_Ok_inv s s' i (memory s) Hf Hs) as (pc' & regs1 & _ & _ & Hcase).
  destruct (CondFlag.truthy (CondFlag.and (condition s) (cond i))).
  - destruct Hcase as (left & src2 & _ & _ & Hop). cbv zeta in Hop.
    destruct (op i).
    + subst s'. auto.
    + destruct Hop as (v & m2 & regs2 & Hg & _ & ->).
      apply Memory_get_Ok in Hg as (-> & _ & _). auto.
    + destruct Hop as (v & m2 & _ & Hp & ->).
      apply Memory_put_Ok in Hp. cbn [memory]. rewrite Hp.
      split; [apply length_insert|]. right. eauto 6.
    + destruct Hop as (regs2 & _ & ->). auto.
    + destruct Hop as (regs2 & _ & ->). auto.
    + destruct Hop as (regs2 & _ & ->). auto.
    + destruct Hop as (regs2 & _ & ->). auto.
  - subst s'. auto.
Qed.

Lemma blank_lookup (m : Memory) (k : nat) (word : Z) :
  blank m = true -> cells m !! k = Some word -> word = 0.
Proof.
  unfold blank. intros Hb Hk.
  pose proof (forallb_lookup _ _ _ _ Hb Hk) as Hz.
  apply Z.eqb_eq in Hz. congruence.
Qed.

Lemma pc_get_incremented (l : list Register) (v : Z) :
  register_file_ok l = true ->
  pc_get (<[15%nat := MkRegister v]> l) = Ok v.
Proof.
  intros Hok. pose proof (register_file_length _ Hok) as Hlen.
  unfold pc_get.
  rewrite (reg_get_at _ 15 15%nat (MkRegister v)); [reflexivity | |].
  - rewrite length_insert, Hlen. reflexivity.
  - apply list_lookup_insert_eq. lia.
Qed.

(** A fetch outside a plain memory raises its error. *)
Lemma step_outside (s : CPU Memory) (pc : Z) :
  pc_get (registers s) = Ok pc ->
  in_range (memory s) pc = false ->
  step s = Raise OutOfRange.
Proof.
  intros Hpc Hr. unfold step, step_with. rewrite Hpc. cbn [bind].
  change (mem_get (memory s) pc) with (Memory_get (memory s) pc).
  unfold Memory_get. rewrite Hr. reflexivity.
Qed.

(** A step inside a blank memory skips the cell. *)
Lemma step_blank (s : CPU Memory) (pc : Z) :
  register_file_ok (registers s) = true ->
  blank (memory s) = true ->
  pc_get (registers s) = Ok pc ->
  in_range (memory s) pc = true ->
  step s = Ok (mkCPU (memory s) (<[15%nat := MkRegister (pc + 1)]> (registers s))
                 (condition s) (halted s)).
Proof.
  intros Hok Hb Hpc Hr.
  apply (zero_word_is_skipped s pc (memory s) Hok Hpc).
  change (mem_get (memory s) pc) with (Memory_get (memory s) pc).
  unfold Memory_get. rewrite Hr.
  unfold in_range in Hr. apply andb_true_iff in Hr as [H0 Hn].
  apply Z.leb_le in H0. apply Z.ltb_lt in Hn.
  destruct (lookup_lt_is_Some_2 (cells (memory s)) (Z.to_nat pc) ltac:(lia))
    as [w Hw].
  rewrite Hw. rewrite (blank_lookup _ _ _ Hb Hw). reflexivity.
Qed.

Lemma run_loop_blank_raises (fuel : nat) (s : CPU Memory) (pc : Z) :
  register_file_ok (registers s) = true ->
  blank (memory s) = true ->
  halted s = false ->
  pc_get (registers s) = Ok pc ->
  run_loop fuel s =
    if (fuel <=? cells_from (memory s) pc)%nat then Ok None
    else Raise OutOfRange.
Proof.
  revert s pc. induction fuel as [|fuel IH]; intros s pc Hok Hb Hh Hpc;
    cbn [run_loop]; rewrite Hh.
  - reflexivity.
  - destruct (in_range (memory s) pc) eqn:Hr.
    + rewrite (step_blank s pc Hok Hb Hpc Hr). cbn [bind].
      rewrite (IH _ (pc + 1)); cbn [registers memory halted]; try assumption.
      * unfold in_range in Hr. apply andb_true_iff in Hr as [H0 Hn].
        apply Z.leb_le in H0. apply Z.ltb_lt in Hn.
        unfold cells_from.
        rewrite (proj2 (Z.ltb_ge pc 0)) by lia.
        rewrite (proj2 (Z.ltb_ge (pc + 1) 0)) by lia.
        destruct (Nat.leb_spec fuel
                    (Z.to_nat (Z.of_nat (length (cells (memory s))) - (pc + 1))));
          destruct (Nat.leb_spec (S fuel)
                      (Z.to_nat (Z.of_nat (length (cells (memory s))) - pc)));
          try reflexivity; lia.
      * apply pc_after_increment. assumption.
      * apply pc_get_incremented. assumption.
    + rewrite (step_outside s pc Hpc Hr). cbn [bind].
      unfold in_range in Hr. apply andb_false_iff in Hr.
      unfold cells_from.
      destruct (Z.ltb_spec pc 0) as [Hneg | Hpos]; [reflexivity|].
      destruct Hr as [Hr | Hr].
      * apply Z.leb_gt in Hr. lia.
      * apply Z.ltb_ge in Hr.
        destruct (Nat.leb_spec (S fuel)
                    (Z.to_nat (Z.of_nat (length (cells (memory s))) - pc)));
          [lia | reflexivity].
Qed.

(** X18: running into blank memory never halts: it runs off the end.  On a
    plain memory whose cells all hold 0, [run] from [from_addr] skips every
    cell from there on, each reading as [HALT/NEVER], and then the fetch
    outside the memory raises the out-of-range error.  So the run takes as
    many steps as there are cells from [from_addr] on and the next one
    raises; within fewer steps it has not ended, and it never comes back
    with a halted CPU. *)
Theorem run_blank_never_halts (fuel : nat) (s : CPU Memory) (from_addr : Z) :
  register_file_ok (registers s) = true ->
  blank (memory s) = true ->
  run fuel s from_addr =
    (if (fuel <=? cells_from (memory s) from_addr)%nat then Ok None
     else Raise OutOfRange) /\
  forall s', run fuel s from_addr <> Ok (Some s').
Proof.
  intros Hok Hb.
  assert (Hrun : run fuel s from_addr =
                 if (fuel <=? cells_from (memory s) from_addr)%nat then Ok None
                 else Raise OutOfRange).
  { unfold run. rewrite pc_put_plain by assumption. cbn [bind].
    rewrite (run_loop_blank_raises fuel _ from_addr);
      cbn [registers memory halted]; try reflexivity; try assumption.
    - apply pc_after_increment. assumption.
    - apply pc_get_incremented. assumption. }
  split; [exact Hrun|].
  intros s'. rewrite Hrun.
  destruct (fuel <=? cells_from (memory s) from_addr)%nat; discriminate.
Qed.

End PlainMemory.

(** ** Put and get on the register file *)

Section RegisterFile.

(** X19: reading after a write, through Python subscripts: after a [put]
    of [v] on register [i], a [get] on register [j] returns [v] when both
    subscripts select the same register and it is not register 0, returns
    0 when they select register 0, and returns what [j] held before when
    they select different registers; [-1] and [15] select the same one. *)
Theorem reg_put_then_get
    (l l' : list Register) (i j v : Z) (ki kj : nat) :
  register_file_ok l = true ->
  reg_put l i v = Ok l' ->
  subscript 16 i = Ok ki ->
  subscript 16 j = Ok kj ->
  reg_get l' j =
    if (kj =? ki)%nat then Ok (if (ki =? 0)%nat then 0 else v)
    else reg_get l j.
Proof.
  intros Hok Hp Hi Hj.
  pose proof (register_file_length l Hok) as Hlen.
  pose proof (subscript_Ok _ _ _ Hi) as [Hki _].
  pose proof (subscript_Ok _ _ _ Hj) as [Hkj _].
  apply reg_put_Ok in Hp as (k & r & Hk & Hr & ->).
  rewrite Hlen in Hk. assert (k = ki) as -> by congruence.
  destruct (Nat.eqb_spec kj ki) as [-> | Hne].
  - rewrite (reg_get_at _ j ki (Register.put r v)).
    + destruct (Nat.eqb_spec ki 0) as [-> | Hnz].
      * rewrite (register_file_zero l Hok) in Hr. injection Hr as <-.
        reflexivity.
      * destruct (register_file_plain l ki Hok ltac:(lia)) as [v0 Hv0].
        rewrite Hv0 in Hr. injection Hr as <-. reflexivity.
    + rewrite length_insert, Hlen. assumption.
    + apply list_lookup_insert_eq. lia.
  - unfold reg_get, getitem. rewrite length_insert, Hlen, Hj. cbn [bind].
    rewrite list_lookup_insert_ne by congruence. reflexivity.
Qed.

End RegisterFile.

(** ** Names of the condition flags *)

Section FlagNames.

Lemma legal_cases (c : Z) :
  CondFlag.legal c ->
  c = 0 \/ c = 1 \/ c = 2 \/ c = 3 \/ c = 4 \/ c = 5 \/ c = 6 \/ c = 7 \/
  c = 8 \/ c = 9 \/ c = 10 \/ c = 11 \/ c = 12 \/ c = 13 \/ c = 14 \/ c = 15.
Proof. unfold CondFlag.legal. lia. Qed.

(** X20: the text of a predicate assembles back to the predicate: for each
    of the sixteen combinations of flags, [to_flag] applied to the string
    that [CondFlag.__str__] renders returns that combination; so distinct
    predicates never render alike. *)
Theorem to_flag_str (c : CondFlag) :
  CondFlag.legal c -> to_flag (CondFlag_str c) = Good c.
Proof.
  intros Hc.
  destruct (legal_cases c Hc)
    as [-> | [-> | [-> | [-> | [-> | [-> | [-> | [-> |
       [-> | [-> | [-> | [-> | [-> | [-> | [-> | ->]]]]]]]]]]]]]]];
    vm_compute; reflexivity.
Qed.

End FlagNames.

Section ToFlag.

Lemma flag_letter_cases (c : Ascii.ascii) :
  flag_letter c = true ->
  String c EmptyString = "M" \/ String c EmptyString = "Z" \/
  String c EmptyString = "P" \/ String c EmptyString = "V".
Proof.
  unfold flag_letter. cbn [existsb].
  rewrite !orb_true_iff, !String.eqb_eq. intuition discriminate.
Qed.

Lemma to_flag_names (m : string) :
  existsb (String.eqb m) (map fst CondFlag_members) = true ->
  m = "M" \/ m = "Z" \/ m = "P" \/ m = "V" \/ m = "NEVER" \/ m = "ALWAYS".
Proof.
  cbn [existsb map fst CondFlag_members].
  rewrite !orb_true_iff, !String.eqb_eq. intuition discriminate.
Qed.

Lemma lor_legal (a b : Z) :
  CondFlag.legal a -> CondFlag.legal b -> CondFlag.legal (Z.lor a b).
Proof.
  intros Ha Hb.
  destruct (legal_cases a Ha)
    as [-> | [-> | [-> | [-> | [-> | [-> | [-> | [-> |
       [-> | [-> | [-> | [-> | [-> | [-> | [-> | ->]]]]]]]]]]]]]]];
    destruct (legal_cases b Hb)
      as [-> | [-> | [-> | [-> | [-> | [-> | [-> | [-> |
         [-> | [-> | [-> | [-> | [-> | [-> | [-> | ->]]]]]]]]]]]]]]];
    unfold CondFlag.legal; split; vm_compute; discriminate.
Qed.

Lemma CondFlag_getitem_legal (name : string) (f : CondFlag) :
  CondFlag_getitem name = Good f -> CondFlag.legal f.
Proof.
  unfold CondFlag_getitem, CondFlag_members. cbn [List.find fst snd].
  repeat (destruct (String.eqb _ name);
          [intros [= <-]; unfold CondFlag.legal; split; vm_compute; discriminate|]).
  discriminate.
Qed.

Lemma to_flag_loop_legal (m : string) (acc f : CondFlag) :
  CondFlag.legal acc -> to_flag_loop m acc = Good f -> CondFlag.legal f.
Proof.
  revert acc. induction m as [|c rest IH]; intros acc Ha Hl; cbn in Hl.
  - injection Hl as <-. assumption.
  - destruct (CondFlag_getitem (String c EmptyString)) as [g|e] eqn:Eg;
      cbn [asm_bind] in Hl; [|discriminate].
    apply (IH (Z.lor acc g)); [|assumption].
    apply lor_legal; [assumption|].
    eapply CondFlag_getitem_legal. eassumption.
Qed.

(** Whatever [to_flag] returns is a combination of the four flags. *)
Lemma to_flag_legal (m : string) (f : CondFlag) :
  to_flag m = Good f -> CondFlag.legal f.
Proof.
  unfold to_flag.
  destruct (existsb (String.eqb m) (map fst CondFlag_members)).
  - apply CondFlag_getitem_legal.
  - apply to_flag_loop_legal. unfold CondFlag.legal, CondFlag.NEVER. lia.
Qed.

Lemma to_flag_loop_letters (m : string) (acc : CondFlag) :
  letters_only m = true ->
  exists f,
    to_flag_loop m acc = Good f /\
    Z.testbit f 0 = Z.testbit acc 0 || occurs "M" m /\
    Z.testbit f 1 = Z.testbit acc 1 || occurs "Z" m /\
    Z.testbit f 2 = Z.testbit acc 2 || occurs "P" m /\
    Z.testbit f 3 = Z.testbit acc 3 || occurs "V" m.
Proof.
  revert acc. induction m as [|c rest IH]; intros acc Hl.
  - exists acc. cbn. rewrite !orb_false_r. auto.
  - cbn [letters_only] in Hl. apply andb_true_iff in Hl as [Hc Hr].
    cbn [to_flag_loop occurs].
    destruct (flag_letter_cases c Hc) as [-> | [-> | [-> | ->]]];
      cbn [asm_bind];
      match goal with
      | |- context [CondFlag_getitem ?n] =>
          let g := eval vm_compute in (CondFlag_getitem n) in
          change (CondFlag_getitem n) with g
      end;
      cbn [asm_bind];
      match goal with
      | |- context [to_flag_loop rest ?a] =>
          destruct (IH a Hr) as (f & Hf & H0 & H1 & H2 & H3)
      end;
      exists f; rewrite Hf, H0, H1, H2, H3, !Z.lor_spec;
      cbn; repeat split;
      rewrite ?orb_false_r, ?orb_true_r, ?orb_false_l, ?orb_assoc;
      reflexivity.
Qed.

(** X21: a predicate written as a run of the letters M, Z, P and V is the
    union of its letters: [to_flag] succeeds on it, the result is a legal
    combination, and each flag is set exactly when its letter occurs; so
    the order of the letters and their repetition do not matter. *)
Theorem to_flag_letters (m : string) :
  letters_only m = true ->
  exists f,
    to_flag m = Good f /\
    CondFlag.legal f /\
    Z.testbit f 0 = occurs "M" m /\
    Z.testbit f 1 = occurs "Z" m /\
    Z.testbit f 2 = occurs "P" m /\
    Z.testbit f 3 = occurs "V" m.
Proof.
  intros Hl.
  destruct (to_flag_loop_letters m CondFlag.NEVER Hl) as (f & Hf & H0 & H1 & H2 & H3).
  assert (Ht : to_flag m = Good f).
  { unfold to_flag.
    destruct (existsb (String.eqb m) (map fst CondFlag_members)) eqn:En;
      [|assumption].
    destruct (to_flag_names m En) as [-> | [-> | [-> | [-> | [-> | ->]]]]];
      try (vm_compute in Hf; injection Hf as <-; reflexivity);
      vm_compute in Hl; discriminate Hl. }
  exists f. split; [assumption|]. split; [eapply to_flag_legal; eassumption|].
  cbn in H0, H1, H2, H3. auto.
Qed.

Lemma to_flag_loop_bad (m : string) (acc : CondFlag) :
  letters_only m = false ->
  exists c, flag_letter c = false /\ occurs (String c EmptyString) m = true /\
            to_flag_loop m acc = Bad (KeyError (Some (String c EmptyString))).
Proof.
  revert acc. induction m as [|c rest IH]; intros acc Hl; [discriminate|].
  cbn [letters_only] in Hl. cbn [to_flag_loop occurs].
  destruct (flag_letter c) eqn:Ec.
  - cbn [andb] in Hl.
    destruct (flag_letter_cases c Ec) as [E | [E | [E | E]]]; rewrite E;
      match goal with
      | |- context [CondFlag_getitem ?n] =>
          let g := eval vm_compute in (CondFlag_getitem n) in
          change (CondFlag_getitem n) with g
      end;
      cbn [asm_bind];
      match goal with
      | |- context [to_flag_loop rest ?a] =>
          destruct (IH a Hl) as (c' & Hc' & Ho & Hb)
      end;
      exists c'; rewrite Ho, Hb, orb_true_r; auto.
  - exists c. split; [assumption|]. rewrite String.eqb_refl. split; [reflexivity|].
    assert (Hg : CondFlag_getitem (String c EmptyString) =
                 Bad (KeyError (Some (String c EmptyString)))).
    { unfold flag_letter in Ec. cbn [existsb] in Ec.
      rewrite !orb_false_iff in Ec. destruct Ec as (EM & EZ & EP & EV & _).
      unfold CondFlag_getitem, CondFlag_members. cbn [List.find fst snd].
      rewrite (String.eqb_sym "M"), EM, (String.eqb_sym "Z"), EZ,
        (String.eqb_sym "P"), EP, (String.eqb_sym "V"), EV.
      assert (HN : String.eqb "NEVER" (String c EmptyString) = false)
        by (cbn [String.eqb];
            match goal with |- (if ?b then _ else _) = _ => destruct b end;
            reflexivity).
      assert (HA : String.eqb "ALWAYS" (String c EmptyString) = false)
        by (cbn [String.eqb];
            match goal with |- (if ?b then _ else _) = _ => destruct b end;
            reflexivity).
      rewrite HN, HA. reflexivity. }
    rewrite Hg. reflexivity.
Qed.

(** X22: the only failure of [to_flag] is a [KeyError] for a letter that is
    no flag: a mnemonic that is neither the name of a member (M, Z, P, V,
    NEVER, ALWAYS) nor made of the letters M, Z, P, V alone raises
    [KeyError] with a letter of the mnemonic that is no flag; "NP" fails on
    "N". *)
Theorem to_flag_unknown_letter (m : string) :
  existsb (String.eqb m) (map fst CondFlag_members) = false ->
  letters_only m = false ->
  exists c,
    flag_letter c = false /\
    occurs (String c EmptyString) m = true /\
    to_flag m = Bad (KeyError (Some (String c EmptyString))).
Proof.
  intros Hn Hl. unfold to_flag. rewrite Hn.
  apply to_flag_loop_bad. assumption.
Qed.

End ToFlag.

(** ** assembler_phase2.py *)

Section AssemblerFacts.

Variable py_int : string -> Z -> asm_result Z.
Variable parse_line : string -> asm_result Fields.

Lemma NAMED_REGS_range (name : option string) (r : Z) :
  NAMED_REGS_getitem name = Good r -> 0 <= r <= 15.
Proof.
  unfold NAMED_REGS_getitem. destruct name as [n|]; [|discriminate].
  destruct (NAMED_REGS !! n) as [r'|] eqn:En; [|discriminate].
  intros [= <-].
  apply elem_of_list_to_map_2 in En.
  repeat (apply elem_of_cons in En as [En | En];
          [injection En as _ ->; lia|]).
  apply elem_of_nil in En. contradiction.
Qed.

Lemma asm_bind_Good {A B : Type} (m : asm_result A) (k : A -> asm_result B) (b : B) :
  asm_bind m k = Good b -> exists a, m = Good a /\ k a = Good b.
Proof. destruct m as [a|e]; cbn; [eauto | discriminate]. Qed.

Lemma instruction_from_dict_legal
    (d : gmap string (option string)) (i : Instruction) :
  instruction_from_dict py_int d = Good i ->
  CondFlag.legal (cond i) /\
  0 <= reg_target i <= 15 /\ 0 <= reg_src1 i <= 15 /\ 0 <= reg_src2 i <= 15.
Proof.
  unfold instruction_from_dict. intros Hd.
  apply asm_bind_Good in Hd as (on & _ & Hd).
  apply asm_bind_Good in Hd as (o & _ & Hd).
  apply asm_bind_Good in Hd as (pn & _ & Hd).
  apply asm_bind_Good in Hd as (p & Hp & Hd).
  apply asm_bind_Good in Hd as (tn & _ & Hd).
  apply asm_bind_Good in Hd as (t & Ht & Hd).
  apply asm_bind_Good in Hd as (s1n & _ & Hd).
  apply asm_bind_Good in Hd as (s1 & H1 & Hd).
  apply asm_bind_Good in Hd as (s2n & _ & Hd).
  apply asm_bind_Good in Hd as (s2 & H2 & Hd).
  apply asm_bind_Good in Hd as (ot & _ & Hd).
  apply asm_bind_Good in Hd as (off & _ & Hd).
  injection Hd as <-. cbn [cond reg_target reg_src1 reg_src2].
  split.
  - destruct pn as [m|]; [|discriminate]. eapply to_flag_legal. eassumption.
  - split; [|split]; eapply NAMED_REGS_range; eassumption.
Qed.

(** X23: an instruction built from the fields of a source line always has
    register numbers in 0..15 and a legal predicate, whatever the line said:
    a register that is not one of r0..r15, zero or pc, an opcode that is no
    member name, or a predicate letter that is no flag raises instead.  Only
    the offset is taken as it comes. *)
Theorem instruction_from_dict_fields
    (d : gmap string (option string)) (i : Instruction) :
  instruction_from_dict py_int d = Good i ->
  CondFlag.legal (cond i) /\
  0 <= reg_target i <= 15 /\ 0 <= reg_src1 i <= 15 /\ 0 <= reg_src2 i <= 15.
Proof. exact (instruction_from_dict_legal d i). Qed.

Lemma signed_field_4 (r : Z) : 0 <= r <= 15 -> signed_field 4 r = signed4 r.
Proof.
  intros Hr. unfold signed_field. change (2 ^ 4) with 16.
  rewrite Z.mod_small by lia. reflexivity.
Qed.

(** X24: the word that the assembler makes of a source line decodes to the
    opcode and the predicate of the line, with each register number read
    as a signed 4-bit value and with the offset cut to 10 bits: an offset
    outside -512..511 is assembled without a complaint and comes back
    wrapped. *)
Theorem assembled_instruction_decodes
    (d : gmap string (option string)) (i : Instruction) :
  instruction_from_dict py_int d = Good i ->
  decode (encode i) =
    Ok (mkInstruction (op i) (cond i)
          (signed4 (reg_target i)) (signed4 (reg_src1 i))
          (signed4 (reg_src2 i)) (signed_field 10 (offset i))).
Proof.
  intros Hd.
  destruct (instruction_from_dict_legal d i Hd) as (Hc & Ht & H1 & H2).
  rewrite decode_encode_truncated by assumption.
  unfold truncated. rewrite !signed_field_4 by assumption. reflexivity.
Qed.

Lemma assemble_loop_spec (lines : list string) (count : nat) (acc : list Z) :
  assemble_loop py_int parse_line lines count acc =
    if (ERROR_LIMIT <?
          count + length (List.filter (failing py_int parse_line) lines))%nat
       && negb (ERROR_LIMIT <? count)%nat
       || (ERROR_LIMIT <? count)%nat && negb (Nat.eqb (length lines) 0)
    then Abandoned
    else ObjectCode (acc ++ flat_map (words_of py_int parse_line) lines).
Proof.
  revert count acc. induction lines as [|line rest IH]; intros count acc.
  - cbn. rewrite Nat.add_0_r, andb_negb_r, andb_false_r, app_nil_r.
    reflexivity.
  - cbn [assemble_loop List.filter flat_map length Nat.eqb negb].
    unfold failing, words_of.
    destruct (assemble_line py_int parse_line line) as [[word|]|e].
    + destruct (Nat.ltb_spec ERROR_LIMIT count) as [Hgt|Hle].
      * rewrite andb_true_r, orb_true_r. reflexivity.
      * rewrite IH. rewrite andb_true_r, andb_false_l, orb_false_r.
        rewrite (proj2 (Nat.ltb_ge ERROR_LIMIT count)) by assumption.
        cbn [negb andb orb]. rewrite andb_true_r, orb_false_r.
        rewrite <- app_assoc. reflexivity.
    + destruct (Nat.ltb_spec ERROR_LIMIT count) as [Hgt|Hle].
      * rewrite andb_true_r, orb_true_r. reflexivity.
      * rewrite IH. rewrite andb_true_r, andb_false_l, orb_false_r.
        rewrite (proj2 (Nat.ltb_ge ERROR_LIMIT count)) by assumption.
        cbn [negb andb orb]. rewrite andb_true_r, orb_false_r.
        reflexivity.
    + cbn [length]. rewrite Nat.add_succ_r.
      destruct (Nat.ltb_spec ERROR_LIMIT (S count)) as [Hgt|Hle].
      * destruct (Nat.ltb_spec ERROR_LIMIT count) as [Hgt'|Hle'].
        -- rewrite andb_true_r, orb_true_r. reflexivity.
        -- rewrite andb_true_r, orb_false_r.
           rewrite (proj2 (Nat.ltb_lt ERROR_LIMIT _)) by lia. reflexivity.
      * rewrite IH.
        rewrite (proj2 (Nat.ltb_ge ERROR_LIMIT (S count))) by assumption.
        rewrite (proj2 (Nat.ltb_ge ERROR_LIMIT count)) by lia.
        cbn [negb andb orb]. rewrite !andb_true_r, !orb_false_r.
        reflexivity.
Qed.

(** X25: [assemble] tolerates up to five faulty lines.  If at most five
    lines of the source raise (a syntax error, an unknown name, a malformed
    number), the result is the object code of the other lines in order, one
    word for each instruction or DATA line and none for a comment, the
    faulty lines being dropped; with more than five faulty lines the
    assembler gives up. *)
Theorem assemble_tolerates_errors (lines : list string) :
  assemble py_int parse_line lines =
    if (ERROR_LIMIT <? length (List.filter (failing py_int parse_line) lines))%nat
    then Abandoned
    else ObjectCode (flat_map (words_of py_int parse_line) lines).
Proof.
  unfold assemble. rewrite assemble_loop_spec.
  cbn [Nat.add Nat.ltb Nat.leb ERROR_LIMIT negb andb orb app].
  rewrite andb_true_r, orb_false_r. reflexivity.
Qed.

End AssemblerFacts.

(** ** duck_machine.py: loading an object file *)

Section LoaderFacts.

Variable int_of_line : string -> result Z.

Lemma load_loop_cells (file : list string) (words : list Z) (n : nat) (m : Memory) :
  words_of_file int_of_line file = Ok words ->
  (n + length words <= length (cells m))%nat ->
  load_loop int_of_line file (Z.of_nat n) m =
    Ok (mkMemory (take n (cells m) ++ words ++
                  drop (n + length words) (cells m))).
Proof.
  revert words n m. induction file as [|line rest IH]; intros words n m Hw Hn.
  - cbn in Hw. injection Hw as <-. cbn [load_loop app length].
    rewrite Nat.add_0_r, take_drop. destruct m. reflexivity.
  - cbn [words_of_file] in Hw. cbn [load_loop].
    destruct (int_of_line line) as [word|e]; cbn [bind] in *; [|discriminate].
    destruct (words_of_file int_of_line rest) as [ws|e] eqn:Ews;
      cbn [bind] in Hw; [|discriminate].
    injection Hw as <-. cbn [length] in Hn.
    cbn [mem_put Memory_bus]. unfold Memory_put, in_range.
    rewrite (proj2 (Z.leb_le 0 (Z.of_nat n))) by lia.
    rewrite (proj2 (Z.ltb_lt (Z.of_nat n) (Z.of_nat (length (cells m))))) by lia.
    cbn [andb bind]. rewrite Nat2Z.id.
    replace (Z.of_nat n + 1) with (Z.of_nat (S n)) by lia.
    rewrite (IH ws (S n)); [|reflexivity|cbn [cells]; rewrite length_insert; lia].
    cbn [cells length]. f_equal. f_equal.
    rewrite (take_S_r _ _ word) by (apply list_lookup_insert_eq; lia).
    rewrite take_insert_ge by lia.
    rewrite drop_insert_lt by lia.
    rewrite <- app_assoc. cbn [app].
    replace (S n + length ws)%nat with (n + S (length ws))%nat by lia.
    reflexivity.
Qed.

(** X26: [load] copies an object file to the start of a plain memory: if
    every line is a number and the file is no longer than the memory, the
    word of line [k] ends at address [k], and the cells after the last line
    keep what they held. *)
Theorem load_fills_memory (file : list string) (words : list Z) (m : Memory) :
  words_of_file int_of_line file = Ok words ->
  (length words <= length (cells m))%nat ->
  load int_of_line file m =
    Ok (mkMemory (words ++ drop (length words) (cells m))).
Proof.
  intros Hw Hn. unfold load.
  exact (load_loop_cells file words 0 m Hw Hn).
Qed.

Lemma load_loop_overflow (file : list string) (words : list Z) (n : nat) (m : Memory) :
  words_of_file int_of_line file = Ok words ->
  (n <= length (cells m))%nat ->
  (length (cells m) < n + length words)%nat ->
  load_loop int_of_line file (Z.of_nat n) m = Raise OutOfRange.
Proof.
  revert words n m. induction file as [|line rest IH]; intros words n m Hw Hn Hlt.
  - cbn in Hw. injection Hw as <-. cbn in Hlt. lia.
  - cbn [words_of_file] in Hw. cbn [load_loop].
    destruct (int_of_line line) as [word|e]; cbn [bind] in *; [|discriminate].
    destruct (words_of_file int_of_line rest) as [ws|e] eqn:Ews;
      cbn [bind] in Hw; [|discriminate].
    injection Hw as <-. cbn [length] in Hlt.
    cbn [mem_put Memory_bus]. unfold Memory_put, in_range.
    rewrite (proj2 (Z.leb_le 0 (Z.of_nat n))) by lia.
    destruct (Z.ltb_spec (Z.of_nat n) (Z.of_nat (length (cells m)))) as [Hin|Hout];
      cbn [andb bind]; [|reflexivity].
    replace (Z.of_nat n + 1) with (Z.of_nat (S n)) by lia.
    apply (IH ws (S n)); [reflexivity| |];
      cbn [cells]; rewrite length_insert; lia.
Qed.

(** X27: an object file with more lines than the memory has cells does not
    load: when every line is a number, [load] raises the memory's
    out-of-range error (after filling the memory with the lines that fit). *)
Theorem load_overflows (file : list string) (words : list Z) (m : Memory) :
  words_of_file int_of_line file = Ok words ->
  (length (cells m) < length words)%nat ->
  load int_of_line file m = Raise OutOfRange.
Proof.
  intros Hw Hlt. unfold load.
  apply (load_loop_overflow file words 0 m Hw); [lia | exact Hlt].
Qed.

End LoaderFacts.

(** ** The further theorems at work on examples *)

Lemma exec_overflow_iff_witness :
  ~ (ADD = DIV /\ 2 = 0) /\
  exists r, ALU.ALU_OPS ADD 1 2 = Ok r /\ ALU.exec ADD 1 2 = (r, sign_flag r).
Proof.
  assert (Hn : ~ (ADD = DIV /\ 2 = 0)) by (intros [Hd _]; discriminate Hd).
  split; [exact Hn|].
  apply (proj2 (exec_overflow_iff ADD 1 2)). exact Hn.
Defined.

Lemma step_register_frame_witness :
  exists s',
    step adding_machine = Ok s' /\
    length (registers s') = length (registers adding_machine) /\
    registers s' !! 1%nat = registers adding_machine !! 1%nat.
Proof.
  eexists. split.
  - lazy. reflexivity.
  - apply (step_register_frame adding_machine _ add_to_zero
             (memory adding_machine) 1).
    + vm_compute. reflexivity.
    + vm_compute. reflexivity.
    + lia.
    + vm_compute. discriminate.
Defined.

Lemma step_memory_frame_witness :
  exists s',
    step adding_machine = Ok s' /\ memory s' = memory adding_machine.
Proof.
  eexists. split.
  - lazy. reflexivity.
  - apply (step_memory_frame adding_machine _ add_to_zero
             (memory adding_machine)).
    + vm_compute. reflexivity.
    + vm_compute. reflexivity.
    + right. split; discriminate.
Defined.

Lemma step_halted_witness :
  exists s',
    step halting_machine = Ok s' /\
    halted s' =
      halted halting_machine ||
      (CondFlag.truthy (CondFlag.and (condition halting_machine) (cond halt)) &&
       match op halt with HALT => true | _ => false end).
Proof.
  eexists. split.
  - lazy. reflexivity.
  - apply (step_halted halting_machine _ halt (memory halting_machine)).
    + vm_compute. reflexivity.
    + vm_compute. reflexivity.
Defined.

Lemma reachable_condition_witness :
  condition_ok (condition halting_machine) = true.
Proof.
  apply (reachable_condition halting_machine). apply reachable_init.
Defined.

Lemma halt_always_halts_witness :
  exists pc,
    pc_get (registers halting_machine) = Ok pc /\
    step halting_machine =
      Ok (mkCPU (memory halting_machine)
            (<[15%nat := MkRegister (pc + 1)]> (registers halting_machine))
            (condition halting_machine) true).
Proof.
  apply (halt_always_halts halting_machine halt (memory halting_machine)).
  - apply reachable_init.
  - vm_compute. reflexivity.
  - reflexivity.
  - reflexivity.
Defined.

Lemma zero_word_is_skipped_witness :
  step blank_machine =
    Ok (mkCPU (memory blank_machine)
          (<[15%nat := MkRegister (0 + 1)]> (registers blank_machine))
          (condition blank_machine) (halted blank_machine)).
Proof.
  apply (zero_word_is_skipped blank_machine 0 (memory blank_machine)).
  - reflexivity.
  - reflexivity.
  - reflexivity.
Defined.

Lemma relative_jump_lands_witness :
  step looping_machine =
    Ok (mkCPU (memory looping_machine)
          (<[15%nat := MkRegister (0 + offset loop_back_decoded)]>
             (registers looping_machine))
          (sign_flag (0 + offset loop_back_decoded)) (halted looping_machine)).
Proof.
  apply (relative_jump_lands looping_machine loop_back_decoded
           (memory looping_machine) 0).
  - reflexivity.
  - vm_compute. reflexivity.
  - reflexivity.
  - reflexivity.
  - reflexivity.
  - reflexivity.
  - reflexivity.
  - reflexivity.
Defined.

Lemma relative_load_reads_witness :
  step loading_machine =
    Ok (mkCPU (memory loading_machine)
          (<[1%nat := MkRegister 42]>
             (<[15%nat := MkRegister (0 + 1)]> (registers loading_machine)))
          (condition loading_machine) (halted loading_machine)).
Proof.
  apply (relative_load_reads loading_machine load_relative_decoded
           (memory loading_machine) (memory loading_machine) 0 42 1).
  - reflexivity.
  - vm_compute. reflexivity.
  - reflexivity.
  - reflexivity.
  - reflexivity.
  - lia.
  - reflexivity.
  - reflexivity.
  - reflexivity.
  - reflexivity.
Defined.

Lemma relative_store_writes_witness :
  step storing_machine =
    Ok (mkCPU (mkMemory [encode store_relative; 0])
          (<[15%nat := MkRegister (0 + 1)]> (registers storing_machine))
          (condition storing_machine) (halted storing_machine)).
Proof.
  apply (relative_store_writes storing_machine store_relative_decoded
           (memory storing_machine) (mkMemory [encode store_relative; 0])
           0 0 1).
  - reflexivity.
  - vm_compute. reflexivity.
  - reflexivity.
  - reflexivity.
  - reflexivity.
  - lia.
  - reflexivity.
  - reflexivity.
  - reflexivity.
  - reflexivity.
  - reflexivity.
Defined.

Lemma step_store_of_pc_witness :
  step pc_storing_machine =
    Ok (mkCPU (mkMemory [encode store_pc; 1])
          (<[15%nat := MkRegister (0 + 1)]> (registers pc_storing_machine))
          (condition pc_storing_machine) (halted pc_storing_machine)).
Proof.
  apply (step_store_of_pc pc_storing_machine store_pc_decoded
           (memory pc_storing_machine) (mkMemory [encode store_pc; 1]) 0 0 0).
  - reflexivity.
  - vm_compute. reflexivity.
  - reflexivity.
  - reflexivity.
  - reflexivity.
  - reflexivity.
  - reflexivity.
  - reflexivity.
  - reflexivity.
Defined.

Lemma run_returns_halted_witness :
  exists s', run 1 halting_machine 0 = Ok (Some s') /\ halted s' = true.
Proof.
  eexists. split.
  - lazy. reflexivity.
  - apply (run_returns_halted 1 halting_machine _ 0). vm_compute. reflexivity.
Defined.

Lemma run_restarts_witness :
  run 1 halting_machine 0 =
    Ok (Some (mkCPU (memory halting_machine)
                (<[15%nat := MkRegister (0 + 1)]> (registers halting_machine))
                (condition halting_machine) true)).
Proof.
  apply (run_restarts 0 halting_machine 0 (memory halting_machine)).
  - reflexivity.
  - reflexivity.
  - reflexivity.
Defined.

Lemma step_plain_memory_witness :
  exists s',
    step storing_machine = Ok s' /\
    length (cells (memory s')) = length (cells (memory storing_machine)) /\
    (memory s' = memory storing_machine \/
     (op store_relative_decoded = STORE /\
      CondFlag.truthy
        (CondFlag.and (condition storing_machine) (cond store_relative_decoded)) =
        true /\
      exists addr value,
        cells (memory s') =
          <[Z.to_nat addr := value]> (cells (memory storing_machine)))).
Proof.
  eexists. split.
  - lazy. reflexivity.
  - apply (step_plain_memory storing_machine _ store_relative_decoded
             (memory storing_machine)).
    + vm_compute. reflexivity.
    + vm_compute. reflexivity.
Defined.

Lemma run_blank_never_halts_witness :
  run 2 blank_machine 0 = Ok None /\
  run 3 blank_machine 0 = Raise OutOfRange /\
  forall s', run 3 blank_machine 0 <> Ok (Some s').
Proof.
  split; [|split].
  - apply (proj1 (run_blank_never_halts 2 blank_machine 0 eq_refl eq_refl)).
  - apply (proj1 (run_blank_never_halts 3 blank_machine 0 eq_refl eq_refl)).
  - apply (proj2 (run_blank_never_halts 3 blank_machine 0 eq_refl eq_refl)).
Defined.

Lemma reg_put_then_get_witness :
  exists l',
    reg_put (registers adding_machine) (-1) 9 = Ok l' /\
    reg_get l' 15 =
      (if (15 =? 15)%nat then Ok (if (15 =? 0)%nat then 0 else 9)
       else reg_get (registers adding_machine) 15).
Proof.
  eexists. split.
  - lazy. reflexivity.
  - apply (reg_put_then_get (registers adding_machine) _ (-1) 15 9 15 15).
    + reflexivity.
    + vm_compute. reflexivity.
    + reflexivity.
    + reflexivity.
Defined.

Lemma to_flag_str_witness :
  CondFlag.legal 5 /\ CondFlag_str 5 = "MP" /\ to_flag (CondFlag_str 5) = Good 5.
Proof.
  assert (Hl : CondFlag.legal 5) by (unfold CondFlag.legal; lia).
  split; [exact Hl|]. split; [reflexivity|].
  apply (to_flag_str 5). exact Hl.
Defined.

Lemma to_flag_letters_witness :
  exists f,
    to_flag "PZ" = Good f /\
    CondFlag.legal f /\
    Z.testbit f 0 = occurs "M" "PZ" /\
    Z.testbit f 1 = occurs "Z" "PZ" /\
    Z.testbit f 2 = occurs "P" "PZ" /\
    Z.testbit f 3 = occurs "V" "PZ".
Proof. apply (to_flag_letters "PZ"). reflexivity. Defined.

Lemma to_flag_unknown_letter_witness :
  exists c,
    flag_letter c = false /\
    occurs (String c EmptyString) "NP" = true /\
    to_flag "NP" = Bad (KeyError (Some (String c EmptyString))).
Proof.
  apply (to_flag_unknown_letter "NP").
  - reflexivity.
  - reflexivity.
Defined.

Lemma instruction_from_dict_fields_witness :
  exists i,
    instruction_from_dict example_int example_fields = Good i /\
    CondFlag.legal (cond i) /\
    0 <= reg_target i <= 15 /\ 0 <= reg_src1 i <= 15 /\ 0 <= reg_src2 i <= 15.
Proof.
  eexists. split.
  - vm_compute. reflexivity.
  - apply (instruction_from_dict_fields example_int example_fields).
    vm_compute. reflexivity.
Defined.

Lemma assembled_instruction_decodes_witness :
  exists i,
    instruction_from_dict example_int example_fields = Good i /\
    offset i = 600 /\
    decode (encode i) =
      Ok (mkInstruction (op i) (cond i)
            (signed4 (reg_target i)) (signed4 (reg_src1 i))
            (signed4 (reg_src2 i)) (signed_field 10 (offset i))) /\
    signed_field 10 (offset i) = -424.
Proof.
  eexists. split; [vm_compute; reflexivity|].
  split; [reflexivity|]. split; [|reflexivity].
  apply (assembled_instruction_decodes example_int example_fields).
  vm_compute. reflexivity.
Defined.

Lemma load_fills_memory_witness :
  load example_int_of_line ["7"; "0"] (mkMemory [1; 2; 3]) =
    Ok (mkMemory ([7; 0] ++ drop (length [7; 0]) (cells (mkMemory [1; 2; 3])))).
Proof.
  apply (load_fills_memory example_int_of_line ["7"; "0"] [7; 0]
           (mkMemory [1; 2; 3])).
  - reflexivity.
  - cbn. lia.
Defined.

Lemma load_overflows_witness :
  load example_int_of_line ["7"; "0"] (mkMemory [1]) = Raise OutOfRange.
Proof.
  apply (load_overflows example_int_of_line ["7"; "0"] [7; 0] (mkMemory [1])).
  - reflexivity.
  - cbn. lia.
Defined.

(** ** assembler_phase1.py: labels and their addresses *)

Section Phase1Facts.

Variable py_int : string -> Z -> asm_result Z.
Variable parse_line : string -> asm_result Phase1.Fields.
Variable rstrip : string -> string.

Lemma count_lines_cons (p : string -> bool) (l : string) (lines : list string) :
  count_lines p (l :: lines) =
    (if p l then 1 else 0) + count_lines p lines.
Proof.
  unfold count_lines. cbn [List.filter]. destruct (p l); cbn [length]; lia.
Qed.

(** One line of [resolve]: the address moves by one past a line that takes
    a cell, and the table changes only at the label that the line defines. *)
Lemma resolve_loop_cons (l : string) (rest : list string)
    (labels : gmap string Z) (a : Z) :
  exists labels',
    Phase1.resolve_loop parse_line rstrip (l :: rest) labels a =
      Phase1.resolve_loop parse_line rstrip rest labels' (a + (if Phase1.takes_cell parse_line rstrip l then 1 else 0)) /\
    forall name,
      labels' !! name = if Phase1.defines parse_line rstrip name l then Some a else labels !! name.
Proof.
  cbn [Phase1.resolve_loop].
  unfold Phase1.resolve_line, Phase1.takes_cell, Phase1.defines.
  destruct (parse_line (rstrip l)) as [fields|e]; cbn [asm_bind].
  - destruct (dict_getitem (Phase1.groups fields) "label") as [label|e];
      cbn [asm_bind].
    + destruct label as [n|].
      * destruct (String.eqb n "") eqn:En; cbn [negb].
        -- exists labels. split.
           ++ destruct (Phase1.not_comment (Phase1.kind fields));
                [reflexivity | rewrite Z.add_0_r; reflexivity].
           ++ intros name. rewrite andb_false_r. reflexivity.
        -- exists (<[n := a]> labels). split.
           ++ destruct (Phase1.not_comment (Phase1.kind fields));
                [reflexivity | rewrite Z.add_0_r; reflexivity].
           ++ intros name. rewrite andb_true_r.
              destruct (String.eqb_spec n name) as [-> | Hne].
              ** apply lookup_insert_eq.
              ** apply lookup_insert_ne. assumption.
      * exists labels. split.
        -- destruct (Phase1.not_comment (Phase1.kind fields));
             [reflexivity | rewrite Z.add_0_r; reflexivity].
        -- reflexivity.
    + exists labels. split; [rewrite Z.add_0_r; reflexivity | reflexivity].
  - exists labels. split; [rewrite Z.add_0_r; reflexivity | reflexivity].
Qed.

Lemma resolve_loop_undefined (name : string) (post : list string)
    (labels : gmap string Z) (a : Z) :
  forallb (fun l => negb (Phase1.defines parse_line rstrip name l)) post = true ->
  Phase1.resolve_loop parse_line rstrip post labels a !! name = labels !! name.
Proof.
  revert labels a. induction post as [|l rest IH]; intros labels a Hp.
  - reflexivity.
  - cbn [forallb] in Hp. apply andb_true_iff in Hp as [Hl Hr].
    destruct (resolve_loop_cons l rest labels a) as (labels' & -> & Hlab).
    rewrite IH by assumption. rewrite Hlab.
    apply negb_true_iff in Hl. rewrite Hl. reflexivity.
Qed.

Lemma resolve_loop_defined (name : string) (pre : list string) (l : string)
    (post : list string) (labels : gmap string Z) (a : Z) :
  Phase1.defines parse_line rstrip name l = true ->
  forallb (fun l' => negb (Phase1.defines parse_line rstrip name l')) post = true ->
  Phase1.resolve_loop parse_line rstrip (pre ++ l :: post) labels a !! name =
    Some (a + count_lines (Phase1.takes_cell parse_line rstrip) pre).
Proof.
  revert labels a. induction pre as [|p pre IH]; intros labels a Hd Hp.
  - cbn [app].
    destruct (resolve_loop_cons l post labels a) as (labels' & -> & Hlab).
    rewrite resolve_loop_undefined by assumption.
    rewrite Hlab, Hd. unfold count_lines. cbn. f_equal. lia.
  - cbn [app].
    destruct (resolve_loop_cons p (pre ++ l :: post) labels a)
      as (labels' & -> & _).
    rewrite IH by assumption. rewrite count_lines_cons. f_equal. lia.
Qed.

(** X28: [resolve] gives a label the address of the line that carries it,
    counted in memory cells: the number of earlier lines that parse and are
    no comments.  Lines that do not parse take no cell, and when a label is
    defined twice the last definition stands. *)
Theorem resolve_address (name : string) (pre : list string) (l : string)
    (post : list string) :
  Phase1.defines parse_line rstrip name l = true ->
  forallb (fun l' => negb (Phase1.defines parse_line rstrip name l')) post = true ->
  Phase1.resolve parse_line rstrip (pre ++ l :: post) !! name = Some (count_lines (Phase1.takes_cell parse_line rstrip) pre).
Proof.
  intros Hd Hp. unfold Phase1.resolve.
  rewrite (resolve_loop_defined name pre l post ∅ 0 Hd Hp). f_equal.
Qed.

(** A name that no line defines is not in the table of [resolve]. *)
Theorem resolve_undefined (name : string) (lines : list string) :
  forallb (fun l => negb (Phase1.defines parse_line rstrip name l)) lines = true ->
  Phase1.resolve parse_line rstrip lines !! name = None.
Proof.
  intros Hp. unfold Phase1.resolve.
  rewrite resolve_loop_undefined by assumption. apply lookup_empty.
Qed.

End Phase1Facts.

(** ** assembler_phase1.py: resolving references *)

Section Phase1Transform.

Variable py_int : string -> Z -> asm_result Z.
Variable parse_line : string -> asm_result Phase1.Fields.
Variable rstrip : string -> string.

Lemma resolved_text_address (f : gmap string (option string)) (r r' : Z)
    (ref : string) :
  match Phase1.resolved_text f r ref with
  | Good _ => exists text, Phase1.resolved_text f r' ref = Good text
  | Bad e => Phase1.resolved_text f r' ref = Bad e
  end.
Proof.
  unfold Phase1.resolved_text.
  destruct (dict_getitem f "label"); cbn [asm_bind]; [|reflexivity].
  destruct (dict_getitem f "opcode"); cbn [asm_bind]; [|reflexivity].
  destruct (dict_getitem f "predicate"); cbn [asm_bind]; [|reflexivity].
  destruct (dict_getitem f "target"); cbn [asm_bind]; [|reflexivity].
  destruct (dict_getitem f "comment"); cbn [asm_bind]; [|reflexivity].
  eauto.
Qed.

Lemma resolve_reference_address (labels : gmap string Z) (a a' : Z)
    (fields : Phase1.Fields) :
  match Phase1.resolve_reference labels a fields with
  | Good _ => exists text, Phase1.resolve_reference labels a' fields = Good text
  | Bad e => Phase1.resolve_reference labels a' fields = Bad e
  end.
Proof.
  unfold Phase1.resolve_reference.
  destruct (dict_getitem (Phase1.groups fields) "labelref") as [ref|e];
    cbn [asm_bind]; [|reflexivity].
  destruct ref as [name|]; cbn [asm_bind]; [|reflexivity].
  destruct (labels !! name) as [addr|]; cbn [asm_bind]; [|reflexivity].
  destruct (Phase1.fix_optional_fields (Phase1.groups fields)) as [f|e];
    cbn [asm_bind]; [|reflexivity].
  apply resolved_text_address.
Qed.

(** Whether the body of the loop raises does not depend on the address, and
    when it does not raise the address moves by one past an instruction. *)
Lemma transform_line_good (labels : gmap string Z) (a : Z) (l : string) :
  transform_fails py_int parse_line rstrip labels l = false ->
  exists text,
    Phase1.transform_line py_int parse_line labels a (rstrip l) =
      Good (text, a + (if is_instruction parse_line rstrip l then 1 else 0)).
Proof.
  unfold transform_fails, is_instruction, Phase1.transform_line.
  destruct (parse_line (rstrip l)) as [fields|e]; cbn [asm_bind]; [|discriminate].
  assert (Ha : forall x : Z,
             (if Phase1.not_comment (Phase1.kind fields) then x + 1 else x) =
             x + (if Phase1.not_comment (Phase1.kind fields) then 1 else 0))
    by (intros x; destruct (Phase1.not_comment (Phase1.kind fields)); lia).
  destruct (Phase1.kind fields) eqn:Ek.
  - cbn [asm_bind]. intros _. rewrite Ha. eauto.
  - cbn [asm_bind]. intros _. rewrite Ha. eauto.
  - destruct (dict_getitem (Phase1.groups fields) "value") as [lit|e];
      cbn [asm_bind]; [|discriminate].
    destruct (value_parse py_int lit) as [v|e]; cbn [asm_bind]; [|discriminate].
    intros _. rewrite Ha. eauto.
  - pose proof (resolve_reference_address labels 0 a fields) as Hr.
    destruct (Phase1.resolve_reference labels 0 fields) as [t0|e];
      cbn [asm_bind]; [|discriminate].
    destruct Hr as [text ->]. cbn [asm_bind]. intros _. rewrite Ha. eauto.
  - pose proof (resolve_reference_address labels 0 a fields) as Hr.
    destruct (Phase1.resolve_reference labels 0 fields) as [t0|e];
      cbn [asm_bind]; [|discriminate].
    destruct Hr as [text ->]. cbn [asm_bind]. intros _. rewrite Ha. eauto.
Qed.

Lemma transform_loop_good (labels : gmap string Z) (lines : list string)
    (count : nat) (a : Z) (acc : list string) :
  forallb (fun l => negb (transform_fails py_int parse_line rstrip labels l))
    lines = true ->
  (count <= ERROR_LIMIT)%nat ->
  exists emitted,
    Phase1.transform_loop py_int parse_line rstrip labels lines count a acc =
      Phase1.Lines (acc ++ emitted) /\
    length emitted = length lines /\
    forall pre l post,
      lines = pre ++ l :: post ->
      exists text a',
        Phase1.transform_line py_int parse_line labels
          (a + count_lines (is_instruction parse_line rstrip) pre) (rstrip l) =
          Good (text, a') /\
        emitted !! length pre = Some text.
Proof.
  revert count a acc. induction lines as [|l0 rest IH]; intros count a acc Hg Hc.
  - exists []. cbn. rewrite app_nil_r. repeat split.
    intros pre l post Hl. destruct pre; discriminate.
  - cbn [forallb] in Hg. apply andb_true_iff in Hg as [H0 Hr].
    apply negb_true_iff in H0.
    destruct (transform_line_good labels a l0 H0) as [text Ht].
    cbn [Phase1.transform_loop]. rewrite Ht.
    rewrite (proj2 (Nat.ltb_ge ERROR_LIMIT count)) by assumption.
    destruct (IH count (a + (if is_instruction parse_line rstrip l0 then 1 else 0))
                (acc ++ [text]) Hr Hc) as (emitted & -> & Hlen & Hk).
    exists (text :: emitted). split; [rewrite <- app_assoc; reflexivity|].
    split; [cbn [length]; congruence|].
    intros pre l post Hl. destruct pre as [|p pre].
    + cbn [app] in Hl. injection Hl as <- <-.
      unfold count_lines. cbn [List.filter length Z.of_nat].
      rewrite Z.add_0_r. exists text. eexists. split; [exact Ht | reflexivity].
    + cbn [app] in Hl. injection Hl as <- ->.
      destruct (Hk pre l post eq_refl) as (text' & a' & Ht' & He).
      exists text', a'. split; [|exact He].
      rewrite count_lines_cons. rewrite <- Ht'. f_equal. lia.
Qed.

(** X29: [transform] turns a reference to a label into a displacement from
    the referring line.  In a source on which the loop raises nowhere, the
    output has one line for each source line, and a MEMOP or JUMP line that
    refers to a label is emitted with [r0,r15[d]] where [d] is the address
    that [resolve] gave the label minus the address of the line itself, the
    number of instruction lines before it. *)
Theorem transform_resolves_reference
    (pre : list string) (l : string) (post : list string)
    (fields : Phase1.Fields) (ref : string) (target : Z) :
  let lines := pre ++ l :: post in
  let labels := Phase1.resolve parse_line rstrip lines in
  forallb (fun l' => negb (transform_fails py_int parse_line rstrip labels l'))
    lines = true ->
  parse_line (rstrip l) = Good fields ->
  Phase1.kind fields = Phase1.MEMOP \/ Phase1.kind fields = Phase1.JUMP ->
  Phase1.groups fields !! "labelref" = Some (Some ref) ->
  labels !! ref = Some target ->
  exists out f text,
    Phase1.transform py_int parse_line rstrip lines = Phase1.Lines out /\
    length out = length lines /\
    Phase1.fix_optional_fields (Phase1.groups fields) = Good f /\
    Phase1.resolved_text f
      (target - count_lines (is_instruction parse_line rstrip) pre) ref =
      Good text /\
    out !! length pre = Some text.
Proof.
  intros lines labels Hg Hp Hk Href Ht.
  destruct (transform_loop_good labels lines 0 0 [] Hg ltac:(unfold ERROR_LIMIT; lia))
    as (out & Hout & Hlen & Hline).
  destruct (Hline pre l post eq_refl) as (text & a' & Htl & He).
  unfold Phase1.transform. fold lines. fold labels. rewrite Hout. cbn [app].
  unfold Phase1.transform_line in Htl. rewrite Hp in Htl. cbn [asm_bind] in Htl.
  assert (Hr : exists text0,
             Phase1.resolve_reference labels
               (0 + count_lines (is_instruction parse_line rstrip) pre) fields =
               Good text0 /\ text0 = text).
  { destruct Hk as [Hk | Hk]; rewrite Hk in Htl;
      destruct (Phase1.resolve_reference labels _ fields) as [t0|e];
      cbn [asm_bind] in Htl; try discriminate;
      injection Htl as <- _; eauto. }
  destruct Hr as (text0 & Hr & ->).
  unfold Phase1.resolve_reference, dict_getitem in Hr.
  rewrite Href in Hr. cbn [asm_bind] in Hr. rewrite Ht in Hr. cbn [asm_bind] in Hr.
  destruct (Phase1.fix_optional_fields (Phase1.groups fields)) as [f|e];
    cbn [asm_bind] in Hr; [|discriminate].
  exists out, f, text. rewrite Z.add_0_l in Hr. cbn [fmt] in Hr. auto.
Qed.

(** X30: the lines that need no resolving pass through [transform] as they
    are, stripped of trailing white space: in a source on which the loop
    raises nowhere, a fully specified instruction, a DATA line and a comment
    are each emitted unchanged at the position they had. *)
Theorem transform_passes_through
    (pre : list string) (l : string) (post : list string)
    (fields : Phase1.Fields) :
  let lines := pre ++ l :: post in
  let labels := Phase1.resolve parse_line rstrip lines in
  forallb (fun l' => negb (transform_fails py_int parse_line rstrip labels l'))
    lines = true ->
  parse_line (rstrip l) = Good fields ->
  Phase1.kind fields = Phase1.FULL \/ Phase1.kind fields = Phase1.DATA \/
  Phase1.kind fields = Phase1.COMMENT ->
  exists out,
    Phase1.transform py_int parse_line rstrip lines = Phase1.Lines out /\
    length out = length lines /\
    out !! length pre = Some (rstrip l).
Proof.
  intros lines labels Hg Hp Hk.
  destruct (transform_loop_good labels lines 0 0 [] Hg ltac:(unfold ERROR_LIMIT; lia))
    as (out & Hout & Hlen & Hline).
  destruct (Hline pre l post eq_refl) as (text & a' & Htl & He).
  unfold Phase1.transform. fold lines. fold labels. rewrite Hout. cbn [app].
  exists out. split; [reflexivity|]. split; [assumption|].
  rewrite He. f_equal.
  unfold Phase1.transform_line in Htl. rewrite Hp in Htl. cbn [asm_bind] in Htl.
  destruct Hk as [Hk | [Hk | Hk]]; rewrite Hk in Htl; cbn [asm_bind] in Htl.
  - injection Htl as <- _. reflexivity.
  - destruct (dict_getitem (Phase1.groups fields) "value") as [lit|e];
      cbn [asm_bind] in Htl; [|discriminate].
    destruct (value_parse py_int lit) as [v|e]; cbn [asm_bind] in Htl;
      [|discriminate].
    injection Htl as <- _. reflexivity.
  - injection Htl as <- _. reflexivity.
Qed.

End Phase1Transform.


Lemma resolve_address_witness :
  Phase1.resolve example_parse_line example_rstrip example_source !! "x" =
    Some 2.
Proof.
  apply (resolve_address example_parse_line example_rstrip "x"
           ["again: STORE r1,x"; "HALT r0,r0,r0"] "x: DATA 0" []).
  - vm_compute. reflexivity.
  - reflexivity.
Defined.

Lemma resolve_undefined_witness :
  Phase1.resolve example_parse_line example_rstrip example_source !! "y" = None.
Proof.
  apply (resolve_undefined example_parse_line example_rstrip "y" example_source).
  vm_compute. reflexivity.
Defined.

Lemma transform_resolves_reference_witness :
  exists out f text,
    Phase1.transform example_int example_parse_line example_rstrip
      example_source = Phase1.Lines out /\
    length out = 3%nat /\
    Phase1.fix_optional_fields
      (list_to_map
         [("label", Some "again"); ("opcode", Some "STORE");
          ("predicate", None); ("target", Some "r1");
          ("labelref", Some "x"); ("comment", None)]) = Good f /\
    Phase1.resolved_text f 2 "x" = Good text /\
    out !! 0%nat = Some text.
Proof.
  refine (transform_resolves_reference example_int example_parse_line
           example_rstrip [] "again: STORE r1,x"
           ["HALT r0,r0,r0"; "x: DATA 0"]
           (Phase1.mkFields Phase1.MEMOP
              (list_to_map
                 [("label", Some "again"); ("opcode", Some "STORE");
                  ("predicate", None); ("target", Some "r1");
                  ("labelref", Some "x"); ("comment", None)]))
           "x" 2 _ _ _ _ _).
  - vm_compute. reflexivity.
  - reflexivity.
  - left. reflexivity.
  - vm_compute. reflexivity.
  - vm_compute. reflexivity.
Defined.

Lemma transform_passes_through_witness :
  exists out,
    Phase1.transform example_int example_parse_line example_rstrip
      example_source = Phase1.Lines out /\
    length out = 3%nat /\
    out !! 2%nat = Some "x: DATA 0".
Proof.
  refine (transform_passes_through example_int example_parse_line
           example_rstrip ["again: STORE r1,x"; "HALT r0,r0,r0"] "x: DATA 0" []
           (Phase1.mkFields Phase1.DATA
              (list_to_map
                 [("label", Some "x"); ("opcode", Some "DATA");
                  ("value", Some "0"); ("comment", None)])) _ _ _).
  - vm_compute. reflexivity.
  - reflexivity.
  - right. left. reflexivity.
Defined.
